(** * braintree-auto: the row orchestrator of [server.js]

    A shallow embedding of [src/server.js]: the run configuration read
    from the command line, the per-record skip policy, the stage race
    detector, the result poller and the row loop of [main].

    Conventions.
    - A JavaScript string is a [string]; every character stands for one
      code unit in the Latin-1 range, on which [trim], [\s], [\D] and
      [toLowerCase] are written out below.
    - A spreadsheet cell is represented by what [toString()] yields for
      it: [main] reads every cell through [.toString()] and nothing else.
    - Time is a number of milliseconds ([N]).
    - [console.log] and friends are not modelled: they do not influence
      control flow. *)

From Stdlib Require Import String Ascii List Arith NArith Bool Lia.
From stdpp Require Import base option list gmap strings.
Import ListNotations.
Local Open Scope string_scope.
Local Open Scope list_scope.
Local Open Scope nat_scope.

(** ** JavaScript string primitives *)

Module JS.

(** [\d] without the unicode flag: the ten ASCII digits. *)
Definition isDigit (c : ascii) : bool :=
  let n := nat_of_ascii c in (48 <=? n) && (n <=? 57).

(** [\s] and the characters [trim] strips (WhiteSpace and
    LineTerminator), restricted to Latin-1: TAB, LF, VT, FF, CR, SP and
    NBSP. *)
Definition isSpace (c : ascii) : bool :=
  let n := nat_of_ascii c in
  ((9 <=? n) && (n <=? 13)) || (n =? 32) || (n =? 160).

(** [s.replace(/\D+/g, '')] *)
Fixpoint stripNonDigits (s : string) : string :=
  match s with
  | EmptyString => EmptyString
  | String c s' =>
      if isDigit c then String c (stripNonDigits s') else stripNonDigits s'
  end.

(** [s.replace(/\s+/g, '')] *)
Fixpoint stripSpaces (s : string) : string :=
  match s with
  | EmptyString => EmptyString
  | String c s' =>
      if isSpace c then stripSpaces s' else String c (stripSpaces s')
  end.

(** [s.replace(/\s+/g, ' ')]: every maximal run of white space becomes
    one space; [inRun] says that the previous character was white. *)
Fixpoint collapseFrom (inRun : bool) (s : string) : string :=
  match s with
  | EmptyString => EmptyString
  | String c s' =>
      if isSpace c
      then (if inRun then collapseFrom true s'
            else String " "%char (collapseFrom true s'))
      else String c (collapseFrom false s')
  end.

Definition collapseSpaces (s : string) : string := collapseFrom false s.

Fixpoint trimStart (s : string) : string :=
  match s with
  | EmptyString => EmptyString
  | String c s' => if isSpace c then trimStart s' else s
  end.

Fixpoint trimEnd (s : string) : string :=
  match s with
  | EmptyString => EmptyString
  | String c s' =>
      match trimEnd s' with
      | EmptyString => if isSpace c then EmptyString else String c EmptyString
      | r => String c r
      end
  end.

(** [s.trim()] *)
Definition trim (s : string) : string := trimEnd (trimStart s).

(** [toLowerCase] on one Latin-1 code unit: A-Z, and U+00C0..U+00DE
    but for the multiplication sign U+00D7. *)
Definition lowerChar (c : ascii) : ascii :=
  let n := nat_of_ascii c in
  if ((65 <=? n) && (n <=? 90))
     || ((192 <=? n) && (n <=? 222) && negb (n =? 215))
  then ascii_of_nat (n + 32) else c.

(** [s.toLowerCase()] *)
Fixpoint toLowerCase (s : string) : string :=
  match s with
  | EmptyString => EmptyString
  | String c s' => String (lowerChar c) (toLowerCase s')
  end.

(** [s.slice(0, n)] for [0 <= n] *)
Fixpoint sliceTo (n : nat) (s : string) : string :=
  match n, s with
  | S n', String c s' => String c (sliceTo n' s')
  | _, _ => EmptyString
  end.

(** [s.slice(n)] for [0 <= n] *)
Fixpoint sliceFrom (n : nat) (s : string) : string :=
  match n, s with
  | S n', String _ s' => sliceFrom n' s'
  | _, _ => s
  end.

(** [s.includes(t)] *)
Definition includes (s t : string) : bool :=
  match String.index 0 t s with Some _ => true | None => false end.

(** Truthiness of a string: [if (s)]. *)
Definition truthy (s : string) : bool :=
  match s with EmptyString => false | _ => true end.

(** [a ?? b] where [None] stands for [undefined]. *)
Definition nullish {A} (a b : option A) : option A :=
  match a with Some _ => a | None => b end.

(** [arr.includes(x)] on an array of strings. *)
Definition arrayIncludes (arr : list string) (x : string) : bool :=
  existsb (String.eqb x) arr.

End JS.

(** ** Run configuration (server.js, lines 21-36) *)

(** What the script reads from [process]: the argument vector and the
    four timeout overrides of the environment ([None] when the variable
    is unset or empty, so that [||] falls through to the default). *)
Record process := {
  argv : list string;
  env_LOGIN_PAGE_LOAD_TIMEOUT_MS : option N;
  env_POST_LOGIN_WAIT_TIMEOUT_MS : option N;
  env_OTP_WAIT_TIMEOUT_MS : option N;
  env_STATUS_WAIT_TIMEOUT_MS : option N
}.

Inductive brand := agoda | booking.

Definition brand_eqb (a b : brand) : bool :=
  match a, b with
  | agoda, agoda | booking, booking => true
  | _, _ => false
  end.

Section Configuration.
Variable p : process.

Definition LOGIN_PAGE_LOAD_TIMEOUT_MS : N :=
  default 30000%N (env_LOGIN_PAGE_LOAD_TIMEOUT_MS p).
Definition POST_LOGIN_WAIT_TIMEOUT_MS : N :=
  default (10 * 60 * 1000)%N (env_POST_LOGIN_WAIT_TIMEOUT_MS p).
Definition OTP_WAIT_TIMEOUT_MS : N :=
  default (10 * 60 * 1000)%N (env_OTP_WAIT_TIMEOUT_MS p).

Definition BRAND : brand :=
  if JS.arrayIncludes (argv p) "--agoda" then agoda else booking.

Definition hasFlag (flag : string) : bool := JS.arrayIncludes (argv p) flag.

Definition REVIEW_MODE : bool :=
  hasFlag "--review" || (brand_eqb BRAND agoda && negb (hasFlag "--no-review")).

Definition STATUS_WAIT_TIMEOUT_MS : N :=
  default (match BRAND with agoda => 120000 | booking => 60000 end)%N
          (env_STATUS_WAIT_TIMEOUT_MS p).
End Configuration.

(** ** Records (rows of the sheet) *)

(** A row as [sheet_to_json] returns it: the own properties of a plain
    object, listed in [Object.keys] order.  The value of a property is
    the cell's [toString()] rendering. *)
Definition row := list (string * string).

(** [row[k]]; [None] stands for [undefined]. *)
Fixpoint prop (r : row) (k : string) : option string :=
  match r with
  | [] => None
  | (k', v) :: r' => if String.eqb k' k then Some v else prop r' k
  end.

(** [Object.prototype.hasOwnProperty.call(row, h)] *)
Definition hasOwnProperty (r : row) (h : string) : bool :=
  match prop r h with Some _ => true | None => false end.

(** Line 353:
    [(row.STATUS ?? row.Status ?? row.status ?? '').toString().trim()] *)
Definition statusCell (r : row) : string :=
  JS.trim
    (default ""
       (JS.nullish (JS.nullish (prop r "STATUS") (prop r "Status"))
                   (prop r "status"))).

(** Line 360 *)
Definition normalizeKey (s : string) : string :=
  JS.collapseSpaces (JS.toLowerCase (JS.trim s)).

(** Line 361: the [reduce] over [Object.keys(row)]; a later key
    overwrites an earlier one with the same normalised spelling. *)
Definition normalizedRow (r : row) : gmap string string :=
  fold_left
    (fun acc kv => <[normalizeKey (fst kv) := JS.trim (snd kv)]> acc)
    r ∅.

(** Lines 362-366: [firstOwn] is the first loop, [firstNormalized] the
    second.  The second reads [normalizedRow[...]] on a plain object;
    the embedding is exact for headers whose normalised spelling is not
    a member of [Object.prototype], as is every header [main] asks
    for. *)
Fixpoint firstOwn (r : row) (headers : list string) : option string :=
  match headers with
  | [] => None
  | h :: hs =>
      match prop r h with
      | Some v =>
          let v' := JS.trim v in
          if JS.truthy v' then Some v' else firstOwn r hs
      | None => firstOwn r hs
      end
  end.

Fixpoint firstNormalized (n : gmap string string) (headers : list string)
  : option string :=
  match headers with
  | [] => None
  | h :: hs =>
      match n !! normalizeKey h with
      | Some v => if JS.truthy v then Some v else firstNormalized n hs
      | None => firstNormalized n hs
      end
  end.

Definition valueByHeaders (r : row) (headers : list string) : string :=
  match firstOwn r headers with
  | Some v => v
  | None => default "" (firstNormalized (normalizedRow r) headers)
  end.

(** Lines 367-368 *)
Definition cvvRawEarly (r : row) : string :=
  valueByHeaders r ["CVV"; "Security Code"; "CVV2"].
Definition cvvDigitsEarly (r : row) : string :=
  JS.stripNonDigits (cvvRawEarly r).

(** Lines 127-131 *)
Definition buildCardNumber (first4 last12 : string) : string :=
  let f := JS.sliceTo 4 (JS.stripNonDigits first4) in
  let l := JS.sliceTo 12 (JS.stripNonDigits last12) in
  JS.trim (f +:+ l).


(** ** The sheet and the write-back (lines 133-163) *)

(** The first worksheet of the workbook: its cells by row and column
    (for [encode_cell({ r, c })]), each cell standing for the string
    [String(cell.v ?? cell.w ?? '')], and its range [ws['!ref']]. *)
Record sheetRange := { s_r : nat; s_c : nat; e_r : nat; e_c : nat }.

Record worksheet := {
  cells : gmap (nat * nat) string;
  ref : sheetRange
}.

Module Sheet.

(** Lines 142-147: the first of [n] columns from [c] on whose header,
    trimmed and lower-cased, reads [status]. *)
Fixpoint findStatusCol (ws : worksheet) (headerRow c n : nat) : option nat :=
  match n with
  | 0 => None
  | Datatypes.S n' =>
      let txt :=
        match cells ws !! (headerRow, c) with
        | Some v => JS.toLowerCase (JS.trim v)
        | None => ""
        end in
      if String.eqb txt "status" then Some c
      else findStatusCol ws headerRow (Datatypes.S c) n'
  end.

(** Lines 139-161: what [writeStatusToExcel] makes of the worksheet
    between [xlsx.readFile] and [xlsx.writeFile]. *)
Definition writeStatusToExcel
    (ws : worksheet) (rowIndexZeroBased : nat) (statusValue : string)
  : worksheet :=
  let range := ref ws in
  let headerRow := s_r range in
  let found :=
    findStatusCol ws headerRow (s_c range)
                  (Datatypes.S (e_c range) - s_c range) in
  let statusCol := default (e_c range + 1) found in
  let ws1 :=
    match found with
    | Some _ => ws
    | None =>
        {| cells := <[(headerRow, statusCol) := "STATUS"]> (cells ws);
           ref := {| s_r := s_r range; s_c := s_c range;
                     e_r := e_r range; e_c := statusCol |} |}
    end in
  let targetRow := headerRow + 1 + rowIndexZeroBased in
  {| cells := <[(targetRow, statusCol) := statusValue]> (cells ws1);
     ref := if e_r (ref ws1) <? targetRow
            then {| s_r := s_r (ref ws1); s_c := s_c (ref ws1);
                    e_r := targetRow; e_c := e_c (ref ws1) |}
            else ref ws1 |}.

(** The sheet after the writes of a run that went through, in order. *)
Definition applyWrites (ws : worksheet) (writes : list (nat * string))
  : worksheet :=
  fold_left (fun sheet w => writeStatusToExcel sheet (fst w) (snd w)) writes ws.

(** Lines 112 and 124: [xlsx.utils.sheet_to_json(ws, { defval: '' })], as
    the xlsx library documents it.  The first row of the range gives the
    keys.  Every later row of the range that holds a cell gives a
    record, in column order, in which a column without cell reads
    [defval]; a row that holds no cell at all gives no record, since
    [blankrows] is not asked for.  A cell of the model is a cell that
    holds a value.  The embedding is exact for a header row whose cells
    are all there and pairwise different; the library renames the others
    ([__EMPTY], [_1]). *)
Definition columns (ws : worksheet) : list nat :=
  seq (s_c (ref ws)) (Datatypes.S (e_c (ref ws)) - s_c (ref ws)).

Definition blankRow (ws : worksheet) (R : nat) : bool :=
  forallb (fun C => match cells ws !! (R, C) with
                    | Some _ => false
                    | None => true
                    end)
          (columns ws).

(** The sheet rows that give a record, in order. *)
Definition dataRows (ws : worksheet) : list nat :=
  List.filter (fun R => negb (blankRow ws R))
              (seq (s_r (ref ws) + 1) (e_r (ref ws) - s_r (ref ws))).

Definition jsonRow (ws : worksheet) (R : nat) : row :=
  map (fun C => (default "__EMPTY" (cells ws !! (s_r (ref ws), C)),
                 default "" (cells ws !! (R, C))))
      (columns ws).

Definition sheet_to_json (ws : worksheet) : list row :=
  map (jsonRow ws) (dataRows ws).

End Sheet.

(** ** Errors, promises and the page-automation surface *)

(** [TimeoutError] is Puppeteer's, raised by its waits; its message names
    the timeout and nothing else.  [StatusTimedOut] is the [Error] of
    line 190, [UnsupportedStageType] that of line 238, and [Failure] any
    other error the browser or the sheet raises. *)
Inductive error :=
| TimeoutError (timeoutMs : N)
| StatusTimedOut (timeoutMs : N) (lastSeen : string)
| UnsupportedStageType
| Failure (message : string).

(** What becomes of a promise: the instant at which it settles and how,
    or [Pending] when it never settles. *)
Inductive fate (A : Type) :=
| Resolved (at_ : N) (value : A)
| Rejected (at_ : N) (reason : error)
| Pending.
Arguments Resolved {A} at_ value.
Arguments Rejected {A} at_ reason.
Arguments Pending {A}.

Definition settledAt {A} (f : fate A) : option N :=
  match f with
  | Resolved t _ | Rejected t _ => Some t
  | Pending => None
  end.

(** [p.then(f)] for a synchronous [f] that does not throw. *)
Definition fate_then {A B} (f : fate A) (g : A -> B) : fate B :=
  match f with
  | Resolved t a => Resolved t (g a)
  | Rejected t e => Rejected t e
  | Pending => Pending
  end.

(** [p.catch(h)] for a synchronous [h] that does not throw. *)
Definition fate_catch {A} (f : fate A) (h : error -> A) : fate A :=
  match f with
  | Rejected t e => Resolved t (h e)
  | _ => f
  end.

(** [Promise.race]: the promise that settles first decides; of two that
    settle at the same instant the one listed first does; the race of no
    promise at all never settles.  Which of two waits that settle within
    the same millisecond comes first is not for the script to say, and a
    promise that is rejected already when the race is built (line 238)
    settles it before any wait does: the rule for equal instants stands
    for the script only where no wait is satisfied at the very instant
    of the call next to such a promise. *)
Fixpoint fate_race {A} (fs : list (fate A)) : fate A :=
  match fs with
  | [] => Pending
  | f :: fs' =>
      let r := fate_race fs' in
      match settledAt f, settledAt r with
      | None, _ => r
      | Some _, None => f
      | Some t, Some u => if (t <=? u)%N then f else r
      end
  end.

(** [Promise.all], called at instant [now]: rejects with the earliest
    rejection, else stays pending with any pending member, else resolves
    with the last one. *)
Fixpoint fate_all {A} (now : N) (fs : list (fate A)) : fate (list A) :=
  match fs with
  | [] => Resolved now []
  | f :: fs' =>
      match f, fate_all now fs' with
      | Rejected t e, Rejected u e' =>
          if (t <=? u)%N then Rejected t e else Rejected u e'
      | Rejected t e, _ => Rejected t e
      | _, Rejected u e' => Rejected u e'
      | Pending, _ | _, Pending => Pending
      | Resolved t a, Resolved u l => Resolved (N.max t u) (a :: l)
      end
  end.

(** The conditions the script waits for in the remote document:
    - [anySelector]: line 210,
      [sels.some((sel) => document.querySelector(sel))];
    - [textIncludes]: lines 218-223;
    - [selectorPresent]: [page.waitForSelector(sel)];
    - [newTransactionHeading]: lines 332-335;
    - [navigation]:
      [page.waitForNavigation({ waitUntil: 'domcontentloaded' })]. *)
Inductive cond :=
| anySelector (sels : list string)
| textIncludes (sel txt : string)
| selectorPresent (sel : string)
| newTransactionHeading
| navigation.

(** The functions handed to [page.evaluate] for their effect: lines
    377-389, 539, 518 and 528. *)
Inductive script :=
| preventEnterGuard
| submitForm
| setCountry (sel val : string)
| forceChecked (sel : string).

(** The calls that act on the browser or on the sheet and are awaited
    one at a time.  [launch] is [importPuppeteer] and [puppeteer.launch];
    [evalValue], [evalChecked], [evalClear] and [evalScrollIntoView] are
    the four uses of [page.$eval]; [evaluateStatusText] is the
    [page.evaluate] of lines 180-183, which hands back the text content
    of the status node, if there is one; [close] is [browser.close]. *)
Inductive call :=
| launch
| newPage
| goto (url : string) (timeoutMs : N)
| click (sel : string) (clickCount : nat)
| focus (sel : string)
| type (sel txt : string) (delay : N)
| press (key : string)
| select (sel val : string)
| evaluate (f : script)
| evalValue (sel : string)
| evalChecked (sel : string)
| evalClear (sel : string)
| evalScrollIntoView (sel : string)
| evaluateStatusText
| readAllRowsFromExcel
| writeStatusToExcel (rowIndexZeroBased : nat) (statusValue : string)
| close.

Definition retType (c : call) : Type :=
  match c with
  | evalValue _ => string
  | evalChecked _ => bool
  | evaluateStatusText => option string
  | readAllRowsFromExcel => list row
  | _ => unit
  end.

(** How a call ends: after [elapsed] milliseconds with a value or an
    error, or never. *)
Inductive reply (A : Type) :=
| Done (elapsed : N) (value : A)
| Failed (elapsed : N) (reason : error)
| Stuck.
Arguments Done {A} elapsed value.
Arguments Failed {A} elapsed reason.
Arguments Stuck {A}.

(** The page-automation surface and the record store, as the script
    sees them.  [S] is the state the script's own calls have brought
    them to; the remote document also changes on its own with time.
    - [present s t sel]: [document.querySelector(sel)] finds an element;
    - [textContent s t sel]: [el.textContent || ''] of that element;
    - [h2Texts s t]: [h.textContent || ''] of every [h2];
    - [navigated s t]: a navigation has reached [domcontentloaded];
    - [respond c s t]: how the call [c], issued at [t], ends.
    A timeout of zero, which Puppeteer reads as no timeout, is outside
    the model: [waitFor] below makes it a deadline at the instant of the
    call.  Selectors are taken to be what [document.querySelector]
    accepts; it throws on the [h2:has-text(...)] entries of [SELECTORS],
    which no browser knows, and a wait that comes to evaluate one is
    outside the model too.
    [readAllRowsFromExcel] answers with the records of the sheet, which
    [Sheet.sheet_to_json] gives for a worksheet. *)
Class Surface (S : Type) := {
  present : S -> N -> string -> bool;
  textContent : S -> N -> string -> string;
  h2Texts : S -> N -> list string;
  navigated : S -> N -> bool;
  respond : forall c : call, S -> N -> reply (retType c) * S
}.

(** What the script does, in order: a wait it starts, a call it makes, a
    sleep. *)
Inductive event :=
| Waiting (c : cond) (timeoutMs : N)
| Called (c : call)
| Slept (ms : N).

Record world (S : Type) := World { doc : S; clock : N }.
Arguments World {S} doc clock.
Arguments doc {S} w.
Arguments clock {S} w.

Section Promises.
Context {S : Type} `{Surface S}.

(** [/New Transaction|Transaction Create/i.test(t.trim())] *)
Definition headingMatches (t : string) : bool :=
  let l := JS.toLowerCase (JS.trim t) in
  JS.includes l "new transaction" || JS.includes l "transaction create".

Definition holds (s : S) (t : N) (c : cond) : bool :=
  match c with
  | anySelector sels => existsb (present s t) sels
  | textIncludes sel txt =>
      present s t sel && JS.includes (JS.trim (textContent s t sel)) txt
  | selectorPresent sel => present s t sel
  | newTransactionHeading => existsb headingMatches (h2Texts s t)
  | navigation => navigated s t
  end.

(** The first instant from [t] on, at most [fuel] later, at which [f]
    is true. *)
Fixpoint firstTrue (f : N -> bool) (t : N) (fuel : nat) : option N :=
  if f t then Some t
  else match fuel with
       | 0 => None
       | Datatypes.S k => firstTrue f (N.succ t) k
       end.

(** A promise under construction: the calls it issues and its fate. *)
Definition promise (A : Type) := world S -> list event * fate A.

(** [page.waitForFunction(pred, { timeout })] and its relatives. *)
Definition waitFor (c : cond) (timeoutMs : N) : promise unit :=
  fun w =>
    ([Waiting c timeoutMs],
     match firstTrue (fun t => holds (doc w) t c) (clock w)
                     (N.to_nat timeoutMs) with
     | Some t => Resolved t tt
     | None => Rejected (clock w + timeoutMs)%N (TimeoutError timeoutMs)
     end).

Definition then_ {A B} (p : promise A) (g : A -> B) : promise B :=
  fun w => let '(tr, f) := p w in (tr, fate_then f g).

Definition catch_ {A} (p : promise A) (h : error -> A) : promise A :=
  fun w => let '(tr, f) := p w in (tr, fate_catch f h).

Definition Promise_reject {A} (e : error) : promise A :=
  fun w => ([], Rejected (clock w) e).

Definition Promise_race {A} (ps : list (promise A)) : promise A :=
  fun w =>
    (concat (map (fun p => fst (p w)) ps),
     fate_race (map (fun p => snd (p w)) ps)).

Definition Promise_all {A} (ps : list (promise A)) : promise (list A) :=
  fun w =>
    (concat (map (fun p => fst (p w)) ps),
     fate_all (clock w) (map (fun p => snd (p w)) ps)).

(** Lines 208-214 *)
Definition waitForAnySelector (selectors : list string) (timeoutMs : N)
  : promise unit :=
  waitFor (anySelector selectors) timeoutMs.

(** Lines 216-228 *)
Definition waitForText (selector includesText : string) (timeoutMs : N)
  : promise unit :=
  waitFor (textIncludes selector includesText) timeoutMs.

End Promises.

(** ** The stage race detector (lines 230-241) *)

(** A stage object, by its [type]: ['selectors'], ['text'], or anything
    else. *)
Inductive stage :=
| selectorsStage (name : string) (selectors : list string)
| textStage (name : string) (selector text : string)
| otherStage (name : string) (type_ : string).

Definition stageName (st : stage) : string :=
  match st with
  | selectorsStage n _ | textStage n _ _ | otherStage n _ => n
  end.

Section RaceStages.
Context {S : Type} `{Surface S}.

(** Lines 231-239: the promise [stages.map] makes of one stage. *)
Definition stagePromise (timeoutMs : N) (st : stage) : promise string :=
  match st with
  | selectorsStage name selectors =>
      then_ (waitForAnySelector selectors timeoutMs) (fun _ => name)
  | textStage name selector text =>
      then_ (waitForText selector text timeoutMs) (fun _ => name)
  | otherStage _ _ => Promise_reject UnsupportedStageType
  end.

(** Lines 230-241 *)
Definition raceStages (stages : list stage) (timeoutMs : N)
  : promise string :=
  Promise_race (map (stagePromise timeoutMs) stages).

End RaceStages.

(** ** Sequential code: state, trace, exceptions and suspension *)

(** How a piece of [async] code ends: it returns, it throws, or it is
    suspended on a promise that never settles.  Suspended code runs no
    further; the process itself lives on only as long as something else
    (the browser's connection) keeps Node's event loop busy, and then
    ends with Node's own status 0, without any call of [process.exit]. *)
Inductive outcome (A : Type) :=
| Returned (value : A)
| Thrown (reason : error)
| Suspended.
Arguments Returned {A} value.
Arguments Thrown {A} reason.
Arguments Suspended {A}.

Record run (S A : Type) := Run {
  trace : list event;
  after : world S;
  result : outcome A
}.
Arguments Run {S A} trace after result.
Arguments trace {S A} r.
Arguments after {S A} r.
Arguments result {S A} r.

Definition M (S A : Type) := world S -> run S A.

Definition ret {S A} (a : A) : M S A := fun w => Run [] w (Returned a).

Definition throw {S A} (e : error) : M S A := fun w => Run [] w (Thrown e).

Definition bind {S A B} (m : M S A) (k : A -> M S B) : M S B :=
  fun w =>
    let r := m w in
    match result r with
    | Returned a =>
        let r' := k a (after r) in
        Run (trace r ++ trace r') (after r') (result r')
    | Thrown e => Run (trace r) (after r) (Thrown e)
    | Suspended => Run (trace r) (after r) Suspended
    end.

(** [try { m } catch (e) { h e }], and [m.catch(h)] when awaited. *)
Definition try_ {S A} (m : M S A) (h : error -> M S A) : M S A :=
  fun w =>
    let r := m w in
    match result r with
    | Thrown e =>
        let r' := h e (after r) in
        Run (trace r ++ trace r') (after r') (result r')
    | _ => r
    end.

Declare Scope js_scope.
Delimit Scope js_scope with js.
Notation "x <- m ;; k" := (bind m (fun x => k))
  (at level 100, m at next level, right associativity) : js_scope.
Notation "m ;; k" := (bind m (fun _ => k))
  (at level 100, right associativity) : js_scope.

Section Sequential.
Context {S : Type} `{Surface S}.

(** [await p] *)
Definition await {A} (p : promise A) : M S A :=
  fun w =>
    let '(tr, f) := p w in
    match f with
    | Resolved t a => Run tr (World (doc w) t) (Returned a)
    | Rejected t e => Run tr (World (doc w) t) (Thrown e)
    | Pending => Run tr w Suspended
    end.

(** [await] of one call on the browser or on the sheet. *)
Definition perform (c : call) : M S (retType c) :=
  fun w =>
    match respond c (doc w) (clock w) with
    | (Done d a, s') => Run [Called c] (World s' (clock w + d)%N) (Returned a)
    | (Failed d e, s') => Run [Called c] (World s' (clock w + d)%N) (Thrown e)
    | (Stuck, s') => Run [Called c] (World s' (clock w)) Suspended
    end.

(** Lines 169-171 *)
Definition sleep (ms : N) : M S unit :=
  fun w => Run [Slept ms] (World (doc w) (clock w + ms)%N) (Returned tt).

(** [Date.now()] *)
Definition Date_now : M S N := fun w => Run [] w (Returned (clock w)).

(** [await new Promise(() => {})] *)
Definition forever {A} : M S A := await (fun _ => ([], Pending)).

End Sequential.

(** ** Selectors (lines 38-92) *)

Definition dq : string := String "034"%char EmptyString.

Module SELECTORS.
Definition login : list string :=
  [ "form[action=" +:+ dq +:+ "/session" +:+ dq +:+ "]";
    "#login"; "#password"; "input.login-submit-button" ].
Definition otp : list string :=
  [ "form[action=" +:+ dq +:+ "/session/two_factor" +:+ dq +:+ "]";
    "input[name=" +:+ dq +:+ "code" +:+ dq +:+ "]";
    "h2.unified-login__title" ].
Definition dashboard : list string :=
  [ "input#q.unified-panel-search_input";
    "a[href*=" +:+ dq +:+ "/transactions/advanced_search" +:+ dq +:+ "]";
    "h4.graph-title" ].
Definition transactionsLink : list string :=
  [ "a[onclick*=" +:+ dq +:+ "trackClick('transactions')" +:+ dq +:+ "]";
    "a[href*=" +:+ dq +:+ "/transactions/advanced_search" +:+ dq +:+ "]" ].
Definition newTransactionLink : list string :=
  [ "a[onclick*=" +:+ dq +:+ "trackClick('new_transaction')" +:+ dq +:+ "]";
    "a[href$=" +:+ dq +:+ "/transactions/new" +:+ dq +:+ "]" ].
Definition newTransactionPage : list string :=
  [ "body.transactions_new";
    "h2:has-text(" +:+ dq +:+ "New Transaction" +:+ dq +:+ ")";
    "h2:has-text(" +:+ dq +:+ "Transaction Create" +:+ dq +:+ ")" ].
Definition submitPage : list string :=
  [ "body.transactions_show";
    "span.transaction-status";
    "h2:has-text(" +:+ dq +:+ "Transaction Detail" +:+ dq +:+ ")" ].
End SELECTORS.

Module FORM_SELECTORS.
Definition merchantAccount := "#transaction_merchant_account_id".
Definition amount := "#transaction_amount".
Definition orderId := "#transaction_order_id".
Definition customerFirstName := "#transaction_customer_first_name".
Definition cardholderName := "#transaction_credit_card_cardholder_name".
Definition cardNumber := "#transaction_credit_card_number".
Definition expirationDate := "#transaction_credit_card_expiration_date".
Definition cvv := "#transaction_credit_card_cvv".
Definition billingPostalCode := "#transaction_billing_postal_code".
Definition billingCompany := "#transaction_billing_company".
Definition billingFirstName := "#transaction_billing_first_name".
Definition billingStreet := "#transaction_billing_street_address".
Definition billingRegion := "#transaction_billing_region".
Definition billingCountryName := "#transaction_billing_country_name".
Definition skipPremiumFraudCheckbox :=
  "#transaction_options_skip_advanced_fraud_checking".
End FORM_SELECTORS.

(** [arr[i]] on an array of strings that has an [i]-th element. *)
Definition item (arr : list string) (i : nat) : string := nth i arr "".

(** ** The result poller (lines 173-194) *)

Section Orchestrator.
Context {S : Type} `{Surface S}.
Variable p : process.
Local Open Scope js_scope.

(** One turn of the [while (true)] loop per unit of [fuel].  Every turn
    that goes round sleeps a second, so [waitForStatusText] hands over
    enough fuel for the deadline to pass ([statusLoop_fuel]). *)
Fixpoint statusLoop (fuel : nat) (start timeoutMs : N) (lastSeen : string)
  : M S string :=
  match fuel with
  | 0 => forever
  | Datatypes.S fuel' =>
      seen <- try_ (el <- perform evaluateStatusText ;;
                    ret (Some (match el with
                               | Some content => JS.trim content
                               | None => ""
                               end)))
                   (fun _ => ret None) ;;
      match seen with
      | Some (String c text) => ret (String c text)
      | _ =>
          let lastSeen' := match seen with Some text => text | None => lastSeen end in
          now <- Date_now ;;
          if (timeoutMs <? now - start)%N
          then throw (StatusTimedOut timeoutMs lastSeen')
          else sleep 1000 ;; statusLoop fuel' start timeoutMs lastSeen'
      end
  end.

Definition waitForStatusText (timeoutMs : N) : M S string :=
  start <- Date_now ;;
  statusLoop (N.to_nat (timeoutMs / 1000) + 2) start timeoutMs "".

(** ** Navigation to the form (lines 315-337) *)

Definition goToNewTransaction : M S unit :=
  await (waitForAnySelector SELECTORS.transactionsLink 20000) ;;
  try_ (perform (click (item SELECTORS.transactionsLink 0) 1))
       (fun _ => perform (click (item SELECTORS.transactionsLink 1) 1)) ;;
  await (Promise_race
           [ waitForAnySelector SELECTORS.newTransactionLink 20000;
             catch_ (waitFor navigation 20000) (fun _ => tt) ]) ;;
  try_ (perform (click (item SELECTORS.newTransactionLink 0) 1))
       (fun _ => perform (click (item SELECTORS.newTransactionLink 1) 1)) ;;
  await (Promise_race
           [ catch_ (waitFor (selectorPresent "body.transactions_new") 20000)
                    (fun _ => tt);
             catch_ (waitFor navigation 20000) (fun _ => tt) ]) ;;
  try_ (await (waitFor (selectorPresent "body.transactions_new") 20000))
       (fun _ =>
          await (waitForAnySelector ["h2"] 20000) ;;
          await (waitFor newTransactionHeading 20000)).

(** ** Form fill (lines 376-530) *)

(** The three calls that put a value into a field:
    [page.focus], [page.click] with [clickCount: 3], [page.type]. *)
Definition typeInto (sel txt : string) (delay : N) : M S unit :=
  perform (focus sel) ;;
  perform (click sel 3) ;;
  perform (type sel txt delay).

(** Lines 391-404 *)
Definition ensureCriticalInputs : M S unit :=
  try_ (await (waitFor (selectorPresent FORM_SELECTORS.merchantAccount) 30000))
       (fun _ =>
          sleep 1500 ;;
          await (waitFor (selectorPresent FORM_SELECTORS.merchantAccount) 30000)) ;;
  await (Promise_all
           [ catch_ (waitFor (selectorPresent FORM_SELECTORS.amount) 30000)
                    (fun _ => tt);
             catch_ (waitFor (selectorPresent FORM_SELECTORS.orderId) 30000)
                    (fun _ => tt);
             catch_ (waitFor (selectorPresent FORM_SELECTORS.cardNumber) 30000)
                    (fun _ => tt) ]) ;;
  sleep 400.

(** Lines 406-409 *)
Definition first4Digits (r : row) : string :=
  JS.sliceTo 4 (JS.stripNonDigits
    (valueByHeaders r ["Card first 4"; "Card First 4"; "First 4"])).
Definition last12Digits (r : row) : string :=
  JS.sliceTo 12 (JS.stripNonDigits
    (valueByHeaders r ["Card last 12"; "Card Last 12"; "Last 12"])).

(** Lines 411-423 *)
Record formValues := {
  merchantAccount : string;
  amount : string;
  orderId : string;
  customerFirstName : string;
  cardholderName : string;
  cardNumber : string;
  expirationDate : string;
  cvv : string;
  billingPostalCode : string;
  billingCompany : string;
  billingCountryName : string
}.

Definition formValuesOf (r : row) : formValues := {|
  merchantAccount :=
    valueByHeaders r ["MAIDS"; "Merchant Account"; "Merchant Account ID"];
  amount := valueByHeaders r ["Amount"];
  orderId := valueByHeaders r ["Reservation ID"; "Order ID"];
  customerFirstName := valueByHeaders r ["Hotel Name"; "First Name"];
  cardholderName :=
    match BRAND p with agoda => "Agoda Ltd." | booking => "BOOKING.COM" end;
  cardNumber :=
    if JS.truthy (first4Digits r) && JS.truthy (last12Digits r)
    then first4Digits r +:+ last12Digits r
    else if JS.truthy (first4Digits r) then first4Digits r
         else if JS.truthy (last12Digits r) then last12Digits r else "";
  expirationDate :=
    JS.stripSpaces
      (valueByHeaders r ["Expiry"; "Expiration"; "Expiration Date (MM/YYYY)";
                         "Expiration Date"; "Exp Date"]);
  cvv := valueByHeaders r ["CVV"; "Security Code"; "CVV2"];
  billingPostalCode :=
    match BRAND p with agoda => "80525" | booking => "10118" end;
  billingCompany := "";
  billingCountryName := "United States of America"
|}.

(** Lines 456-470: the card number and its read-back correction. *)
Definition fillCardNumber (r : row) (v : formValues) : M S unit :=
  if JS.truthy (cardNumber v) then
    typeInto FORM_SELECTORS.cardNumber (cardNumber v) 10 ;;
    try_ (typed <- perform (evalValue FORM_SELECTORS.cardNumber) ;;
          let typedDigits := JS.stripNonDigits typed in
          let expectedDigits := first4Digits r +:+ last12Digits r in
          if JS.truthy expectedDigits
             && (String.length typedDigits <? String.length expectedDigits)
          then
            let remaining :=
              JS.sliceFrom (String.length typedDigits) expectedDigits in
            perform (type FORM_SELECTORS.cardNumber remaining 10)
          else ret tt)
         (fun _ => ret tt)
  else ret tt.

(** Lines 521-530 *)
Definition skipPremiumFraud : M S unit :=
  let box := FORM_SELECTORS.skipPremiumFraudCheckbox in
  skipChecked <- try_ (perform (evalChecked box)) (fun _ => ret false) ;;
  if negb skipChecked then
    try_ (perform (evalScrollIntoView box)) (fun _ => ret tt) ;;
    try_ (perform (click box 1)) (fun _ => ret tt) ;;
    stillUnchecked <- try_ (perform (evalChecked box)) (fun _ => ret false) ;;
    if negb stillUnchecked then perform (evaluate (forceChecked box))
    else ret tt
  else ret tt.

(** Lines 425-530 *)
Definition fillForm (r : row) : M S unit :=
  let v := formValuesOf r in
  (if JS.truthy (merchantAccount v) then
     typeInto FORM_SELECTORS.merchantAccount (merchantAccount v) 25 ;;
     sleep 250 ;;
     try_ (perform (press "Tab")) (fun _ => ret tt)
   else ret tt) ;;
  (if JS.truthy (amount v)
   then typeInto FORM_SELECTORS.amount (amount v) 10 else ret tt) ;;
  (if JS.truthy (orderId v)
   then typeInto FORM_SELECTORS.orderId (orderId v) 10 else ret tt) ;;
  (if JS.truthy (customerFirstName v)
   then typeInto FORM_SELECTORS.customerFirstName (customerFirstName v) 10
   else ret tt) ;;
  typeInto FORM_SELECTORS.cardholderName (cardholderName v) 10 ;;
  fillCardNumber r v ;;
  (if JS.truthy (expirationDate v)
   then typeInto FORM_SELECTORS.expirationDate (expirationDate v) 10
   else ret tt) ;;
  (if JS.truthy (cvv v)
   then typeInto FORM_SELECTORS.cvv (cvv v) 10 else ret tt) ;;
  typeInto FORM_SELECTORS.billingPostalCode (billingPostalCode v) 10 ;;
  try_ (typeInto FORM_SELECTORS.billingFirstName
          (match BRAND p with
           | agoda => "Agoda Company Pte Ltd."
           | booking => "Booking.com"
           end) 10)
       (fun _ => ret tt) ;;
  (match BRAND p with
   | agoda =>
       try_ (typeInto FORM_SELECTORS.billingStreet "155 E. Boardwalk #490" 10)
            (fun _ => ret tt) ;;
       try_ (typeInto FORM_SELECTORS.billingRegion "Fort Collins, CO" 10)
            (fun _ => ret tt)
   | booking => ret tt
   end) ;;
  try_ (perform (evalClear FORM_SELECTORS.billingCompany)) (fun _ => ret tt) ;;
  (if JS.truthy (billingCountryName v) then
     try_ (perform (select FORM_SELECTORS.billingCountryName
                           (billingCountryName v)))
          (fun _ => perform (evaluate
                      (setCountry FORM_SELECTORS.billingCountryName
                                  (billingCountryName v))))
   else ret tt) ;;
  skipPremiumFraud.

(** ** One record (lines 350-576) *)

(** Lines 532-545 *)
Definition submitOrPause : M S unit :=
  if REVIEW_MODE p then forever
  else
    sleep 2000 ;;
    perform (evaluate submitForm) ;;
    await (Promise_race
             [ catch_ (waitFor navigation 60000) (fun _ => tt);
               catch_ (waitFor (selectorPresent "body.transactions_show") 60000)
                      (fun _ => tt) ]) ;;
    await (waitForAnySelector SELECTORS.submitPage 30000).

(** Lines 552-559: the poll and its single retry. *)
Definition captureStatus : M S string :=
  try_ (waitForStatusText (STATUS_WAIT_TIMEOUT_MS p))
       (fun _ =>
          sleep 2000 ;;
          try_ (waitForStatusText (STATUS_WAIT_TIMEOUT_MS p))
               (fun _ => ret "")).

(** Lines 569-575 *)
Definition backToTransactions : M S unit :=
  await (waitForAnySelector SELECTORS.transactionsLink 15000) ;;
  try_ (perform (click (item SELECTORS.transactionsLink 0) 1))
       (fun _ => perform (click (item SELECTORS.transactionsLink 1) 1)) ;;
  await (Promise_race
           [ catch_ (waitFor navigation 30000) (fun _ => tt);
             catch_ (waitForAnySelector SELECTORS.newTransactionLink 30000)
                    (fun _ => tt) ]).

(** Lines 552-575: the status is captured, written back at the record's
    row index (a failed write is only logged) and the list view is
    reached again. *)
Definition persistStatus (idx : nat) : M S unit :=
  statusText <- captureStatus ;;
  try_ (perform (writeStatusToExcel idx statusText)) (fun _ => ret tt) ;;
  backToTransactions.

(** Lines 547-576 *)
Definition captureAndPersist (idx : nat) : M S unit :=
  if negb (REVIEW_MODE p) then
    try_ (await (waitForAnySelector SELECTORS.submitPage
                   (STATUS_WAIT_TIMEOUT_MS p)))
         (fun _ => ret tt) ;;
    persistStatus idx
  else ret tt.

(** Lines 374-530: the form is reached and filled. *)
Definition navigateAndFill (r : row) : M S unit :=
  goToNewTransaction ;;
  perform (evaluate preventEnterGuard) ;;
  ensureCriticalInputs ;;
  fillForm r.

(** Lines 374-576: what the loop does with a record it does not skip. *)
Definition processRecord (idx : nat) (r : row) : M S unit :=
  navigateAndFill r ;;
  submitOrPause ;;
  captureAndPersist idx.

(** Lines 350-577: the body of the [for] loop; the two [continue]s. *)
Definition iteration (idx : nat) (r : row) : M S unit :=
  if JS.truthy (statusCell r) then ret tt
  else if String.length (cvvDigitsEarly r) <? 3 then ret tt
  else processRecord idx r.

(** Lines 349-577: [for (let idx = 0; idx < rows.length; idx += 1)] *)
Fixpoint forRows (idx : nat) (rows : list row) : M S unit :=
  match rows with
  | [] => ret tt
  | r :: rows' => iteration idx r ;; forRows (Datatypes.S idx) rows'
  end.

(** ** The run (lines 243-593) *)

(** Lines 281-347: log-in, and the records read from the sheet. *)
Definition prologue : M S (list row) :=
  perform newPage ;;
  perform (goto "https://www.braintreegateway.com/login" 60000) ;;
  await (waitForAnySelector SELECTORS.login (LOGIN_PAGE_LOAD_TIMEOUT_MS p)) ;;
  firstStage <- await (raceStages
                  [ selectorsStage "otp" SELECTORS.otp;
                    selectorsStage "dashboard" SELECTORS.dashboard ]
                  (POST_LOGIN_WAIT_TIMEOUT_MS p)) ;;
  (if String.eqb firstStage "otp" then
     await (catch_ (waitForText "h2.unified-login__title"
                      "Two-Factor Authentication" 5000)
                   (fun _ => tt)) ;;
     await (waitForAnySelector SELECTORS.dashboard (OTP_WAIT_TIMEOUT_MS p))
   else ret tt) ;;
  perform readAllRowsFromExcel.

(** Lines 281-577: the [try] block of [main]. *)
Definition session : M S unit :=
  rows <- prologue ;;
  forRows 0 rows.

(** Lines 244-347: everything [main] does before the loop. *)
Definition opening : M S (list row) :=
  perform launch ;;
  prologue.

(** [main] and the [main().catch] of lines 590-593; the value returned
    is the code handed to [process.exit], and a run that is [Suspended]
    never calls [process.exit]. *)
Definition main : M S nat :=
  try_ (perform launch ;;
        exitCode <- try_ (session ;; ret 0) (fun _ => ret 1) ;;
        try_ (perform close) (fun _ => ret tt) ;;
        ret exitCode)
       (fun _ => ret 1).

End Orchestrator.

(** ** Vocabulary of the statements *)

(** The first of the three status keys that the record has. *)
Definition firstStatusKey (r : row) : option string :=
  find (hasOwnProperty r) ["STATUS"; "Status"; "status"].

(** [a] is a proper prefix of [b]. *)
Definition properPrefix (a b : string) : Prop :=
  exists rest, rest <> "" /\ b = a +:+ rest.

(** The two kinds of stage the detector can wait for. *)
Definition supported (st : stage) : Prop :=
  match st with otherStage _ _ => False | _ => True end.

Section Vocabulary.
Context {S : Type} `{Surface S}.

(** Some alternative of the stage is satisfied at instant [t]. *)
Definition stageHolds (s : S) (t : N) (st : stage) : bool :=
  match st with
  | selectorsStage _ selectors => holds s t (anySelector selectors)
  | textStage _ selector text => holds s t (textIncludes selector text)
  | otherStage _ _ => false
  end.

(** Every event a piece of code can leave in the trace satisfies [P]. *)
Definition emits {A} (P : event -> Prop) (m : M S A) : Prop :=
  forall w, Forall P (trace (m w)).

Definition issues {A} (P : event -> Prop) (q : promise A) : Prop :=
  forall w : world S, Forall P (fst (q w)).

End Vocabulary.

(** An event that writes a status writes it at row [idx]. *)
Definition writesOnlyAt (idx : nat) (e : event) : Prop :=
  forall j v, e = Called (writeStatusToExcel j v) -> j = idx.

(** An event of the form fill: no submission, no status poll, no write
    to the sheet. *)
Definition fillEvent (e : event) : Prop :=
  e <> Called (evaluate submitForm)
  /\ e <> Called evaluateStatusText
  /\ forall j v, e <> Called (writeStatusToExcel j v).

(** The text one poll reads: the trimmed content of the status node, or
    the empty string when there is no such node (lines 180-183). *)
Definition polled (el : option string) : string :=
  match el with Some content => JS.trim content | None => "" end.

(** How many times the status node was read. *)
Fixpoint pollCount (tr : list event) : nat :=
  match tr with
  | [] => 0
  | Called evaluateStatusText :: tr' => Datatypes.S (pollCount tr')
  | _ :: tr' => pollCount tr'
  end.

(** The statuses written to the sheet, with their rows, in order. *)
Fixpoint statusWrites (tr : list event) : list (nat * string) :=
  match tr with
  | [] => []
  | Called (writeStatusToExcel idx v) :: tr' => (idx, v) :: statusWrites tr'
  | _ :: tr' => statusWrites tr'
  end.

(** ** A scripted surface, for concrete runs *)

Record scenario := {
  sheet : list row;
  shows : string -> N -> bool;
  cardReadBack : string;
  statusNode : option string;
  failing : call -> bool
}.

Definition scenarioReply (sc : scenario) (c : call) : reply (retType c) :=
  if failing sc c then Failed 0 (Failure "scripted failure")
  else match c as c' return reply (retType c') with
       | evalValue _ => Done 0 (cardReadBack sc)
       | evalChecked _ => Done 0 false
       | evaluateStatusText => Done 0 (statusNode sc)
       | readAllRowsFromExcel => Done 0 (sheet sc)
       | _ => Done 0 tt
       end.

#[export] Instance scenarioSurface : Surface scenario := {|
  present sc t sel := shows sc sel t;
  textContent _ _ _ := "";
  h2Texts _ _ := [];
  navigated _ _ := true;
  respond c sc _ := (scenarioReply sc c, sc)
|}.

(** A sheet of one column [CVV] and one record. *)
Definition cvvOnlySheet : worksheet := {|
  cells := <[(0, 0) := "CVV"]> (<[(1, 0) := "123"]> ∅);
  ref := {| s_r := 0; s_c := 0; e_r := 1; e_c := 0 |}
|}.

(** The record of the end-to-end scenario of the specification. *)
Definition sampleRecord : row :=
  [ ("MAIDS", "acct_1"); ("Amount", "10.00"); ("Reservation ID", "R100");
    ("Card first 4", "4111"); ("Card last 12", "111111111111");
    ("CVV", "123"); ("Expiry", "12/2030") ].

Definition doneRecord : row := sampleRecord ++ [("STATUS", " Authorized ")].

Definition shortCvvRecord : row :=
  [ ("MAIDS", "acct_1"); ("Amount", "10.00"); ("Reservation ID", "R100");
    ("Card first 4", "4111"); ("Card last 12", "111111111111");
    ("CVV", "12"); ("Expiry", "12/2030") ].

Definition bookingAuto : process := {|
  argv := ["node"; "server.js"; "--booking"; "--no-review"];
  env_LOGIN_PAGE_LOAD_TIMEOUT_MS := None;
  env_POST_LOGIN_WAIT_TIMEOUT_MS := None;
  env_OTP_WAIT_TIMEOUT_MS := None;
  env_STATUS_WAIT_TIMEOUT_MS := None
|}.

Definition agodaDefault : process := {|
  argv := ["node"; "server.js"; "--agoda"];
  env_LOGIN_PAGE_LOAD_TIMEOUT_MS := None;
  env_POST_LOGIN_WAIT_TIMEOUT_MS := None;
  env_OTP_WAIT_TIMEOUT_MS := None;
  env_STATUS_WAIT_TIMEOUT_MS := None
|}.

(** Everything is on the page at once and every call succeeds, but the
    status node never appears. *)
Definition statusNeverShown : scenario := {|
  sheet := [sampleRecord; sampleRecord];
  shows _ _ := true;
  cardReadBack := "4111111111111111";
  statusNode := None;
  failing _ := false
|}.

(** The masked card field keeps only the first four digits typed. *)
Definition truncatingField : scenario := {|
  sheet := [sampleRecord];
  shows _ _ := true;
  cardReadBack := "4111";
  statusNode := Some "Authorized";
  failing _ := false
|}.

(** Nothing ever shows on the page. *)
Definition blankPage : scenario := {|
  sheet := [];
  shows _ _ := false;
  cardReadBack := "";
  statusNode := None;
  failing _ := false
|}.

(** Two stages [A] and [B]: the selector of [B] matches from instant 3
    on, that of [A] from instant 7 on. *)
Definition stageA : stage := selectorsStage "A" ["#a"].
Definition stageB : stage := selectorsStage "B" ["#b"].

Definition bBeforeA : scenario := {|
  sheet := [];
  shows sel t :=
    (String.eqb sel "#b" && (3 <=? t)%N) || (String.eqb sel "#a" && (7 <=? t)%N);
  cardReadBack := "";
  statusNode := None;
  failing _ := false
|}.

(** The guard against Enter cannot be installed; the sheet holds a
    record already done, then two to do. *)
Definition guardFailsSheet : scenario := {|
  sheet := [doneRecord; sampleRecord; sampleRecord];
  shows _ _ := true;
  cardReadBack := "4111111111111111";
  statusNode := Some "Authorized";
  failing c := match c with evaluate preventEnterGuard => true | _ => false end
|}.

(** ** More vocabulary *)

(** Every character of the string is an ASCII digit. *)
Fixpoint onlyDigits (s : string) : bool :=
  match s with
  | EmptyString => true
  | String c s' => JS.isDigit c && onlyDigits s'
  end.

(** No character of the string is white space. *)
Fixpoint noSpace (s : string) : bool :=
  match s with
  | EmptyString => true
  | String c s' => negb (JS.isSpace c) && noSpace s'
  end.

(** The column [writeStatusToExcel] writes the status in: the first
    status column of the range, or the one right of the range. *)
Definition statusColumn (ws : worksheet) : nat :=
  default (e_c (ref ws) + 1)
    (Sheet.findStatusCol ws (s_r (ref ws)) (s_c (ref ws))
       (Datatypes.S (e_c (ref ws)) - s_c (ref ws))).

(** The last status written for row [i], if any. *)
Fixpoint lastWrite (writes : list (nat * string)) (i : nat) : option string :=
  match writes with
  | [] => None
  | (j, v) :: rest =>
      match lastWrite rest i with
      | Some v' => Some v'
      | None => if Nat.eqb j i then Some v else None
      end
  end.

(** The call acts on the element that [sel] selects. *)
Definition touches (sel : string) (c : call) : Prop :=
  match c with
  | click s _ | focus s | type s _ _ | select s _
  | evalValue s | evalChecked s | evalClear s | evalScrollIntoView s
  | evaluate (setCountry s _) | evaluate (forceChecked s) => s = sel
  | _ => False
  end.

(** The event is no call on the element that [sel] selects. *)
Definition leavesAlone (sel : string) (e : event) : Prop :=
  match e with Called c => ~ touches sel c | _ => True end.

(** Whatever the event types into [sel] is [txt]. *)
Definition typesOnly (sel txt : string) (e : event) : Prop :=
  forall t d, e = Called (type sel t d) -> t = txt.

(** ** The UI runner *)

Module Runner.

(** runner.js, lines 22-23: [(req.body.x || dflt).toLowerCase()]; [None]
    stands for a field the form did not send. *)
Definition field (v : option string) (dflt : string) : string :=
  JS.toLowerCase
    (match v with
     | Some s => if JS.truthy s then s else dflt
     | None => dflt
     end).

(** runner.js, lines 33-35 *)
Definition args (scriptPath : string) (brand review : option string)
  : list string :=
  [scriptPath]
  ++ [if String.eqb (field brand "booking") "agoda"
      then "--agoda" else "--booking"]
  ++ [if String.eqb (field review "review") "no-review"
      then "--no-review" else "--review"].

(** [process.argv] of the child that [spawn(process.execPath, args)]
    starts. *)
Definition childArgv (execPath scriptPath : string) (brand review : option string)
  : list string :=
  execPath :: args scriptPath brand review.

Definition LF : ascii := "010"%char.

(** [buf.indexOf('\n')]; [None] stands for -1. *)
Fixpoint indexOfLF (buf : string) : option nat :=
  match buf with
  | EmptyString => None
  | String c buf' =>
      if Ascii.eqb c LF then Some 0
      else match indexOfLF buf' with
           | Some i => Some (Datatypes.S i)
           | None => None
           end
  end.

(** The [while] loop of the log pipe, one turn per unit of fuel: the
    lines cut off the buffer, and what stays in it. *)
Fixpoint cutLines (fuel : nat) (buf : string) : list string * string :=
  match fuel with
  | 0 => ([], buf)
  | Datatypes.S fuel' =>
      match indexOfLF buf with
      | Some idx =>
          let line := JS.sliceTo idx buf in
          let '(lines, rest) := cutLines fuel' (JS.sliceFrom (idx + 1) buf) in
          (line :: lines, rest)
      | None => ([], buf)
      end
  end.

Section Pipe.

(** A chunk is a [Buffer] of bytes, and [chunk.toString()] is Node's
    decoding of it as UTF-8, each chunk on its own: what it makes of a
    character whose bytes two chunks share is Node's business. *)
Variable Buffer : Type.
Variable toString : Buffer -> string.

(** The ['data'] handler of the log pipe: the lines it broadcasts for
    one chunk and the buffer it keeps.  Every turn of its loop shortens
    the buffer, whose length is therefore fuel enough. *)
Definition onData (buf : string) (chunk : Buffer) : list string * string :=
  cutLines (String.length (buf +:+ toString chunk)) (buf +:+ toString chunk).

(** The handler over the chunks of a stream, from the buffer [buf]. *)
Fixpoint onChunks (buf : string) (chunks : list Buffer)
  : list string * string :=
  match chunks with
  | [] => ([], buf)
  | chunk :: chunks' =>
      let '(lines, buf') := onData buf chunk in
      let '(lines', buf'') := onChunks buf' chunks' in
      (lines ++ lines', buf'')
  end.

End Pipe.
Arguments onData {Buffer} toString buf chunk.
Arguments onChunks {Buffer} toString buf chunks.

(** [line.replace(/\n/g, '\\n')] *)
Fixpoint escapeLF (line : string) : string :=
  match line with
  | EmptyString => EmptyString
  | String c line' =>
      if Ascii.eqb c LF then String "\"%char (String "n"%char (escapeLF line'))
      else String c (escapeLF line')
  end.

(** The frame [broadcast] writes to every client. *)
Definition frame (line : string) : string :=
  "data: " +:+ escapeLF line +:+ String LF (String LF EmptyString).

End Runner.

(** ** A surface given by its answers *)

Record oracle := {
  o_present : N -> string -> bool;
  o_respond : forall c : call, N -> reply (retType c)
}.

#[export] Instance oracleSurface : Surface oracle := {|
  present o t sel := o_present o t sel;
  textContent _ _ _ := "";
  h2Texts _ _ := [];
  navigated _ _ := false;
  respond c o t := (o_respond o c t, o)
|}.

(** Every call returns at once; every check box reads checked. *)
Definition allChecked : oracle := {|
  o_present _ _ := true;
  o_respond c _ :=
    match c as c' return reply (retType c') with
    | evalValue _ => Done 0 ""
    | evalChecked _ => Done 0 true
    | evaluateStatusText => Done 0 None
    | readAllRowsFromExcel => Done 0 []
    | _ => Done 0 tt
    end
|}.

(** The event is no write to the sheet. *)
Definition noWrite (e : event) : Prop :=
  forall j v, e <> Called (writeStatusToExcel j v).

(** The fields of the form that are filled from the sheet, each with the
    value found for it. *)
Definition sheetFields (v : formValues) : list (string * string) :=
  [ (FORM_SELECTORS.merchantAccount, merchantAccount v);
    (FORM_SELECTORS.amount, amount v);
    (FORM_SELECTORS.orderId, orderId v);
    (FORM_SELECTORS.customerFirstName, customerFirstName v);
    (FORM_SELECTORS.cardNumber, cardNumber v);
    (FORM_SELECTORS.expirationDate, expirationDate v);
    (FORM_SELECTORS.cvv, cvv v) ].

(** The lines, each with the line feed that ended it. *)
Fixpoint joinLines (lines : list string) : string :=
  match lines with
  | [] => EmptyString
  | line :: lines' => line +:+ String Runner.LF (joinLines lines')
  end.

(** The texts of the chunks of a stream, put end to end. *)
Fixpoint concatChunks (chunks : list string) : string :=
  match chunks with
  | [] => EmptyString
  | chunk :: chunks' => chunk +:+ concatChunks chunks'
  end.

(** The header of column [c] of the sheet, trimmed and lower-cased,
    reads [status] (lines 144-146). *)
Definition readsStatus (ws : worksheet) (c : nat) : bool :=
  String.eqb
    (match cells ws !! (s_r (ref ws), c) with
     | Some v => JS.toLowerCase (JS.trim v)
     | None => ""
     end)
    "status".

(** ** Sheets and pages for the counterexamples *)

(** Columns [CVV] and [STATUS] and two records, the second of which is
    done. *)
Definition secondDoneSheet : worksheet := {|
  cells := <[(0, 0) := "CVV"]> (<[(0, 1) := "STATUS"]>
           (<[(1, 0) := "123"]>
           (<[(2, 0) := "456"]> (<[(2, 1) := "Authorized"]> ∅))));
  ref := {| s_r := 0; s_c := 0; e_r := 2; e_c := 1 |}
|}.

(** The same columns; the row under the header is blank, the record
    under it is done and the last one is not. *)
Definition blankRowSheet : worksheet := {|
  cells := <[(0, 0) := "CVV"]> (<[(0, 1) := "STATUS"]>
           (<[(2, 0) := "123"]> (<[(2, 1) := "Authorized"]>
           (<[(3, 0) := "456"]> ∅))));
  ref := {| s_r := 0; s_c := 0; e_r := 3; e_c := 1 |}
|}.

(** A status column whose header carries a space at its end, and one
    record, which is done. *)
Definition paddedStatusSheet : worksheet := {|
  cells := <[(0, 0) := "CVV"]> (<[(0, 1) := "STATUS "]>
           (<[(1, 0) := "123"]> (<[(1, 1) := "Authorized"]> ∅)));
  ref := {| s_r := 0; s_c := 0; e_r := 1; e_c := 1 |}
|}.

(** Everything is on the page at once, every call succeeds, and every
    transaction is declined. *)
Definition declining (rows : list row) : scenario := {|
  sheet := rows;
  shows _ _ := true;
  cardReadBack := "";
  statusNode := Some "Declined";
  failing _ := false
|}.

(** The status node never appears, and the links to the transactions
    list are gone a hundred seconds into the run. *)
Definition linkVanishes : scenario := {|
  sheet := [sampleRecord; sampleRecord];
  shows sel t :=
    if String.eqb sel (item SELECTORS.transactionsLink 0)
       || String.eqb sel (item SELECTORS.transactionsLink 1)
    then (t <? 100000)%N else true;
  cardReadBack := "4111111111111111";
  statusNode := None;
  failing _ := false
|}.

(** * Properties *)

(** ** Sequencing *)

Section SequencingFacts.
Context {S : Type} `{Surface S}.

Lemma run_eta {A} (r : run S A) : Run (trace r) (after r) (result r) = r.
Proof. destruct r; reflexivity. Qed.

Lemma bind_returned {A B} (m : M S A) (k : A -> M S B) w a :
  result (m w) = Returned a ->
  bind m k w =
  Run (trace (m w) ++ trace (k a (after (m w))))
      (after (k a (after (m w)))) (result (k a (after (m w)))).
Proof. intros E. unfold bind. rewrite E. reflexivity. Qed.

Lemma bind_thrown {A B} (m : M S A) (k : A -> M S B) w e :
  result (m w) = Thrown e ->
  bind m k w = Run (trace (m w)) (after (m w)) (Thrown e).
Proof. intros E. unfold bind. rewrite E. reflexivity. Qed.

Lemma bind_suspended {A B} (m : M S A) (k : A -> M S B) w :
  result (m w) = Suspended ->
  bind m k w = Run (trace (m w)) (after (m w)) Suspended.
Proof. intros E. unfold bind. rewrite E. reflexivity. Qed.

(** Code that leaves no trace and returns is transparent to [bind]. *)
Lemma bind_skip {A B} (m : M S A) (k : A -> M S B) w a :
  m w = Run [] w (Returned a) -> bind m k w = k a w.
Proof.
  intros E. rewrite (bind_returned m k w a) by (rewrite E; reflexivity).
  rewrite E. simpl. apply run_eta.
Qed.

Lemma bind_trace_prefix {A B} (m : M S A) (k : A -> M S B) w :
  exists rest, trace (bind m k w) = trace (m w) ++ rest.
Proof.
  unfold bind. destruct (result (m w)); simpl.
  - eexists; reflexivity.
  - exists []. now rewrite app_nil_r.
  - exists []. now rewrite app_nil_r.
Qed.

Lemma try_thrown {A} (m : M S A) (h : error -> M S A) w e :
  result (m w) = Thrown e ->
  try_ m h w =
  Run (trace (m w) ++ trace (h e (after (m w))))
      (after (h e (after (m w)))) (result (h e (after (m w)))).
Proof. intros E. unfold try_. rewrite E. reflexivity. Qed.

(** A handler that only returns a value adds nothing to the trace. *)
Lemma try_ret_trace {A} (m : M S A) (a : A) w :
  trace (try_ m (fun _ => ret a) w) = trace (m w).
Proof.
  unfold try_. destruct (result (m w)); cbn [trace ret]; [reflexivity | | reflexivity].
  apply app_nil_r.
Qed.

Lemma try_returned {A} (m : M S A) (h : error -> M S A) w a :
  result (m w) = Returned a -> try_ m h w = m w.
Proof. intros E. unfold try_. rewrite E. reflexivity. Qed.

(** *** What a piece of code can leave in the trace *)

Variable P : event -> Prop.

Lemma emits_ret {A} (a : A) : emits P (@ret S A a).
Proof. intros w. constructor. Qed.

Lemma emits_throw {A} e : emits P (@throw S A e).
Proof. intros w. constructor. Qed.

Lemma emits_bind {A B} (m : M S A) (k : A -> M S B) :
  emits P m -> (forall a, emits P (k a)) -> emits P (bind m k).
Proof.
  intros Hm Hk w. unfold bind. specialize (Hm w).
  destruct (result (m w)); simpl; auto.
  apply Forall_app. split; [assumption | apply Hk].
Qed.

Lemma emits_try {A} (m : M S A) (h : error -> M S A) :
  emits P m -> (forall e, emits P (h e)) -> emits P (try_ m h).
Proof.
  intros Hm Hh w. unfold try_. specialize (Hm w).
  destruct (result (m w)); simpl; auto.
  apply Forall_app. split; [assumption | apply Hh].
Qed.

Lemma emits_await {A} (q : @promise S A) : issues P q -> emits P (await q).
Proof.
  intros Hq w. unfold await. specialize (Hq w).
  destruct (q w) as [tr [t a | t e | ]]; simpl in *; assumption.
Qed.

Lemma emits_perform (c : call) : P (Called c) -> emits P (perform c).
Proof.
  intros Hc w. unfold perform.
  destruct (respond c (doc w) (clock w)) as [[d a | d e | ] s'];
    simpl; repeat constructor; assumption.
Qed.

Lemma emits_sleep ms : P (Slept ms) -> emits P (@sleep S ms).
Proof. intros Hs w. simpl. repeat constructor; assumption. Qed.

Lemma emits_Date_now : emits P (@Date_now S).
Proof. intros w. constructor. Qed.

Lemma emits_forever {A} : emits P (@forever S A).
Proof. intros w. constructor. Qed.

Lemma issues_waitFor c ms : P (Waiting c ms) -> issues P (waitFor c ms).
Proof. intros Hc w. simpl. repeat constructor; assumption. Qed.

Lemma issues_then {A B} (q : @promise S A) (g : A -> B) :
  issues P q -> issues P (then_ q g).
Proof. intros Hq w. unfold then_. specialize (Hq w). destruct (q w); assumption. Qed.

Lemma issues_catch {A} (q : @promise S A) (h : error -> A) :
  issues P q -> issues P (catch_ q h).
Proof. intros Hq w. unfold catch_. specialize (Hq w). destruct (q w); assumption. Qed.

Lemma issues_reject {A} e : issues P (@Promise_reject S A e).
Proof. intros w. constructor. Qed.

Lemma issues_concat {A} (qs : list (@promise S A)) (w : world S) :
  Forall (issues P) qs -> Forall P (concat (map (fun q => fst (q w)) qs)).
Proof.
  induction 1 as [| q qs Hq _ IH]; simpl; [constructor |].
  apply Forall_app. split; [apply Hq | exact IH].
Qed.

Lemma issues_race {A} (qs : list (@promise S A)) :
  Forall (issues P) qs -> issues P (Promise_race qs).
Proof. intros Hqs w. apply issues_concat, Hqs. Qed.

Lemma issues_all {A} (qs : list (@promise S A)) :
  Forall (issues P) qs -> issues P (Promise_all qs).
Proof. intros Hqs w. apply issues_concat, Hqs. Qed.

End SequencingFacts.

(** ** What each phase can leave in the trace *)

Ltac event_side :=
  solve [ assumption
        | unfold writesOnlyAt; intros ? ? E; inversion E; reflexivity
        | unfold fillEvent; repeat split; intros; discriminate ].

Ltac trace_step :=
  lazymatch goal with
  | |- emits _ (ret _) => apply emits_ret
  | |- emits _ (throw _) => apply emits_throw
  | |- emits _ Date_now => apply emits_Date_now
  | |- emits _ forever => apply emits_forever
  | |- emits _ (bind _ _) => apply emits_bind; [| intro]
  | |- emits _ (try_ _ _) => apply emits_try; [| intro]
  | |- emits _ (await _) => apply emits_await
  | |- emits _ (perform ?c) => apply (emits_perform _ c); event_side
  | |- emits _ (sleep _) => apply emits_sleep; event_side
  | |- issues _ (waitFor _ _) => apply issues_waitFor; event_side
  | |- issues _ (then_ _ _) => apply issues_then
  | |- issues _ (catch_ _ _) => apply issues_catch
  | |- issues _ (Promise_reject _) => apply issues_reject
  | |- issues _ (Promise_race _) => apply issues_race
  | |- issues _ (Promise_all _) => apply issues_all
  | |- Forall _ (_ :: _) => constructor
  | |- Forall _ [] => constructor
  | |- emits _ (if ?b then _ else _) => destruct b
  | |- emits _ (match ?b with _ => _ end) => destruct b
  end.

Section TraceFacts.
Context {S : Type} `{Surface S}.
Variable p : process.

Lemma emits_weaken {A} (P Q : event -> Prop) (m : M S A) :
  (forall e, P e -> Q e) -> emits P m -> emits Q m.
Proof. intros HPQ Hm w. eapply Forall_impl; [apply Hm | exact HPQ]. Qed.

Lemma fillEvent_writesOnlyAt idx e : fillEvent e -> writesOnlyAt idx e.
Proof. intros (_ & _ & Hw) j v E. destruct (Hw j v E). Qed.

Lemma emits_statusLoop (P : event -> Prop) fuel start timeoutMs lastSeen :
  P (Called evaluateStatusText) -> P (Slept 1000) ->
  emits P (statusLoop (S := S) fuel start timeoutMs lastSeen).
Proof.
  intros Hp Hs. revert lastSeen.
  induction fuel as [| fuel IH]; intros lastSeen; simpl.
  - apply emits_forever.
  - apply emits_bind; [repeat trace_step |].
    intros [[| c text] |]; repeat trace_step; apply IH.
Qed.

Lemma emits_waitForStatusText (P : event -> Prop) timeoutMs :
  P (Called evaluateStatusText) -> P (Slept 1000) ->
  emits P (waitForStatusText (S := S) timeoutMs).
Proof.
  intros Hp Hs. unfold waitForStatusText.
  apply emits_bind; [apply emits_Date_now |].
  intros start. now apply emits_statusLoop.
Qed.

Lemma emits_goToNewTransaction : emits fillEvent (goToNewTransaction (S := S)).
Proof.
  unfold goToNewTransaction, waitForAnySelector. repeat trace_step.
Qed.

Lemma emits_typeInto sel txt delay :
  emits fillEvent (typeInto (S := S) sel txt delay).
Proof. unfold typeInto. repeat trace_step. Qed.

Lemma emits_ensureCriticalInputs :
  emits fillEvent (ensureCriticalInputs (S := S)).
Proof. unfold ensureCriticalInputs. repeat trace_step. Qed.

Lemma emits_fillCardNumber r v : emits fillEvent (fillCardNumber (S := S) r v).
Proof.
  unfold fillCardNumber.
  repeat first [apply emits_typeInto | trace_step].
Qed.

Lemma emits_skipPremiumFraud : emits fillEvent (skipPremiumFraud (S := S)).
Proof. unfold skipPremiumFraud. cbv zeta. repeat trace_step. Qed.

Lemma emits_fillForm r : emits fillEvent (fillForm (S := S) p r).
Proof.
  unfold fillForm. cbv zeta.
  repeat first [ apply emits_typeInto | apply emits_fillCardNumber
               | apply emits_skipPremiumFraud | trace_step ].
Qed.

(** The form is reached and filled without any submission, status poll
    or write to the sheet. *)
Lemma emits_navigateAndFill r : emits fillEvent (navigateAndFill (S := S) p r).
Proof.
  unfold navigateAndFill.
  repeat first [ apply emits_goToNewTransaction
               | apply emits_ensureCriticalInputs
               | apply emits_fillForm | trace_step ].
Qed.

Lemma emits_submitOrPause idx :
  emits (writesOnlyAt idx) (submitOrPause (S := S) p).
Proof. unfold submitOrPause, waitForAnySelector. repeat trace_step. Qed.

Lemma emits_captureAndPersist idx :
  emits (writesOnlyAt idx) (captureAndPersist (S := S) p idx).
Proof.
  unfold captureAndPersist, persistStatus, captureStatus, backToTransactions,
    waitForAnySelector.
  repeat first [ apply emits_waitForStatusText; event_side | trace_step ].
Qed.

(** A record's processing writes to the sheet at its own row only. *)
Lemma emits_processRecord idx r :
  emits (writesOnlyAt idx) (processRecord (S := S) p idx r).
Proof.
  unfold processRecord.
  apply emits_bind.
  - eapply emits_weaken; [apply fillEvent_writesOnlyAt | apply emits_navigateAndFill].
  - intros _. apply emits_bind; [apply emits_submitOrPause |].
    intros _. apply emits_captureAndPersist.
Qed.

End TraceFacts.

(** ** Strings and records *)

Example trim_ex : JS.trim "  a b  " = "a b".
Proof. reflexivity. Qed.

Example normalizeKey_ex : normalizeKey "  Security   CODE " = "security code".
Proof. reflexivity. Qed.

Example cvv_ex : cvvDigitsEarly [("cvv ", " 1-2 3 ")] = "123".
Proof. vm_compute. reflexivity. Qed.

Example includes_ex :
  JS.includes "Two-Factor Authentication required" "Factor" = true
  /\ JS.includes "abc" "" = true
  /\ JS.includes "" "a" = false
  /\ JS.includes "abc" "abcd" = false.
Proof. repeat split. Qed.

Example headingMatches_ex :
  headingMatches "  NEW transaction " = true
  /\ headingMatches "Transaction Detail" = false.
Proof. split; reflexivity. Qed.

Example toLowerCase_ex : JS.toLowerCase "Card FIRST 4" = "card first 4".
Proof. reflexivity. Qed.

Example statusCell_ex :
  statusCell [("STATUS", " Authorized ")] = "Authorized"
  /\ statusCell [("STATUS ", "Authorized")] = ""
  /\ statusCell [("StAtUs", "Authorized")] = ""
  /\ valueByHeaders [("StAtUs ", "Authorized")] ["STATUS"] = "Authorized".
Proof. repeat split. Qed.

Example buildCardNumber_ex :
  buildCardNumber "41-11 9" "1111 1111 1111 77" = "4111111111111111".
Proof. reflexivity. Qed.

Lemma truthy_true (s : string) : JS.truthy s = true <-> s <> "".
Proof. destruct s; simpl; split; intros; congruence. Qed.

Lemma truthy_false (s : string) : JS.truthy s = false <-> s = "".
Proof. destruct s; simpl; split; intros; congruence. Qed.

Lemma arrayIncludes_In (arr : list string) (x : string) :
  JS.arrayIncludes arr x = true <-> In x arr.
Proof.
  unfold JS.arrayIncludes. rewrite existsb_exists. split.
  - intros (y & Hy & E). apply String.eqb_eq in E. now subst.
  - intros Hx. exists x. split; [assumption | apply String.eqb_refl].
Qed.

Lemma arrayIncludes_not_In (arr : list string) (x : string) :
  JS.arrayIncludes arr x = false <-> ~ In x arr.
Proof.
  rewrite <- arrayIncludes_In. destruct (JS.arrayIncludes arr x); split; congruence.
Qed.

Lemma hasOwnProperty_prop (r : row) (k : string) :
  hasOwnProperty r k = true <-> exists v, prop r k = Some v.
Proof.
  unfold hasOwnProperty. destruct (prop r k) as [v |]; split.
  - eauto.
  - reflexivity.
  - discriminate.
  - intros (v & E). discriminate.
Qed.

(** ** Run configuration *)

(** C10. Review mode is on exactly when the arguments contain
    [--review], or contain [--agoda] without [--no-review].  The brand
    is agoda exactly when [--agoda] is given; agoda then reviews unless
    [--no-review] is passed (and [--review] is not), and booking submits
    unless [--review] is passed. *)
Theorem review_mode_flags (p : process) :
  (REVIEW_MODE p = true <->
     In "--review" (argv p)
     \/ (In "--agoda" (argv p) /\ ~ In "--no-review" (argv p)))
  /\ (BRAND p = agoda <-> In "--agoda" (argv p))
  /\ (BRAND p = booking <-> ~ In "--agoda" (argv p))
  /\ (BRAND p = agoda ->
      (REVIEW_MODE p = false <->
         In "--no-review" (argv p) /\ ~ In "--review" (argv p)))
  /\ (BRAND p = booking -> (REVIEW_MODE p = true <-> In "--review" (argv p))).
Proof.
  unfold REVIEW_MODE, BRAND, hasFlag.
  pose proof (arrayIncludes_In (argv p) "--review") as Hr.
  pose proof (arrayIncludes_In (argv p) "--agoda") as Ha.
  pose proof (arrayIncludes_In (argv p) "--no-review") as Hn.
  destruct (JS.arrayIncludes (argv p) "--review");
    destruct (JS.arrayIncludes (argv p) "--agoda");
    destruct (JS.arrayIncludes (argv p) "--no-review");
    simpl; intuition congruence.
Qed.

(** ** The write-back *)

Lemma statusWrites_In (tr : list event) (j : nat) (v : string) :
  In (j, v) (statusWrites tr) -> In (Called (writeStatusToExcel j v)) tr.
Proof.
  induction tr as [| e tr IH]; [intros [] |].
  destruct e as [c ms | c | ms]; try (intros Hin; right; now apply IH).
  destruct c; try (intros Hin; right; now apply IH).
  intros [[= -> ->] | Hin]; [now left | right; now apply IH].
Qed.

Lemma headerRow_written (ws : worksheet) (idx : nat) (v : string) :
  s_r (ref (Sheet.writeStatusToExcel ws idx v)) = s_r (ref ws).
Proof.
  unfold Sheet.writeStatusToExcel. cbv zeta.
  destruct (Sheet.findStatusCol _ _ _ _); cbn [ref cells];
    match goal with |- context [if ?b then _ else _] => destruct b end;
    reflexivity.
Qed.

(** A write-back changes cells of the header row and of the row it
    addresses, and no other. *)
Lemma writeStatusToExcel_frame
    (ws : worksheet) (idx : nat) (v : string) (r c : nat) :
  r <> s_r (ref ws) ->
  r <> s_r (ref ws) + 1 + idx ->
  cells (Sheet.writeStatusToExcel ws idx v) !! (r, c) = cells ws !! (r, c).
Proof.
  intros Hh Ht. unfold Sheet.writeStatusToExcel. cbv zeta. cbn [cells].
  rewrite lookup_insert_ne by congruence.
  destruct (Sheet.findStatusCol _ _ _ _); cbn [cells]; [reflexivity |].
  now rewrite lookup_insert_ne by congruence.
Qed.

Lemma headerRow_applyWrites (writes : list (nat * string)) :
  forall ws, s_r (ref (Sheet.applyWrites ws writes)) = s_r (ref ws).
Proof.
  induction writes as [| [j v] writes IH]; intros ws; [reflexivity |].
  unfold Sheet.applyWrites in *. cbn [fold_left fst snd].
  now rewrite IH, headerRow_written.
Qed.

(** Writes that address other records leave the row of record [i] as it
    was. *)
Lemma applyWrites_frame (writes : list (nat * string)) (i c : nat) :
  forall ws,
    (forall v, ~ In (i, v) writes) ->
    cells (Sheet.applyWrites ws writes) !! (s_r (ref ws) + 1 + i, c)
    = cells ws !! (s_r (ref ws) + 1 + i, c).
Proof.
  induction writes as [| [j v] writes IH]; intros ws Hnot; [reflexivity |].
  unfold Sheet.applyWrites in *. cbn [fold_left fst snd].
  rewrite <- (headerRow_written ws j v).
  rewrite IH by (intros v' Hin; apply (Hnot v'); now right).
  rewrite headerRow_written.
  apply writeStatusToExcel_frame; [lia |].
  intros E. apply (Hnot v). left. f_equal. lia.
Qed.

Lemma findStatusCol_found (ws : worksheet) (headerRow n : nat) :
  forall c col,
    Sheet.findStatusCol ws headerRow c n = Some col ->
    exists h, cells ws !! (headerRow, col) = Some h
              /\ JS.toLowerCase (JS.trim h) = "status".
Proof.
  induction n as [| n IH]; intros c col; [discriminate |].
  cbn [Sheet.findStatusCol]. cbv zeta.
  destruct (cells ws !! (headerRow, c)) as [h |] eqn:Eh.
  - destruct (String.eqb_spec (JS.toLowerCase (JS.trim h)) "status") as [E | _].
    + intros [= <-]. eauto.
    + apply IH.
  - cbn. apply IH.
Qed.

(** On a sheet without status column the first write-back adds the
    column [STATUS]; the next one finds it. *)
Example writeStatusToExcel_ex :
  cells (Sheet.writeStatusToExcel cvvOnlySheet 0 "Authorized") !! (0, 1)
  = Some "STATUS"
  /\ cells (Sheet.writeStatusToExcel cvvOnlySheet 0 "Authorized") !! (1, 1)
     = Some "Authorized"
  /\ e_c (ref (Sheet.writeStatusToExcel cvvOnlySheet 0 "Authorized")) = 1
  /\ cells (Sheet.applyWrites cvvOnlySheet [(0, "Authorized"); (1, "Declined")])
     !! (2, 1) = Some "Declined"
  /\ ref (Sheet.applyWrites cvvOnlySheet [(0, "Authorized"); (1, "Declined")])
     = {| s_r := 0; s_c := 0; e_r := 2; e_c := 1 |}.
Proof. repeat split; vm_compute; reflexivity. Qed.

(** ** The skip policy *)

Lemma statusCell_first (r : row) :
  statusCell r =
  match firstStatusKey r with
  | Some k => JS.trim (default "" (prop r k))
  | None => ""
  end.
Proof.
  unfold statusCell, firstStatusKey, hasOwnProperty, JS.nullish. simpl.
  destruct (prop r "STATUS") eqn:E1; [now rewrite E1 |].
  destruct (prop r "Status") eqn:E2; [now rewrite E2 |].
  destruct (prop r "status") eqn:E3; [now rewrite E3 | reflexivity].
Qed.

Lemma firstStatusKey_has (r : row) (k : string) :
  firstStatusKey r = Some k -> exists v, prop r k = Some v.
Proof.
  unfold firstStatusKey. intros E. apply find_some in E as [_ E].
  now apply hasOwnProperty_prop.
Qed.

(** C9, as the code has it.  The skip test reads the first of the keys
    [STATUS], [Status], [status] that the record has, and triggers
    exactly when that one holds a value that is not empty once trimmed;
    a status column under any other spelling never triggers it, although
    [valueByHeaders] would find that column whatever its case and outer
    white space. *)
Theorem statusCell_exact_keys (r : row) :
  (statusCell r <> "" <->
     exists k v,
       firstStatusKey r = Some k /\ prop r k = Some v /\ JS.trim v <> "")
  /\ (forall k v,
        ~ In k ["STATUS"; "Status"; "status"] -> statusCell [(k, v)] = "")
  /\ (forall k h v,
        normalizeKey k = normalizeKey h -> JS.trim v <> "" ->
        valueByHeaders [(k, v)] [h] = JS.trim v).
Proof.
  split; [| split].
  - rewrite statusCell_first. split.
    + destruct (firstStatusKey r) as [k |] eqn:E; [| congruence].
      destruct (firstStatusKey_has r k E) as (v & Hv).
      rewrite Hv. simpl. intros Hne. now exists k, v.
    + intros (k & v & -> & -> & Hne). exact Hne.
  - intros k v Hk. unfold statusCell, JS.nullish. simpl.
    destruct (String.eqb_spec k "STATUS") as [-> | _]; [simpl in Hk; tauto |].
    destruct (String.eqb_spec k "Status") as [-> | _]; [simpl in Hk; tauto |].
    destruct (String.eqb_spec k "status") as [-> | _]; [simpl in Hk; tauto |].
    reflexivity.
  - intros k h v Hkh Hv. apply truthy_true in Hv.
    unfold valueByHeaders. simpl.
    destruct (String.eqb k h); [now rewrite Hv |].
    unfold normalizedRow. simpl. rewrite Hkh, lookup_insert_eq.
    now rewrite Hv.
Qed.

(** C9, as stated, fails: a record whose [STATUS] cell is empty and
    whose [Status] cell reads [done] holds a non-empty value under one
    of the three keys, and yet is not skipped. *)
Lemma status_keys_counterexample :
  exists r : row,
    (exists k v, In k ["STATUS"; "Status"; "status"]
                 /\ prop r k = Some v /\ JS.trim v <> "")
    /\ statusCell r = "".
Proof.
  exists [("STATUS", ""); ("Status", "done")]. split; [| reflexivity].
  exists "Status", "done". simpl. repeat split; [tauto | discriminate].
Qed.

Section SkipPolicy.
Context {S : Type} `{Surface S}.
Variable p : process.

Lemma iteration_status (idx : nat) (r : row) (w : world S) :
  statusCell r <> "" -> iteration p idx r w = Run [] w (Returned tt).
Proof.
  intros Hs. apply truthy_true in Hs. unfold iteration. now rewrite Hs.
Qed.

Lemma iteration_cvv (idx : nat) (r : row) (w : world S) :
  statusCell r = "" -> String.length (cvvDigitsEarly r) < 3 ->
  iteration p idx r w = Run [] w (Returned tt).
Proof.
  intros Hs Hc. apply truthy_false in Hs. apply Nat.ltb_lt in Hc.
  unfold iteration. now rewrite Hs, Hc.
Qed.

Lemma iteration_processed (idx : nat) (r : row) (w : world S) :
  statusCell r = "" -> 3 <= String.length (cvvDigitsEarly r) ->
  iteration p idx r w = processRecord p idx r w.
Proof.
  intros Hs Hc. apply truthy_false in Hs. apply Nat.ltb_ge in Hc.
  unfold iteration. now rewrite Hs, Hc.
Qed.

(** Whatever trace an iteration leaves is that of a processed record. *)
Lemma iteration_trace (idx : nat) (r : row) (w : world S) (e : event) :
  In e (trace (iteration p idx r w)) ->
  statusCell r = "" /\ 3 <= String.length (cvvDigitsEarly r)
  /\ In e (trace (processRecord p idx r w)).
Proof.
  unfold iteration.
  destruct (JS.truthy (statusCell r)) eqn:Hs; [intros [] |].
  destruct (String.length (cvvDigitsEarly r) <? 3) eqn:Hc; [intros [] |].
  apply truthy_false in Hs. apply Nat.ltb_ge in Hc. auto.
Qed.

Lemma forRows_skip (idx : nat) (r : row) (rest : list row) (w : world S) :
  iteration p idx r w = Run [] w (Returned tt) ->
  forRows p idx (r :: rest) w = forRows p (Datatypes.S idx) rest w.
Proof.
  intros E.
  exact (bind_skip (iteration p idx r)
           (fun _ => forRows p (Datatypes.S idx) rest) w tt E).
Qed.

(** Every status written during the loop is written at the row of a
    record that carried no status and enough CVV digits. *)
Lemma forRows_writes (rows : list row) :
  forall (idx0 : nat) (w : world S) (j : nat) (v : string),
    In (Called (writeStatusToExcel j v)) (trace (forRows p idx0 rows w)) ->
    exists r, idx0 <= j /\ rows !! (j - idx0) = Some r
              /\ statusCell r = ""
              /\ 3 <= String.length (cvvDigitsEarly r).
Proof.
  induction rows as [| r rows IH]; intros idx0 w j v Hin; [destruct Hin |].
  assert (Hhere : In (Called (writeStatusToExcel j v))
                     (trace (iteration p idx0 r w)) ->
                  exists r0, idx0 <= j
                             /\ (r :: rows) !! (j - idx0) = Some r0
                             /\ statusCell r0 = ""
                             /\ 3 <= String.length (cvvDigitsEarly r0)).
  { intros Hi. apply iteration_trace in Hi as (Hs & Hc & Hi).
    pose proof (emits_processRecord p idx0 r w) as Hall.
    rewrite List.Forall_forall in Hall. apply Hall in Hi.
    specialize (Hi j v eq_refl). subst j.
    exists r. rewrite Nat.sub_diag. auto. }
  simpl in Hin. unfold bind in Hin.
  destruct (result (iteration p idx0 r w)); simpl in Hin; auto.
  apply in_app_or in Hin as [Hi | Hr]; [auto |].
  apply IH in Hr as (r0 & Hle & Hl & Hs & Hc).
  exists r0. repeat split; try assumption; [lia |].
  replace (j - idx0) with (Datatypes.S (j - Datatypes.S idx0)) by lia.
  exact Hl.
Qed.

(** Where no row is left out, the rows that give a record are the rows
    of the range, in order. *)
Lemma filter_seq_prefix (f : nat -> bool) (len : nat) :
  forall start i,
    i < len ->
    (forall k, k <= i -> f (start + k) = true) ->
    List.filter f (seq start len) !! i = Some (start + i).
Proof.
  induction len as [| len IH]; intros start i Hlt Hall; [lia |].
  cbn [seq List.filter].
  pose proof (Hall 0 (Nat.le_0_l i)) as H0. rewrite Nat.add_0_r in H0.
  rewrite H0. destruct i as [| i].
  - cbn. f_equal. lia.
  - change ((start :: List.filter f (seq (Datatypes.S start) len))
            !! Datatypes.S i)
      with (List.filter f (seq (Datatypes.S start) len) !! i).
    rewrite IH; [f_equal; lia | lia |].
    intros k Hk. rewrite <- (Hall (Datatypes.S k)) by lia. f_equal. lia.
Qed.

Lemma lookup_map_Some {A B} (f : A -> B) (l : list A) :
  forall i x, l !! i = Some x -> map f l !! i = Some (f x).
Proof.
  induction l as [| a l IH]; intros [| i] x; cbn; try discriminate.
  - now intros [= ->].
  - apply IH.
Qed.

Lemma lookup_map_lt {A B} (f : A -> B) (l : list A) :
  forall i y, map f l !! i = Some y -> i < length l.
Proof.
  induction l as [| a l IH]; intros [| i] y; cbn; try discriminate.
  - intros _. lia.
  - intros E. apply IH in E. lia.
Qed.

(** The record read from a sheet row above which no row is blank has
    the index by which the write-back addresses that row. *)
Lemma dataRows_unshifted (ws : worksheet) (i : nat) (r : row) :
  Sheet.sheet_to_json ws !! i = Some r ->
  (forall R, s_r (ref ws) < R <= s_r (ref ws) + 1 + i ->
             Sheet.blankRow ws R = false) ->
  Sheet.dataRows ws !! i = Some (s_r (ref ws) + 1 + i)
  /\ r = Sheet.jsonRow ws (s_r (ref ws) + 1 + i).
Proof.
  intros Hi Hfull.
  assert (Hrow : Sheet.dataRows ws !! i = Some (s_r (ref ws) + 1 + i)).
  { unfold Sheet.dataRows. apply filter_seq_prefix.
    - unfold Sheet.sheet_to_json in Hi. apply lookup_map_lt in Hi.
      unfold Sheet.dataRows in Hi.
      pose proof (List.filter_length_le
                    (fun R => negb (Sheet.blankRow ws R))
                    (seq (s_r (ref ws) + 1) (e_r (ref ws) - s_r (ref ws))))
        as Hle.
      rewrite List.length_seq in Hle. lia.
    - intros k Hk. rewrite Hfull by lia. reflexivity. }
  split; [exact Hrow |].
  unfold Sheet.sheet_to_json in Hi.
  rewrite (lookup_map_Some _ _ _ _ Hrow) in Hi. congruence.
Qed.

(** C1, as the code has it.  A record whose status cell, as line 353
    reads it, is non-empty at the start of its iteration is skipped: its
    iteration issues no call and leaves the world as it was, so the loop
    goes on as if the record were not there, and no status is ever
    written at its index during the run.  When the records are those of
    a sheet in which no blank row lies above the record, the record is
    that of the sheet row which the write-back addresses by its index,
    and whichever of the run's writes went through, the cells of that
    row are what they were. *)
Theorem status_skip (rows : list row) (i : nat) (r : row) :
  rows !! i = Some r ->
  statusCell r <> "" ->
  (forall idx w, iteration p idx r w = Run [] w (Returned tt))
  /\ (forall idx rest w,
        forRows p idx (r :: rest) w = forRows p (Datatypes.S idx) rest w)
  /\ (forall w v,
        ~ In (Called (writeStatusToExcel i v)) (trace (forRows p 0 rows w)))
  /\ (forall ws,
        rows = Sheet.sheet_to_json ws ->
        (forall R, s_r (ref ws) < R <= s_r (ref ws) + 1 + i ->
                   Sheet.blankRow ws R = false) ->
        Sheet.dataRows ws !! i = Some (s_r (ref ws) + 1 + i)
        /\ r = Sheet.jsonRow ws (s_r (ref ws) + 1 + i)
        /\ forall w done c,
            incl done (statusWrites (trace (forRows p 0 rows w))) ->
            cells (Sheet.applyWrites ws done) !! (s_r (ref ws) + 1 + i, c)
            = cells ws !! (s_r (ref ws) + 1 + i, c)).
Proof.
  intros Hi Hs.
  assert (Hnone : forall w v,
             ~ In (Called (writeStatusToExcel i v))
                  (trace (forRows p 0 rows w))).
  { intros w v Hin.
    apply forRows_writes in Hin as (r0 & _ & Hl & Hs0 & _).
    rewrite Nat.sub_0_r, Hi in Hl. congruence. }
  split; [| split; [| split]].
  - intros idx w. now apply iteration_status.
  - intros idx rest w. now apply forRows_skip, iteration_status.
  - exact Hnone.
  - intros ws Hrows Hfull. subst rows.
    destruct (dataRows_unshifted ws i r Hi Hfull) as (Hrow & Hr).
    split; [exact Hrow | split; [exact Hr |]].
    intros w done c Hdone. apply applyWrites_frame.
    intros v Hin. apply Hdone, statusWrites_In in Hin.
    exact (Hnone w v Hin).
Qed.

(** C2. A record without status whose CVV holds fewer than three digits
    is skipped: its iteration issues no call (no navigation, no form
    fill, no submission) and the loop goes on with the next record. *)
Theorem short_cvv_skip (r : row) :
  statusCell r = "" ->
  String.length (cvvDigitsEarly r) < 3 ->
  (forall idx w, iteration p idx r w = Run [] w (Returned tt))
  /\ (forall idx rest w,
        forRows p idx (r :: rest) w = forRows p (Datatypes.S idx) rest w).
Proof.
  intros Hs Hc. split.
  - intros idx w. now apply iteration_cvv.
  - intros idx rest w. now apply forRows_skip, iteration_cvv.
Qed.

End SkipPolicy.

(** C1 at a sheet of two records, the second of which is done. *)
Lemma status_skip_witness :
  (forall idx w,
      iteration (S := scenario) bookingAuto idx
                [("CVV", "456"); ("STATUS", "Authorized")] w
      = Run [] w (Returned tt))
  /\ (forall idx rest w,
        forRows (S := scenario) bookingAuto idx
                ([("CVV", "456"); ("STATUS", "Authorized")] :: rest) w
        = forRows bookingAuto (Datatypes.S idx) rest w)
  /\ (forall w v,
        ~ In (Called (writeStatusToExcel 1 v))
             (trace (forRows (S := scenario) bookingAuto 0
                       (Sheet.sheet_to_json secondDoneSheet) w)))
  /\ Sheet.dataRows secondDoneSheet !! 1 = Some 2
  /\ [("CVV", "456"); ("STATUS", "Authorized")]
     = Sheet.jsonRow secondDoneSheet 2
  /\ (forall w done c,
        incl done (statusWrites
                     (trace (forRows (S := scenario) bookingAuto 0
                               (Sheet.sheet_to_json secondDoneSheet) w))) ->
        cells (Sheet.applyWrites secondDoneSheet done) !! (2, c)
        = cells secondDoneSheet !! (2, c)).
Proof.
  assert (Hs : statusCell [("CVV", "456"); ("STATUS", "Authorized")] <> "")
    by (vm_compute; discriminate).
  destruct (status_skip (S := scenario) bookingAuto
              (Sheet.sheet_to_json secondDoneSheet) 1
              [("CVV", "456"); ("STATUS", "Authorized")] eq_refl Hs)
    as (H1 & H2 & H3 & H4).
  destruct (H4 secondDoneSheet eq_refl) as (H5 & H6 & H7).
  { intros R HR. cbn in HR.
    assert (HR' : R = 1 \/ R = 2) by lia.
    destruct HR' as [-> | ->]; reflexivity. }
  repeat split; assumption.
Defined.

(** C1, as stated, fails twice over.  On a sheet with a blank row under
    the header, the done record of sheet row 2 is record 0 and is
    skipped, but the status of record 1 is written at sheet row 2, over
    the stored status of the done record.  On a sheet whose status
    column is headed [STATUS] with a space at its end, which is the
    column the write-back itself uses, the record carries a status and
    yet is processed, and its stored status is overwritten. *)
Lemma status_skip_counterexample :
  (Sheet.sheet_to_json blankRowSheet
   = [ [("CVV", "123"); ("STATUS", "Authorized")];
       [("CVV", "456"); ("STATUS", "")] ]
   /\ Sheet.dataRows blankRowSheet = [2; 3]
   /\ statusCell [("CVV", "123"); ("STATUS", "Authorized")] = "Authorized"
   /\ statusWrites
        (trace (main bookingAuto
                  (World (declining (Sheet.sheet_to_json blankRowSheet)) 0)))
      = [(1, "Declined")]
   /\ cells blankRowSheet !! (2, 1) = Some "Authorized"
   /\ cells (Sheet.applyWrites blankRowSheet [(1, "Declined")]) !! (2, 1)
      = Some "Declined")
  /\ (Sheet.sheet_to_json paddedStatusSheet
      = [ [("CVV", "123"); ("STATUS ", "Authorized")] ]
      /\ statusColumn paddedStatusSheet = 1
      /\ statusWrites
           (trace (main bookingAuto
                     (World (declining (Sheet.sheet_to_json paddedStatusSheet))
                            0)))
         = [(0, "Declined")]
      /\ cells paddedStatusSheet !! (1, 1) = Some "Authorized"
      /\ cells (Sheet.applyWrites paddedStatusSheet [(0, "Declined")]) !! (1, 1)
         = Some "Declined").
Proof. repeat split; vm_compute; reflexivity. Qed.

(** C2 at the sample record with CVV [12]. *)
Lemma short_cvv_skip_witness :
  (forall idx w,
      iteration (S := scenario) bookingAuto idx shortCvvRecord w
      = Run [] w (Returned tt))
  /\ (forall idx rest w,
        forRows (S := scenario) bookingAuto idx (shortCvvRecord :: rest) w
        = forRows bookingAuto (Datatypes.S idx) rest w).
Proof.
  apply (short_cvv_skip bookingAuto shortCvvRecord).
  - reflexivity.
  - vm_compute. lia.
Defined.

(** ** The stage race detector *)

Lemma firstTrue_Some (f : N -> bool) (fuel : nat) :
  forall t u,
    firstTrue f t fuel = Some u ->
    (t <= u <= t + N.of_nat fuel)%N /\ f u = true
    /\ forall v, (t <= v < u)%N -> f v = false.
Proof.
  induction fuel as [| fuel IH]; intros t u; simpl.
  - destruct (f t) eqn:Ft; [| discriminate].
    intros [= <-]. split; [lia | split; [assumption | intros v Hv; lia]].
  - destruct (f t) eqn:Ft.
    + intros [= <-]. split; [lia | split; [assumption | intros v Hv; lia]].
    + intros E. apply IH in E as (Hr & Fu & Hb).
      split; [lia | split; [assumption |]].
      intros v Hv. destruct (N.eq_dec v t) as [-> | Hne]; [assumption |].
      apply Hb. lia.
Qed.

Lemma firstTrue_None (f : N -> bool) (fuel : nat) :
  forall t,
    firstTrue f t fuel = None ->
    forall v, (t <= v <= t + N.of_nat fuel)%N -> f v = false.
Proof.
  induction fuel as [| fuel IH]; intros t; simpl.
  - destruct (f t) eqn:Ft; [discriminate |].
    intros _ v Hv. now replace v with t by lia.
  - destruct (f t) eqn:Ft; [discriminate |].
    intros E v Hv. destruct (N.eq_dec v t) as [-> | Hne]; [assumption |].
    apply (IH _ E). lia.
Qed.

Lemma firstTrue_found (f : N -> bool) (fuel : nat) (t u : N) :
  (t <= u <= t + N.of_nat fuel)%N ->
  f u = true ->
  (forall v, (t <= v < u)%N -> f v = false) ->
  firstTrue f t fuel = Some u.
Proof.
  intros Hr Fu Hb. destruct (firstTrue f t fuel) as [u' |] eqn:E.
  - apply firstTrue_Some in E as (Hr' & Fu' & Hb').
    f_equal. destruct (N.lt_trichotomy u' u) as [Hlt | [-> | Hgt]].
    + rewrite Hb in Fu' by lia. discriminate.
    + reflexivity.
    + rewrite Hb' in Fu by lia. discriminate.
  - rewrite (firstTrue_None f fuel t E u Hr) in Fu. discriminate.
Qed.

Lemma firstTrue_never (f : N -> bool) (fuel : nat) (t : N) :
  (forall v, (t <= v <= t + N.of_nat fuel)%N -> f v = false) ->
  firstTrue f t fuel = None.
Proof.
  intros Hb. destruct (firstTrue f t fuel) as [u |] eqn:E; [| reflexivity].
  apply firstTrue_Some in E as (Hr & Fu & _).
  rewrite Hb in Fu by lia. discriminate.
Qed.

(** The race is undecided, or decided by one of the runners. *)
Lemma fate_race_settled {A} (fs : list (fate A)) (u : N) :
  settledAt (fate_race fs) = Some u -> In (fate_race fs) fs.
Proof.
  induction fs as [| f fs IH]; simpl; [discriminate |].
  destruct (settledAt f) as [t |] eqn:Ef.
  - destruct (settledAt (fate_race fs)) as [u' |] eqn:Er.
    + destruct (t <=? u')%N; [auto |].
      intros E. right. apply IH. now rewrite <- Er.
    + auto.
  - intros E. right. now apply IH.
Qed.

(** A promise that resolves strictly before every other one settles
    wins the race, wherever it stands in the array. *)
Lemma fate_race_winner {A} (pre post : list (fate A)) (t : N) (a : A) :
  (forall f u, In f (pre ++ post) -> settledAt f = Some u -> (t < u)%N) ->
  fate_race (pre ++ Resolved t a :: post) = Resolved t a.
Proof.
  induction pre as [| f0 pre IH]; intros Hlate; simpl.
  - destruct (settledAt (fate_race post)) as [u |] eqn:Er; [| reflexivity].
    pose proof (fate_race_settled post u Er) as Hin.
    specialize (Hlate _ u Hin Er).
    now replace (t <=? u)%N with true by (symmetry; apply N.leb_le; lia).
  - rewrite IH by (intros f u Hin; apply Hlate; now right).
    simpl. destruct (settledAt f0) as [u0 |] eqn:E0; [| reflexivity].
    specialize (Hlate f0 u0 (or_introl eq_refl) E0).
    now replace (u0 <=? t)%N with false by (symmetry; apply N.leb_gt; lia).
Qed.

(** When every runner ends the same way, so does the race. *)
Lemma fate_race_unanimous {A} (fs : list (fate A)) (g : fate A) :
  fs <> [] -> (forall f, In f fs -> f = g) -> fate_race fs = g.
Proof.
  induction fs as [| f fs IH]; intros Hne Hall; [congruence |].
  simpl. rewrite (Hall f (or_introl eq_refl)).
  destruct fs as [| f' fs'].
  - simpl. now destruct g.
  - rewrite IH by (try discriminate; intros f0 Hf0; apply Hall; now right).
    destruct (settledAt g) as [t |]; [| reflexivity].
    now rewrite N.leb_refl.
Qed.

Section RaceFacts.
Context {S : Type} `{Surface S}.

Lemma raceStages_fate (stages : list stage) (timeoutMs : N) (w : world S) :
  snd (raceStages stages timeoutMs w)
  = fate_race (map (fun st => snd (stagePromise timeoutMs st w)) stages).
Proof.
  unfold raceStages, Promise_race. simpl. now rewrite map_map.
Qed.

(** The fate of the wait of one supported stage. *)
Lemma stagePromise_fate (timeoutMs : N) (st : stage) (w : world S) :
  supported st ->
  snd (stagePromise timeoutMs st w)
  = match firstTrue (fun t => stageHolds (doc w) t st) (clock w)
                    (N.to_nat timeoutMs) with
    | Some t => Resolved t (stageName st)
    | None => Rejected (clock w + timeoutMs) (TimeoutError timeoutMs)
    end.
Proof.
  destruct st as [name sels | name sel txt | name ty]; intros Hs;
    [| | destruct Hs]; simpl;
    match goal with |- context [firstTrue ?f ?t ?n] =>
      destruct (firstTrue f t n) end; reflexivity.
Qed.

Lemma await_fate {A} (q : @promise S A) (w : world S) :
  result (await q w)
  = match snd (q w) with
    | Resolved _ a => Returned a
    | Rejected _ e => Thrown e
    | Pending => Suspended
    end
  /\ (forall u, settledAt (snd (q w)) = Some u -> clock (after (await q w)) = u).
Proof.
  unfold await. destruct (q w) as [tr [t a | t e |]]; simpl;
    split; try reflexivity; intros u [=]; assumption.
Qed.

(** C3. Among stages of the two supported kinds, if some alternative of
    a stage is satisfied at an instant [t] before the deadline, not
    earlier, and no alternative of any other stage is satisfied up to
    [t], the detector resolves at [t] with that stage's name, whatever
    the other stages do afterwards. *)
Theorem raceStages_first_wins
    (before after_ : list stage) (winner : stage)
    (timeoutMs : N) (w : world S) (t : N) :
  Forall supported (before ++ after_) ->
  (clock w <= t < clock w + timeoutMs)%N ->
  stageHolds (doc w) t winner = true ->
  (forall u, (clock w <= u < t)%N -> stageHolds (doc w) u winner = false) ->
  (forall st u, In st (before ++ after_) -> (clock w <= u <= t)%N ->
                stageHolds (doc w) u st = false) ->
  snd (raceStages (before ++ winner :: after_) timeoutMs w)
  = Resolved t (stageName winner)
  /\ result (await (raceStages (before ++ winner :: after_) timeoutMs) w)
     = Returned (stageName winner)
  /\ clock (after (await (raceStages (before ++ winner :: after_) timeoutMs) w))
     = t.
Proof.
  intros Hsup Ht Hw Hfirst Hothers.
  assert (E : snd (raceStages (before ++ winner :: after_) timeoutMs w)
              = Resolved t (stageName winner)).
  { rewrite raceStages_fate, map_app. simpl.
    assert (Hwin : snd (stagePromise timeoutMs winner w)
                   = Resolved t (stageName winner)).
    { rewrite stagePromise_fate
        by (destruct winner; simpl in *; [exact I | exact I | discriminate]).
      rewrite (firstTrue_found _ _ _ t); [reflexivity | lia | assumption..]. }
    rewrite Hwin. apply fate_race_winner.
    intros f u Hin Hu. rewrite <- map_app in Hin.
    apply in_map_iff in Hin as (st & <- & Hst).
    rewrite List.Forall_forall in Hsup.
    rewrite stagePromise_fate in Hu by auto.
    destruct (firstTrue _ _ _) as [u' |] eqn:Ef; simpl in Hu;
      injection Hu as <-; [| lia].
    apply firstTrue_Some in Ef as (Hr & Fu & _).
    destruct (N.lt_ge_cases t u') as [Hlt | Hge]; [assumption |].
    rewrite (Hothers st u' Hst) in Fu by lia. discriminate. }
  split; [exact E |].
  destruct (await_fate (raceStages (before ++ winner :: after_) timeoutMs) w)
    as (Hres & Hclock).
  rewrite E in Hres. split; [exact Hres |].
  apply Hclock. now rewrite E.
Qed.

(** C7, as the code has it.  For a non-empty array of stages of the two
    supported kinds and a positive timeout, if no alternative of any
    stage is satisfied from the call until the deadline, the detector
    rejects at the deadline with Puppeteer's timeout error, which names
    the timeout. *)
Theorem raceStages_timeout
    (stages : list stage) (timeoutMs : N) (w : world S) :
  stages <> [] ->
  Forall supported stages ->
  (0 < timeoutMs)%N ->
  (forall st u, In st stages -> (clock w <= u <= clock w + timeoutMs)%N ->
                stageHolds (doc w) u st = false) ->
  snd (raceStages stages timeoutMs w)
  = Rejected (clock w + timeoutMs) (TimeoutError timeoutMs)
  /\ result (await (raceStages stages timeoutMs) w)
     = Thrown (TimeoutError timeoutMs).
Proof.
  intros Hne Hsup _ Hnever.
  assert (E : snd (raceStages stages timeoutMs w)
              = Rejected (clock w + timeoutMs) (TimeoutError timeoutMs)).
  { rewrite raceStages_fate. apply fate_race_unanimous.
    - destruct stages; [congruence | discriminate].
    - intros f Hin. apply in_map_iff in Hin as (st & <- & Hst).
      rewrite List.Forall_forall in Hsup.
      rewrite stagePromise_fate by auto.
      rewrite firstTrue_never; [reflexivity |].
      intros v Hv. apply (Hnever st v Hst). lia. }
  split; [exact E |].
  destruct (await_fate (raceStages stages timeoutMs) w) as (Hres & _).
  now rewrite E in Hres.
Qed.

End RaceFacts.

(** C3 at the stages [A] and [B], where [B] is satisfied first. *)
Lemma raceStages_first_wins_witness :
  snd (raceStages [stageA; stageB] 10 (World bBeforeA 0))
  = Resolved 3 "B"
  /\ result (await (raceStages [stageA; stageB] 10) (World bBeforeA 0))
     = Returned "B"
  /\ clock (after (await (raceStages [stageA; stageB] 10) (World bBeforeA 0)))
     = 3%N.
Proof.
  apply (raceStages_first_wins [stageA] [] stageB 10 (World bBeforeA 0) 3).
  - repeat constructor.
  - simpl. lia.
  - reflexivity.
  - simpl. intros u Hu.
    replace (3 <=? u)%N with false by (symmetry; apply N.leb_gt; lia).
    reflexivity.
  - simpl. intros st u [<- | []] Hu. simpl.
    replace (7 <=? u)%N with false by (symmetry; apply N.leb_gt; lia).
    reflexivity.
Defined.

(** C7 at the stages [A] and [B] on a page where nothing shows. *)
Lemma raceStages_timeout_witness :
  snd (raceStages [stageA; stageB] 5 (World blankPage 0))
  = Rejected 5 (TimeoutError 5)
  /\ result (await (raceStages [stageA; stageB] 5) (World blankPage 0))
     = Thrown (TimeoutError 5).
Proof.
  apply (raceStages_timeout [stageA; stageB] 5 (World blankPage 0)).
  - discriminate.
  - repeat constructor.
  - lia.
  - simpl. intros st u [<- | [<- | []]] _; reflexivity.
Defined.

(** C7, as stated, fails twice over.  With no stage at all the detector
    never settles, so it does not fail with a timeout; and two different
    arrays of stages that time out reject with one and the same error,
    which therefore does not carry the stages attempted. *)
Lemma raceStages_timeout_counterexample :
  (snd (raceStages [] 5 (World blankPage 0)) = Pending
   /\ result (await (raceStages [] 5) (World blankPage 0)) = Suspended)
  /\ ([stageA] <> [stageB]
      /\ snd (raceStages [stageA] 5 (World blankPage 0))
         = Rejected 5 (TimeoutError 5)
      /\ snd (raceStages [stageB] 5 (World blankPage 0))
         = Rejected 5 (TimeoutError 5)).
Proof.
  repeat split; try reflexivity. discriminate.
Qed.

(** ** The loop and the run *)


Section LoopFacts.
Context {S : Type} `{Surface S}.
Variable p : process.

Lemma bind_assoc {A B C} (m : M S A) (k : A -> M S B) (k' : B -> M S C) w :
  bind (bind m k) k' w = bind m (fun a => bind (k a) k') w.
Proof.
  unfold bind. destruct (result (m w)); simpl; [| reflexivity..].
  destruct (result (k value (after (m w)))); simpl;
    now rewrite ?app_assoc.
Qed.

Lemma bind_ret_l {A B} (a : A) (k : A -> M S B) w : bind (ret a) k w = k a w.
Proof. unfold bind, ret. simpl. apply run_eta. Qed.

Lemma bind_ext {A B} (m : M S A) (k k' : A -> M S B) w :
  (forall a w', k a w' = k' a w') -> bind m k w = bind m k' w.
Proof. intros E. unfold bind. destruct (result (m w)); now rewrite ?E. Qed.

Lemma forRows_app (rows1 rows2 : list row) :
  forall idx w,
    forRows p idx (rows1 ++ rows2) w
    = bind (forRows p idx rows1)
           (fun _ => forRows p (idx + length rows1) rows2) w.
Proof.
  induction rows1 as [| r rows1 IH]; intros idx w; simpl.
  - rewrite bind_ret_l. now rewrite Nat.add_0_r.
  - rewrite bind_assoc. apply bind_ext. intros _ w'.
    rewrite IH. now replace (Datatypes.S idx + length rows1)
                  with (idx + Datatypes.S (length rows1)) by lia.
Qed.

(** A record whose processing throws ends the loop there. *)
Lemma forRows_thrown (rows1 rows2 : list row) (r : row) (idx : nat)
    (w : world S) (e : error) :
  result (forRows p idx rows1 w) = Returned tt ->
  result (iteration p (idx + length rows1) r (after (forRows p idx rows1 w)))
  = Thrown e ->
  forRows p idx (rows1 ++ r :: rows2) w
  = Run (trace (forRows p idx rows1 w)
         ++ trace (iteration p (idx + length rows1) r
                     (after (forRows p idx rows1 w))))
        (after (iteration p (idx + length rows1) r
                  (after (forRows p idx rows1 w))))
        (Thrown e).
Proof.
  intros E1 E2. rewrite forRows_app.
  rewrite (bind_returned _ _ w tt E1). simpl.
  now rewrite (bind_thrown _ _ _ e E2).
Qed.

(** Closing the browser never throws. *)
Lemma close_quietly (w : world S) :
  trace (try_ (perform close) (fun _ => ret tt) w) = [Called close]
  /\ (result (try_ (perform close) (fun _ => ret tt) w) = Returned tt
      \/ result (try_ (perform close) (fun _ => ret tt) w) = Suspended)
  /\ (fst (respond close (doc w) (clock w)) <> Stuck ->
      result (try_ (perform close) (fun _ => ret tt) w) = Returned tt).
Proof.
  unfold try_, perform.
  destruct (respond close (doc w) (clock w)) as [[d [] | d e |] s']; simpl;
    repeat split; auto; congruence.
Qed.

(** The frame of [main] around any [try] block [m] that throws: the
    exit code is 1 and the browser is closed. *)
Lemma frame_aborted (m : M S unit) (w : world S) (e : error) :
  result (perform launch w) = Returned tt ->
  result (m (after (perform launch w))) = Thrown e ->
  forall r,
    r = try_ (bind (perform launch) (fun _ =>
                bind (try_ (bind m (fun _ => ret 0)) (fun _ => ret 1))
                     (fun exitCode =>
                        bind (try_ (perform close) (fun _ => ret tt))
                             (fun _ => ret exitCode))))
             (fun _ => ret 1) w ->
    trace r
    = trace (perform launch w)
      ++ trace (m (after (perform launch w))) ++ [Called close]
    /\ (result r = Returned 1 \/ result r = Suspended)
    /\ (fst (respond close (doc (after (m (after (perform launch w)))))
                     (clock (after (m (after (perform launch w))))))
        <> Stuck ->
        result r = Returned 1).
Proof.
  intros El Es r Hr.
  remember (after (perform launch w)) as w1 eqn:Ew1.
  remember (after (m w1)) as w2 eqn:Ew2.
  assert (Hcode : try_ (bind m (fun _ => ret 0)) (fun _ => ret 1) w1
                  = Run (trace (m w1)) w2 (Returned 1)).
  { rewrite (try_thrown _ _ w1 e) by (now rewrite (bind_thrown _ _ w1 e Es)).
    rewrite (bind_thrown _ _ w1 e Es). cbn [trace after result ret].
    now rewrite app_nil_r, Ew2. }
  destruct (close_quietly w2) as (Tc & Rc & Sc).
  remember (bind (try_ (perform close) (fun _ => ret tt))
                 (fun _ => ret 1) w2) as closing eqn:Ec.
  assert (Hclosing : trace closing = [Called close]
                     /\ (result closing = Returned 1
                         \/ result closing = Suspended)
                     /\ (fst (respond close (doc w2) (clock w2)) <> Stuck ->
                         result closing = Returned 1)).
  { rewrite Ec. unfold bind. destruct Rc as [Rc | Rc]; rewrite Rc, Tc;
      cbn [trace after result ret]; rewrite ?app_nil_r; repeat split; auto.
    intros Hns. specialize (Sc Hns). congruence. }
  destruct Hclosing as (Tx & Rx & Sx).
  assert (Hm : r = Run (trace (perform launch w)
                        ++ trace (m w1) ++ [Called close])
                       (after closing) (result closing)).
  { rewrite Hr. unfold try_ at 1. cbv zeta.
    rewrite (bind_returned (perform launch) _ w tt El). rewrite <- Ew1.
    rewrite (bind_returned _ _ w1 1) by (now rewrite Hcode).
    rewrite Hcode. cbn [trace after result]. rewrite <- Ec, Tx.
    destruct Rx as [Rx | Rx]; now rewrite Rx. }
  rewrite Hm. cbn [trace result]. auto.
Qed.

(** How [main] ends once its [try] block has thrown. *)
Lemma main_aborted (w : world S) (e : error) :
  result (perform launch w) = Returned tt ->
  result (session p (after (perform launch w))) = Thrown e ->
  trace (main p w)
  = trace (perform launch w)
    ++ trace (session p (after (perform launch w))) ++ [Called close]
  /\ (result (main p w) = Returned 1 \/ result (main p w) = Suspended)
  /\ (fst (respond close (doc (after (session p (after (perform launch w)))))
                   (clock (after (session p (after (perform launch w))))))
      <> Stuck ->
      result (main p w) = Returned 1).
Proof.
  intros El Es.
  exact (frame_aborted (session p) w e El Es (main p w) eq_refl).
Qed.

(** C5. When the processing of a record throws, the loop ends with that
    error whatever records follow, so none of them is begun; [main] then
    only closes the browser, and the process exits with code 1 (as soon
    as [browser.close()] settles, which is all that can keep it from
    exiting). *)
Theorem unhandled_error_aborts
    (w0 : world S) (rows1 rows2 : list row) (r : row) (e : error) :
  result (opening p w0) = Returned (rows1 ++ r :: rows2) ->
  result (forRows p 0 rows1 (after (opening p w0))) = Returned tt ->
  result (iteration p (length rows1) r
            (after (forRows p 0 rows1 (after (opening p w0))))) = Thrown e ->
  forRows p 0 (rows1 ++ r :: rows2) (after (opening p w0))
  = Run (trace (forRows p 0 rows1 (after (opening p w0)))
         ++ trace (iteration p (length rows1) r
                     (after (forRows p 0 rows1 (after (opening p w0))))))
        (after (iteration p (length rows1) r
                  (after (forRows p 0 rows1 (after (opening p w0))))))
        (Thrown e)
  /\ trace (main p w0)
     = trace (opening p w0)
       ++ trace (forRows p 0 rows1 (after (opening p w0)))
       ++ trace (iteration p (length rows1) r
                   (after (forRows p 0 rows1 (after (opening p w0)))))
       ++ [Called close]
  /\ (result (main p w0) = Returned 1 \/ result (main p w0) = Suspended)
  /\ (forall code, result (main p w0) = Returned code -> code = 1)
  /\ (fst (respond close
             (doc (after (iteration p (length rows1) r
                            (after (forRows p 0 rows1 (after (opening p w0)))))))
             (clock (after (iteration p (length rows1) r
                              (after (forRows p 0 rows1
                                        (after (opening p w0))))))))
      <> Stuck ->
      result (main p w0) = Returned 1).
Proof.
  intros Eo E1 E2.
  pose proof (forRows_thrown rows1 rows2 r 0 _ e E1 E2) as Hloop.
  change (0 + length rows1) with (length rows1) in Hloop.
  split; [exact Hloop |].
  assert (El : result (perform launch w0) = Returned tt).
  { unfold opening in Eo.
    destruct (result (perform launch w0)) as [[] | e' |] eqn:E;
      [reflexivity | |].
    - rewrite (bind_thrown _ _ _ _ E) in Eo. discriminate.
    - rewrite (bind_suspended _ _ _ E) in Eo. discriminate. }
  assert (Ho : opening p w0
               = Run (trace (perform launch w0)
                      ++ trace (prologue p (after (perform launch w0))))
                     (after (prologue p (after (perform launch w0))))
                     (result (prologue p (after (perform launch w0))))).
  { unfold opening. now rewrite (bind_returned _ _ w0 tt El). }
  rewrite Ho in *. cbn [trace after result] in *.
  set (w1 := after (perform launch w0)) in *.
  assert (Es : session p w1
               = Run (trace (prologue p w1)
                      ++ trace (forRows p 0 (rows1 ++ r :: rows2)
                                  (after (prologue p w1))))
                     (after (forRows p 0 (rows1 ++ r :: rows2)
                               (after (prologue p w1))))
                     (Thrown e)).
  { unfold session. rewrite (bind_returned _ _ w1 _ Eo).
    now rewrite Hloop. }
  destruct (main_aborted w0 e El) as (Ht & Hr & Hclose).
  { fold w1. now rewrite Es. }
  fold w1 in Ht, Hclose. rewrite Es in Ht, Hclose. cbn [trace after] in Ht, Hclose.
  rewrite Hloop in Ht, Hclose. cbn [trace after] in Ht, Hclose.
  split; [| split; [| split]].
  - rewrite Ht. now rewrite <- !app_assoc.
  - exact Hr.
  - intros code Hc. destruct Hr as [Hr | Hr]; congruence.
  - exact Hclose.
Qed.

(** C8. In review mode a record that is not skipped and whose form has
    been reached and filled suspends the run for good: its iteration
    ends [Suspended] with the trace of the fill alone, in which there is
    no submission, no status poll and no write to the sheet, and the
    loop is the same whatever records follow. *)
Theorem review_mode_pauses (idx : nat) (r : row) (w : world S) :
  REVIEW_MODE p = true ->
  statusCell r = "" ->
  3 <= String.length (cvvDigitsEarly r) ->
  result (navigateAndFill p r w) = Returned tt ->
  iteration p idx r w
  = Run (trace (navigateAndFill p r w)) (after (navigateAndFill p r w))
        Suspended
  /\ Forall fillEvent (trace (iteration p idx r w))
  /\ (forall rest, forRows p idx (r :: rest) w = iteration p idx r w).
Proof.
  intros Hrev Hs Hc Hfill.
  assert (E : iteration p idx r w
              = Run (trace (navigateAndFill p r w))
                    (after (navigateAndFill p r w)) Suspended).
  { rewrite iteration_processed by assumption.
    unfold processRecord. rewrite (bind_returned _ _ w tt Hfill).
    unfold submitOrPause. rewrite Hrev.
    unfold bind, forever, await. simpl. now rewrite app_nil_r. }
  split; [exact E | split].
  - rewrite E. simpl. apply emits_navigateAndFill.
  - intros rest. simpl. rewrite bind_suspended by (now rewrite E).
    now rewrite E.
Qed.

(** Whatever the page does, a status is only ever written at the row of
    a record that carried no status and at least three CVV digits when
    the sheet was read. *)
Theorem writes_only_for_eligible_records
    (rows : list row) (w : world S) (j : nat) (v : string) :
  In (Called (writeStatusToExcel j v)) (trace (forRows p 0 rows w)) ->
  exists r, rows !! j = Some r
            /\ statusCell r = ""
            /\ 3 <= String.length (cvvDigitsEarly r).
Proof.
  intros Hin. apply forRows_writes in Hin as (r & _ & Hl & Hs & Hc).
  rewrite Nat.sub_0_r in Hl. eauto.
Qed.

(** The frame of [main] around any [try] block [m]: an exit with code 0
    means that the browser was launched and that [m] returned. *)
Lemma frame_exit_zero (m : M S unit) (w : world S) :
  forall r,
    r = try_ (bind (perform launch) (fun _ =>
                bind (try_ (bind m (fun _ => ret 0)) (fun _ => ret 1))
                     (fun exitCode =>
                        bind (try_ (perform close) (fun _ => ret tt))
                             (fun _ => ret exitCode))))
             (fun _ => ret 1) w ->
    result r = Returned 0 ->
    result (perform launch w) = Returned tt
    /\ result (m (after (perform launch w))) = Returned tt.
Proof.
  intros r Hr Hzero.
  destruct (result (perform launch w)) as [[] | e |] eqn:El.
  - split; [reflexivity |].
    destruct (result (m (after (perform launch w)))) as [[] | e |] eqn:Em;
      [reflexivity | |].
    + destruct (frame_aborted m w e El Em r Hr) as (_ & [Hx | Hx] & _);
        congruence.
    + exfalso. rewrite Hr in Hzero. unfold try_ at 1 in Hzero.
      cbv zeta in Hzero.
      rewrite (bind_returned (perform launch) _ w tt El) in Hzero.
      cbn [result] in Hzero.
      rewrite bind_suspended in Hzero; [discriminate |].
      unfold try_. now rewrite bind_suspended.
  - exfalso. rewrite Hr in Hzero.
    rewrite (try_thrown _ _ w e) in Hzero
      by (now rewrite (bind_thrown _ _ w e El)).
    discriminate.
  - exfalso. rewrite Hr in Hzero. unfold try_ in Hzero.
    rewrite (bind_suspended _ _ w El) in Hzero. discriminate.
Qed.

(** [main] hands code 0 to [process.exit] (line 585) only when the
    browser was launched and the [try] block ran to its end, every
    record of the sheet included.  A run that is left suspended, as by
    the review pause, never comes to that call; with what status Node
    then ends the process is no matter of this statement. *)
Theorem process_exit_zero_means_completed (w : world S) :
  result (main p w) = Returned 0 ->
  result (perform launch w) = Returned tt
  /\ result (session p (after (perform launch w))) = Returned tt.
Proof.
  intros Hzero.
  exact (frame_exit_zero (session p) w (main p w) eq_refl Hzero).
Qed.

End LoopFacts.

(** C5 at a sheet of three records: the first is done, the second
    fails when the guard is installed, the third is never begun. *)
Lemma unhandled_error_aborts_witness :
  result (opening bookingAuto (World guardFailsSheet 0))
  = Returned ([doneRecord] ++ sampleRecord :: [sampleRecord])
  /\ result (iteration bookingAuto 1 sampleRecord
               (after (forRows bookingAuto 0 [doneRecord]
                         (after (opening bookingAuto (World guardFailsSheet 0))))))
     = Thrown (Failure "scripted failure")
  /\ result (forRows bookingAuto 0 [doneRecord; sampleRecord; sampleRecord]
               (after (opening bookingAuto (World guardFailsSheet 0))))
     = Thrown (Failure "scripted failure")
  /\ result (main bookingAuto (World guardFailsSheet 0)) = Returned 1.
Proof.
  assert (H1 : result (opening bookingAuto (World guardFailsSheet 0))
               = Returned ([doneRecord] ++ sampleRecord :: [sampleRecord]))
    by (vm_compute; reflexivity).
  assert (H2 : result (forRows bookingAuto 0 [doneRecord]
                         (after (opening bookingAuto (World guardFailsSheet 0))))
               = Returned tt)
    by (vm_compute; reflexivity).
  assert (H3 : result (iteration bookingAuto (length [doneRecord]) sampleRecord
                         (after (forRows bookingAuto 0 [doneRecord]
                                   (after (opening bookingAuto
                                             (World guardFailsSheet 0))))))
               = Thrown (Failure "scripted failure"))
    by (vm_compute; reflexivity).
  destruct (unhandled_error_aborts bookingAuto (World guardFailsSheet 0)
              [doneRecord] [sampleRecord] sampleRecord
              (Failure "scripted failure") H1 H2 H3)
    as (Hloop & _ & _ & _ & Hexit).
  split; [exact H1 | split; [exact H3 | split]].
  - change [doneRecord; sampleRecord; sampleRecord]
      with ([doneRecord] ++ sampleRecord :: [sampleRecord]).
    now rewrite Hloop.
  - apply Hexit. vm_compute. discriminate.
Defined.

(** C8 at the sample record under agoda's default review mode. *)
Lemma review_mode_pauses_witness :
  REVIEW_MODE agodaDefault = true
  /\ result (navigateAndFill agodaDefault sampleRecord
               (World statusNeverShown 0)) = Returned tt
  /\ result (iteration agodaDefault 0 sampleRecord (World statusNeverShown 0))
     = Suspended
  /\ Forall fillEvent
       (trace (iteration agodaDefault 0 sampleRecord (World statusNeverShown 0)))
  /\ (forall rest,
        forRows agodaDefault 0 (sampleRecord :: rest) (World statusNeverShown 0)
        = iteration agodaDefault 0 sampleRecord (World statusNeverShown 0)).
Proof.
  assert (H1 : REVIEW_MODE agodaDefault = true) by reflexivity.
  assert (H2 : statusCell sampleRecord = "") by reflexivity.
  assert (H3 : 3 <= String.length (cvvDigitsEarly sampleRecord))
    by (vm_compute; lia).
  assert (H4 : result (navigateAndFill agodaDefault sampleRecord
                         (World statusNeverShown 0)) = Returned tt)
    by (vm_compute; reflexivity).
  destruct (review_mode_pauses agodaDefault 0 sampleRecord
              (World statusNeverShown 0) H1 H2 H3 H4)
    as (Hit & Hev & Hrest).
  split; [exact H1 | split; [exact H4 | split; [| split; assumption]]].
  now rewrite Hit.
Defined.

(** ** The card number and its read-back *)

Lemma append_cons (c : ascii) (a b : string) :
  String c a +:+ b = String c (a +:+ b).
Proof. reflexivity. Qed.

Lemma append_empty_r (s : string) : s +:+ "" = s.
Proof.
  induction s as [| c s IH]; [reflexivity | now rewrite append_cons, IH].
Qed.

Lemma length_append (a b : string) :
  String.length (a +:+ b) = String.length a + String.length b.
Proof.
  induction a as [| c a IH]; [reflexivity |].
  rewrite append_cons. simpl. now rewrite IH.
Qed.

Lemma sliceFrom_append (a b : string) :
  JS.sliceFrom (String.length a) (a +:+ b) = b.
Proof.
  induction a as [| c a IH]; [now destruct b |].
  rewrite append_cons. exact IH.
Qed.

Section CardNumberFacts.
Context {S : Type} `{Surface S}.
Variable p : process.

Lemma perform_trace (c : call) (w : world S) : trace (perform c w) = [Called c].
Proof.
  unfold perform. now destruct (respond c (doc w) (clock w)) as [[| |] ?].
Qed.

(** The value typed first is the whole expected digit string. *)
Lemma cardNumber_expected (r : row) :
  cardNumber (formValuesOf p r) = first4Digits r +:+ last12Digits r.
Proof.
  unfold formValuesOf. cbn [cardNumber].
  destruct (first4Digits r) as [| c f]; cbn [JS.truthy andb].
  - now destruct (last12Digits r).
  - destruct (last12Digits r); cbn [JS.truthy];
      [now rewrite append_empty_r | reflexivity].
Qed.

(** C6. When the card number has been typed and the field, read back
    and stripped to digits, holds a proper prefix of the expected digit
    string, the sequencer types exactly the rest of that string: what
    the field held and what is typed now make up the expected digits. *)
Theorem card_number_read_back
    (r : row) (w : world S) (typed : string) (d : N) (s' : S) :
  result (typeInto FORM_SELECTORS.cardNumber
            (first4Digits r +:+ last12Digits r) 10 w) = Returned tt ->
  respond (evalValue FORM_SELECTORS.cardNumber)
          (doc (after (typeInto FORM_SELECTORS.cardNumber
                         (first4Digits r +:+ last12Digits r) 10 w)))
          (clock (after (typeInto FORM_SELECTORS.cardNumber
                           (first4Digits r +:+ last12Digits r) 10 w)))
  = (Done d typed, s') ->
  properPrefix (JS.stripNonDigits typed) (first4Digits r +:+ last12Digits r) ->
  exists remaining,
    trace (fillCardNumber r (formValuesOf p r) w)
    = trace (typeInto FORM_SELECTORS.cardNumber
               (first4Digits r +:+ last12Digits r) 10 w)
      ++ [ Called (evalValue FORM_SELECTORS.cardNumber);
           Called (type FORM_SELECTORS.cardNumber remaining 10) ]
    /\ JS.stripNonDigits typed +:+ remaining
       = first4Digits r +:+ last12Digits r
    /\ remaining
       = JS.sliceFrom (String.length (JS.stripNonDigits typed))
                      (first4Digits r +:+ last12Digits r).
Proof.
  intros Htyping Hread (rest & Hrest & Hexp).
  exists rest.
  assert (Hslice : rest
                   = JS.sliceFrom (String.length (JS.stripNonDigits typed))
                       (first4Digits r +:+ last12Digits r))
    by (now rewrite Hexp, sliceFrom_append).
  assert (Htruthy : JS.truthy (first4Digits r +:+ last12Digits r) = true).
  { apply truthy_true. rewrite Hexp. intros E.
    apply (f_equal String.length) in E. rewrite length_append in E.
    destruct rest; [congruence | simpl in E; lia]. }
  assert (Hshort : (String.length (JS.stripNonDigits typed)
                    <? String.length (first4Digits r +:+ last12Digits r)) = true).
  { apply Nat.ltb_lt. rewrite Hexp, length_append.
    destruct rest; [congruence | simpl; lia]. }
  unfold fillCardNumber. rewrite cardNumber_expected, Htruthy.
  rewrite (bind_returned _ _ w tt Htyping).
  set (w1 := after (typeInto FORM_SELECTORS.cardNumber
                      (first4Digits r +:+ last12Digits r) 10 w)) in *.
  cbn [trace after result]. rewrite try_ret_trace.
  assert (Hperf : perform (evalValue FORM_SELECTORS.cardNumber) w1
                  = Run [Called (evalValue FORM_SELECTORS.cardNumber)]
                        (World s' (clock w1 + d)) (Returned typed))
    by (unfold perform; now rewrite Hread).
  rewrite (bind_returned _ _ w1 typed) by (now rewrite Hperf).
  rewrite Hperf. cbn [trace after result andb].
  rewrite Hshort, <- Hslice.
  pose proof (perform_trace (type FORM_SELECTORS.cardNumber rest 10)
                (World s' (clock w1 + d))) as Ht.
  change (retType (type FORM_SELECTORS.cardNumber rest 10)) with unit in Ht.
  rewrite Ht.
  split; [reflexivity | split; [now rewrite Hexp | reflexivity]].
Qed.

End CardNumberFacts.

(** C6 at a field that kept the first 4 of the 16 digits typed. *)
Lemma card_number_read_back_witness :
  properPrefix (JS.stripNonDigits "4111")
    (first4Digits sampleRecord +:+ last12Digits sampleRecord)
  /\ exists remaining,
      trace (fillCardNumber sampleRecord (formValuesOf bookingAuto sampleRecord)
               (World truncatingField 0))
      = trace (typeInto FORM_SELECTORS.cardNumber
                 (first4Digits sampleRecord +:+ last12Digits sampleRecord) 10
                 (World truncatingField 0))
        ++ [ Called (evalValue FORM_SELECTORS.cardNumber);
             Called (type FORM_SELECTORS.cardNumber remaining 10) ]
      /\ JS.stripNonDigits "4111" +:+ remaining
         = first4Digits sampleRecord +:+ last12Digits sampleRecord
      /\ remaining
         = JS.sliceFrom (String.length (JS.stripNonDigits "4111"))
             (first4Digits sampleRecord +:+ last12Digits sampleRecord).
Proof.
  assert (Hp : properPrefix (JS.stripNonDigits "4111")
                 (first4Digits sampleRecord +:+ last12Digits sampleRecord)).
  { exists "111111111111". split; [discriminate | reflexivity]. }
  split; [exact Hp |].
  apply (card_number_read_back bookingAuto sampleRecord
           (World truncatingField 0) "4111" 0 truncatingField).
  - reflexivity.
  - reflexivity.
  - exact Hp.
Defined.

(** ** The result poller *)

Section PollerFacts.
Context {S : Type} `{Surface S}.
Variable p : process.

(** One turn of the loop. *)
Lemma statusLoop_step (fuel : nat) (start timeoutMs : N) (lastSeen : string)
    (w : world S) :
  statusLoop (Datatypes.S fuel) start timeoutMs lastSeen w
  = match respond evaluateStatusText (doc w) (clock w) with
    | (Stuck, s') =>
        Run [Called evaluateStatusText] (World s' (clock w)) Suspended
    | (Done d el, s') =>
        match polled el with
        | String c text =>
            Run [Called evaluateStatusText] (World s' (clock w + d))
                (Returned (String c text))
        | EmptyString =>
            if (timeoutMs <? clock w + d - start)%N
            then Run [Called evaluateStatusText] (World s' (clock w + d))
                     (Thrown (StatusTimedOut timeoutMs ""))
            else
              let r := statusLoop fuel start timeoutMs ""
                         (World s' (clock w + d + 1000)) in
              Run (Called evaluateStatusText :: Slept 1000 :: trace r)
                  (after r) (result r)
        end
    | (Failed d _, s') =>
        if (timeoutMs <? clock w + d - start)%N
        then Run [Called evaluateStatusText] (World s' (clock w + d))
                 (Thrown (StatusTimedOut timeoutMs lastSeen))
        else
          let r := statusLoop fuel start timeoutMs lastSeen
                     (World s' (clock w + d + 1000)) in
          Run (Called evaluateStatusText :: Slept 1000 :: trace r)
              (after r) (result r)
    end.
Proof.
  cbn [statusLoop]. unfold bind, try_, perform, ret, Date_now, throw, sleep.
  destruct (respond evaluateStatusText (doc w) (clock w))
    as [[d el | d e |] s']; cbn [trace after result doc clock app];
    [| | reflexivity].
  - unfold polled. destruct el as [content |];
      [destruct (JS.trim content) as [| c text] |];
      cbn [trace after result doc clock app]; try reflexivity;
      destruct (timeoutMs <? clock w + d - start)%N; reflexivity.
  - destruct (timeoutMs <? clock w + d - start)%N; reflexivity.
Qed.

(** The poller throws nothing but its own timeout. *)
Lemma statusLoop_thrown (fuel : nat) (start timeoutMs : N) :
  forall (w : world S) (e : error),
    result (statusLoop fuel start timeoutMs "" w) = Thrown e ->
    e = StatusTimedOut timeoutMs "".
Proof.
  induction fuel as [| fuel IH]; intros w e; [discriminate |].
  rewrite statusLoop_step.
  destruct (respond evaluateStatusText (doc w) (clock w))
    as [[d el | d e' |] s']; [| | discriminate].
  - destruct (polled el); [| discriminate].
    destruct (timeoutMs <? clock w + d - start)%N; cbn [result].
    + now intros [= <-].
    + apply IH.
  - destruct (timeoutMs <? clock w + d - start)%N; cbn [result].
    + now intros [= <-].
    + apply IH.
Qed.

Lemma waitForStatusText_thrown (timeoutMs : N) (w : world S) (e : error) :
  result (waitForStatusText timeoutMs w) = Thrown e ->
  e = StatusTimedOut timeoutMs "".
Proof.
  unfold waitForStatusText. rewrite bind_skip with (a := clock w) by reflexivity.
  apply statusLoop_thrown.
Qed.

(** Once the fuel covers the seconds left until the deadline, more fuel
    changes nothing: the loop never ends for want of fuel. *)
Lemma statusLoop_fuel (fuel : nat) (start timeoutMs : N) :
  forall (lastSeen : string) (w : world S),
    (start <= clock w)%N ->
    N.to_nat ((start + timeoutMs + 1000 - clock w) / 1000) + 1 <= fuel ->
    statusLoop (Datatypes.S fuel) start timeoutMs lastSeen w
    = statusLoop fuel start timeoutMs lastSeen w.
Proof.
  induction fuel as [| fuel IH]; intros lastSeen w Hstart Hfuel.
  { exfalso. set (n := N.to_nat _) in Hfuel. clearbody n. lia. }
  rewrite (statusLoop_step (Datatypes.S fuel)), (statusLoop_step fuel).
  assert (Hnext : forall d,
             (timeoutMs <? clock w + d - start)%N = false ->
             N.to_nat ((start + timeoutMs + 1000 - (clock w + d + 1000)) / 1000)
             + 1 <= fuel).
  { intros d Hd. apply N.ltb_ge in Hd.
    assert (Hdiv : ((start + timeoutMs + 1000 - (clock w + d + 1000)) / 1000 + 1
                    <= (start + timeoutMs + 1000 - clock w) / 1000)%N).
    { rewrite <- (N.div_add _ 1 1000) by lia.
      apply N.Div0.div_le_mono. lia. }
    set (qa := ((start + timeoutMs + 1000 - clock w) / 1000)%N) in *.
    set (qb := ((start + timeoutMs + 1000 - (clock w + d + 1000)) / 1000)%N) in *.
    clearbody qa qb. lia. }
  destruct (respond evaluateStatusText (doc w) (clock w))
    as [[d el | d e' |] s']; [| | reflexivity].
  - destruct (polled el); [| reflexivity].
    destruct (timeoutMs <? clock w + d - start)%N eqn:Hd; [reflexivity |].
    cbv zeta. rewrite IH; [reflexivity | cbn [clock]; lia | cbn [clock]; auto].
  - destruct (timeoutMs <? clock w + d - start)%N eqn:Hd; [reflexivity |].
    cbv zeta. rewrite IH; [reflexivity | cbn [clock]; lia | cbn [clock]; auto].
Qed.

(** [waitForStatusText] is total: the fuel it hands over is enough. *)
Lemma waitForStatusText_fuel (timeoutMs : N) (w : world S) (extra : nat) :
  statusLoop (N.to_nat (timeoutMs / 1000) + 2 + extra) (clock w) timeoutMs "" w
  = statusLoop (N.to_nat (timeoutMs / 1000) + 2) (clock w) timeoutMs "" w.
Proof.
  induction extra as [| extra IH]; [now rewrite Nat.add_0_r |].
  rewrite Nat.add_succ_r, statusLoop_fuel; [exact IH | lia |].
  replace (clock w + timeoutMs + 1000 - clock w)%N
    with (timeoutMs + 1 * 1000)%N by lia.
  rewrite N.div_add by lia.
  set (q := (timeoutMs / 1000)%N). clearbody q. lia.
Qed.

(** Each turn of the loop reads the status node once. *)
Lemma statusLoop_polls (fuel : nat) (start timeoutMs : N) :
  forall (lastSeen : string) (w : world S),
    pollCount (trace (statusLoop fuel start timeoutMs lastSeen w)) <= fuel.
Proof.
  induction fuel as [| fuel IH]; intros lastSeen w; [apply Nat.le_refl |].
  rewrite statusLoop_step.
  destruct (respond evaluateStatusText (doc w) (clock w))
    as [[d el | d e' |] s']; [| | cbn; lia].
  - destruct (polled el); [| cbn; lia].
    destruct (timeoutMs <? clock w + d - start)%N; [cbn; lia |].
    cbn. apply le_n_S, IH.
  - destruct (timeoutMs <? clock w + d - start)%N; [cbn; lia |].
    cbn. apply le_n_S, IH.
Qed.

(** The result poller is bounded: whatever the page does, the loop of
    [waitForStatusText] never ends for want of fuel (more fuel gives the
    same run), and it reads the status node at most once per second of
    the timeout, plus two. *)
Theorem waitForStatusText_bounded (timeoutMs : N) (w : world S) :
  (forall extra,
      statusLoop (N.to_nat (timeoutMs / 1000) + 2 + extra)
                 (clock w) timeoutMs "" w
      = waitForStatusText timeoutMs w)
  /\ pollCount (trace (waitForStatusText timeoutMs w))
     <= N.to_nat (timeoutMs / 1000) + 2.
Proof.
  assert (E : waitForStatusText timeoutMs w
              = statusLoop (N.to_nat (timeoutMs / 1000) + 2)
                           (clock w) timeoutMs "" w).
  { unfold waitForStatusText. now rewrite bind_skip with (a := clock w). }
  split.
  - intros extra. rewrite E. apply waitForStatusText_fuel.
  - rewrite E. apply statusLoop_polls.
Qed.

(** The write-back never throws into the loop: its failure is caught. *)
Lemma write_quietly (idx : nat) (v : string) (w : world S) :
  trace (try_ (perform (writeStatusToExcel idx v)) (fun _ => ret tt) w)
  = [Called (writeStatusToExcel idx v)]
  /\ (result (try_ (perform (writeStatusToExcel idx v)) (fun _ => ret tt) w)
      = Returned tt
      \/ result (try_ (perform (writeStatusToExcel idx v)) (fun _ => ret tt) w)
         = Suspended).
Proof.
  unfold try_, perform.
  destruct (respond (writeStatusToExcel idx v) (doc w) (clock w))
    as [[d [] | d e |] s']; simpl; auto.
Qed.

(** C4, as the code has it.  When the first poll for the status text
    fails and the retry after the two-second sleep fails too (each can
    only fail with the poller's timeout), nothing of it propagates: the
    captured status is the empty string, which is then written at the
    record's row index.  What follows is the way back to the
    transactions list, which stands outside any [try]: once the write
    has returned, the record's processing goes on and ends exactly as
    the way back does, and an error that ends it is the way back's
    own. *)
Theorem both_polls_fail_swallowed
    (idx : nat) (w : world S) (e1 e2 : error) :
  result (waitForStatusText (STATUS_WAIT_TIMEOUT_MS p) w) = Thrown e1 ->
  result (waitForStatusText (STATUS_WAIT_TIMEOUT_MS p)
            (after (sleep 2000
                      (after (waitForStatusText (STATUS_WAIT_TIMEOUT_MS p) w)))))
  = Thrown e2 ->
  e1 = StatusTimedOut (STATUS_WAIT_TIMEOUT_MS p) ""
  /\ e2 = StatusTimedOut (STATUS_WAIT_TIMEOUT_MS p) ""
  /\ captureStatus p w
     = Run (trace (waitForStatusText (STATUS_WAIT_TIMEOUT_MS p) w)
            ++ Slept 2000
               :: trace (waitForStatusText (STATUS_WAIT_TIMEOUT_MS p)
                           (after (sleep 2000
                                     (after (waitForStatusText
                                               (STATUS_WAIT_TIMEOUT_MS p) w))))))
           (after (waitForStatusText (STATUS_WAIT_TIMEOUT_MS p)
                     (after (sleep 2000
                               (after (waitForStatusText
                                         (STATUS_WAIT_TIMEOUT_MS p) w))))))
           (Returned "")
  /\ (exists rest,
        trace (persistStatus p idx w)
        = trace (captureStatus p w)
          ++ Called (writeStatusToExcel idx "") :: rest)
  /\ (let written :=
         try_ (perform (writeStatusToExcel idx "")) (fun _ => ret tt)
              (after (captureStatus p w)) in
       (result written = Returned tt ->
        persistStatus p idx w
        = Run (trace (captureStatus p w)
               ++ Called (writeStatusToExcel idx "")
                  :: trace (backToTransactions (after written)))
              (after (backToTransactions (after written)))
              (result (backToTransactions (after written))))
       /\ (forall e,
             result (persistStatus p idx w) = Thrown e ->
             result written = Returned tt
             /\ result (backToTransactions (after written)) = Thrown e)).
Proof.
  intros E1 E2.
  split; [now apply waitForStatusText_thrown in E1 |].
  split; [now apply waitForStatusText_thrown in E2 |].
  set (T := STATUS_WAIT_TIMEOUT_MS p) in *.
  set (w1 := after (waitForStatusText T w)) in *.
  set (w2 := after (sleep 2000 w1)) in *.
  assert (Hretry : try_ (waitForStatusText T) (fun _ => ret "") w2
                   = Run (trace (waitForStatusText T w2))
                         (after (waitForStatusText T w2)) (Returned "")).
  { rewrite (try_thrown _ _ w2 e2 E2). cbn [trace after result ret].
    now rewrite app_nil_r. }
  assert (Hcap : captureStatus p w
                 = Run (trace (waitForStatusText T w)
                        ++ Slept 2000 :: trace (waitForStatusText T w2))
                       (after (waitForStatusText T w2)) (Returned "")).
  { unfold captureStatus. fold T. rewrite (try_thrown _ _ w e1 E1). fold w1.
    rewrite (bind_returned (sleep 2000) _ w1 tt eq_refl). fold w2.
    rewrite Hretry. reflexivity. }
  split; [exact Hcap |].
  assert (Hper : persistStatus p idx w
                 = Run (trace (captureStatus p w)
                        ++ trace (bind (try_ (perform (writeStatusToExcel idx ""))
                                             (fun _ => ret tt))
                                       (fun _ => backToTransactions)
                                       (after (captureStatus p w))))
                       (after (bind (try_ (perform (writeStatusToExcel idx ""))
                                          (fun _ => ret tt))
                                    (fun _ => backToTransactions)
                                    (after (captureStatus p w))))
                       (result (bind (try_ (perform (writeStatusToExcel idx ""))
                                           (fun _ => ret tt))
                                     (fun _ => backToTransactions)
                                     (after (captureStatus p w))))).
  { unfold persistStatus.
    now rewrite (bind_returned _ _ w "") by (now rewrite Hcap). }
  set (w3 := after (captureStatus p w)) in *.
  destruct (write_quietly idx "" w3) as (Tw & Rw).
  split; [| cbv zeta; split].
  - rewrite Hper. cbn [trace].
    destruct (bind_trace_prefix
                (try_ (perform (writeStatusToExcel idx "")) (fun _ => ret tt))
                (fun _ => backToTransactions) w3)
      as (rest & Hrest).
    exists rest. now rewrite Hrest, Tw.
  - intros Hw. rewrite Hper.
    rewrite (bind_returned _ _ w3 tt Hw). cbn [trace after result].
    f_equal. f_equal.
    exact (f_equal
             (fun l => l ++ trace (backToTransactions
                                     (after (try_ (perform
                                                     (writeStatusToExcel idx ""))
                                                  (fun _ => ret tt) w3))))
             Tw).
  - intros e He. rewrite Hper in He. cbn [result] in He.
    destruct Rw as [Rw | Rw].
    + split; [exact Rw |].
      now rewrite (bind_returned _ _ w3 tt Rw) in He.
    + rewrite (bind_suspended _ _ w3 Rw) in He. discriminate.
Qed.

End PollerFacts.

(** C4 at a page whose status node never shows. *)
Lemma both_polls_fail_swallowed_witness :
  result (waitForStatusText (STATUS_WAIT_TIMEOUT_MS bookingAuto)
            (World statusNeverShown 0))
  = Thrown (StatusTimedOut 60000 "")
  /\ result (captureStatus bookingAuto (World statusNeverShown 0))
     = Returned ""
  /\ (exists rest,
        trace (persistStatus bookingAuto 0 (World statusNeverShown 0))
        = trace (captureStatus bookingAuto (World statusNeverShown 0))
          ++ Called (writeStatusToExcel 0 "") :: rest)
  /\ persistStatus bookingAuto 0 (World statusNeverShown 0)
     = Run (trace (captureStatus bookingAuto (World statusNeverShown 0))
            ++ Called (writeStatusToExcel 0 "")
               :: trace (backToTransactions
                           (after (try_ (perform (writeStatusToExcel 0 ""))
                                        (fun _ => ret tt)
                                        (after (captureStatus bookingAuto
                                                  (World statusNeverShown 0)))))))
           (after (backToTransactions
                     (after (try_ (perform (writeStatusToExcel 0 ""))
                                  (fun _ => ret tt)
                                  (after (captureStatus bookingAuto
                                            (World statusNeverShown 0)))))))
           (result (backToTransactions
                      (after (try_ (perform (writeStatusToExcel 0 ""))
                                   (fun _ => ret tt)
                                   (after (captureStatus bookingAuto
                                             (World statusNeverShown 0))))))).
Proof.
  assert (H1 : result (waitForStatusText (STATUS_WAIT_TIMEOUT_MS bookingAuto)
                         (World statusNeverShown 0))
               = Thrown (StatusTimedOut 60000 ""))
    by (vm_compute; reflexivity).
  assert (H2 : result (waitForStatusText (STATUS_WAIT_TIMEOUT_MS bookingAuto)
                         (after (sleep 2000
                                   (after (waitForStatusText
                                             (STATUS_WAIT_TIMEOUT_MS bookingAuto)
                                             (World statusNeverShown 0))))))
               = Thrown (StatusTimedOut 60000 ""))
    by (vm_compute; reflexivity).
  destruct (both_polls_fail_swallowed bookingAuto 0 (World statusNeverShown 0)
              _ _ H1 H2)
    as (_ & _ & Hcap & Hwrite & Hback & _).
  split; [exact H1 | split; [now rewrite Hcap | split; [exact Hwrite |]]].
  apply Hback. vm_compute. reflexivity.
Defined.

(** The way back can still end the run: where the links to the list are
    gone by the time both polls have failed, the empty status is
    written, the wait for the links times out, and other records are not
    begun. *)
Example way_back_failure_aborts :
  result (captureStatus bookingAuto (World linkVanishes 0)) = Returned ""
  /\ result (persistStatus bookingAuto 0 (World linkVanishes 0))
     = Thrown (TimeoutError 15000)
  /\ result (main bookingAuto (World linkVanishes 0)) = Returned 1
  /\ statusWrites (trace (main bookingAuto (World linkVanishes 0)))
     = [(0, "")].
Proof. repeat split; vm_compute; reflexivity. Qed.

(** C4, as stated, fails: where the status text never shows, both polls
    for the first record time out, and yet the empty status is written
    at its row, its processing returns, the second record is processed
    in turn and the run exits with code 0. *)
Lemma both_polls_fail_counterexample :
  result (waitForStatusText 60000 (World statusNeverShown 0))
  = Thrown (StatusTimedOut 60000 "")
  /\ result (waitForStatusText 60000
               (after (sleep 2000
                         (after (waitForStatusText 60000
                                   (World statusNeverShown 0))))))
     = Thrown (StatusTimedOut 60000 "")
  /\ result (persistStatus bookingAuto 0 (World statusNeverShown 0))
     = Returned tt
  /\ statusWrites (trace (persistStatus bookingAuto 0 (World statusNeverShown 0)))
     = [(0, "")]
  /\ result (main bookingAuto (World statusNeverShown 0)) = Returned 0
  /\ statusWrites (trace (main bookingAuto (World statusNeverShown 0)))
     = [(0, ""); (1, "")].
Proof. repeat split; vm_compute; reflexivity. Qed.

(** A sheet of a done record and the sample record: the one status
    written goes to row 1. *)
Lemma writes_only_for_eligible_records_witness :
  In (Called (writeStatusToExcel 1 "Authorized"))
     (trace (forRows bookingAuto 0 [doneRecord; sampleRecord]
               (World truncatingField 0)))
  /\ exists r, [doneRecord; sampleRecord] !! 1 = Some r
               /\ statusCell r = ""
               /\ 3 <= String.length (cvvDigitsEarly r).
Proof.
  assert (Hin : In (Called (writeStatusToExcel 1 "Authorized"))
                   (trace (forRows bookingAuto 0 [doneRecord; sampleRecord]
                             (World truncatingField 0)))).
  { apply statusWrites_In. vm_compute. left. reflexivity. }
  split; [exact Hin |].
  exact (writes_only_for_eligible_records bookingAuto
           [doneRecord; sampleRecord] (World truncatingField 0) 1 "Authorized"
           Hin).
Defined.

(** The run over the sample record hands code 0 to [process.exit]. *)
Lemma process_exit_zero_means_completed_witness :
  result (main bookingAuto (World truncatingField 0)) = Returned 0
  /\ result (perform launch (World truncatingField 0)) = Returned tt
  /\ result (session bookingAuto
               (after (perform launch (World truncatingField 0))))
     = Returned tt.
Proof.
  assert (Hzero : result (main bookingAuto (World truncatingField 0))
                  = Returned 0)
    by (vm_compute; reflexivity).
  split; [exact Hzero |].
  exact (process_exit_zero_means_completed bookingAuto
           (World truncatingField 0) Hzero).
Defined.

(** ** Concrete runs *)

(** The end-to-end scenario of the specification: one record, booking,
    automatic submission; the status shown is written at row 0 and the
    run exits with code 0. *)
Example run_sample_record :
  result (main bookingAuto (World truncatingField 0)) = Returned 0
  /\ statusWrites (trace (main bookingAuto (World truncatingField 0)))
     = [(0, "Authorized")].
Proof. split; vm_compute; reflexivity. Qed.

(** The same record with CVV [12]: nothing is done for it. *)
Example run_short_cvv :
  forRows bookingAuto 0 [shortCvvRecord] (World truncatingField 0)
  = Run [] (World truncatingField 0) (Returned tt).
Proof. vm_compute. reflexivity. Qed.

(** The same record under agoda's default review mode: the run is
    suspended, nothing is submitted and nothing is written. *)
Example run_review_mode :
  result (main agodaDefault (World truncatingField 0)) = Suspended
  /\ statusWrites (trace (main agodaDefault (World truncatingField 0))) = []
  /\ pollCount (trace (main agodaDefault (World truncatingField 0))) = 0.
Proof. repeat split; vm_compute; reflexivity. Qed.

(** * Further properties *)

(** ** Digits and card numbers *)

Lemma isDigit_not_space (c : ascii) :
  JS.isDigit c = true -> JS.isSpace c = false.
Proof.
  unfold JS.isDigit, JS.isSpace. cbv zeta.
  generalize (nat_of_ascii c). intros n Hd.
  apply andb_true_iff in Hd as [H1 H2].
  apply Nat.leb_le in H1. apply Nat.leb_le in H2.
  replace (n <=? 13) with false by (symmetry; apply Nat.leb_gt; lia).
  replace (n =? 32) with false by (symmetry; apply Nat.eqb_neq; lia).
  replace (n =? 160) with false by (symmetry; apply Nat.eqb_neq; lia).
  now rewrite andb_false_r.
Qed.

Lemma onlyDigits_strip (s : string) : onlyDigits (JS.stripNonDigits s) = true.
Proof.
  induction s as [| c s IH]; [reflexivity |]. cbn [JS.stripNonDigits].
  destruct (JS.isDigit c) eqn:Ec; [| exact IH].
  cbn [onlyDigits]. now rewrite Ec.
Qed.

Lemma onlyDigits_sliceTo (n : nat) :
  forall s, onlyDigits s = true -> onlyDigits (JS.sliceTo n s) = true.
Proof.
  induction n as [| n IH]; intros [| c s]; try reflexivity.
  cbn [onlyDigits JS.sliceTo]. intros Hd.
  apply andb_true_iff in Hd as [Hc Hs]. now rewrite Hc, IH.
Qed.

Lemma onlyDigits_append (a b : string) :
  onlyDigits a = true -> onlyDigits b = true -> onlyDigits (a +:+ b) = true.
Proof.
  induction a as [| c a IH]; [auto |].
  rewrite append_cons. cbn [onlyDigits]. intros Ha Hb.
  apply andb_true_iff in Ha as [Hc Ha]. now rewrite Hc, IH.
Qed.

Lemma length_sliceTo (n : nat) :
  forall s, String.length (JS.sliceTo n s) <= n.
Proof.
  induction n as [| n IH]; intros [| c s]; cbn [JS.sliceTo String.length];
    try lia.
  specialize (IH s). lia.
Qed.

Lemma onlyDigits_noSpace (s : string) : onlyDigits s = true -> noSpace s = true.
Proof.
  induction s as [| c s IH]; [reflexivity |]. cbn [onlyDigits noSpace].
  intros Hd. apply andb_true_iff in Hd as [Hc Hs].
  now rewrite (isDigit_not_space c Hc), IH.
Qed.

Lemma trimStart_noSpace (s : string) : noSpace s = true -> JS.trimStart s = s.
Proof.
  destruct s as [| c s]; [reflexivity |]. cbn [noSpace JS.trimStart].
  intros Hn. apply andb_true_iff in Hn as [Hc _].
  now destruct (JS.isSpace c).
Qed.

Lemma trimEnd_noSpace (s : string) : noSpace s = true -> JS.trimEnd s = s.
Proof.
  induction s as [| c s IH]; [reflexivity |]. cbn [noSpace JS.trimEnd].
  intros Hn. apply andb_true_iff in Hn as [Hc Hs]. rewrite (IH Hs).
  destruct s; [| reflexivity]. now destruct (JS.isSpace c).
Qed.

(** [trim] leaves a string without white space as it is. *)
Lemma trim_noSpace (s : string) : noSpace s = true -> JS.trim s = s.
Proof.
  intros Hn. unfold JS.trim. rewrite (trimStart_noSpace s Hn).
  now apply trimEnd_noSpace.
Qed.

(** [buildCardNumber] yields digits only, sixteen at most: the first
    four digits of its first argument followed by the first twelve of
    its second (its final [trim] removes nothing); on the two card
    cells of a record it is the [cardNumber] that [main] types. *)
Theorem buildCardNumber_digits (first4 last12 : string) :
  onlyDigits (buildCardNumber first4 last12) = true
  /\ String.length (buildCardNumber first4 last12) <= 16
  /\ buildCardNumber first4 last12
     = JS.sliceTo 4 (JS.stripNonDigits first4)
       +:+ JS.sliceTo 12 (JS.stripNonDigits last12)
  /\ (forall (p : process) (r : row),
        cardNumber (formValuesOf p r)
        = buildCardNumber
            (valueByHeaders r ["Card first 4"; "Card First 4"; "First 4"])
            (valueByHeaders r ["Card last 12"; "Card Last 12"; "Last 12"])).
Proof.
  assert (Hd : forall a b,
             onlyDigits (JS.sliceTo 4 (JS.stripNonDigits a)
                         +:+ JS.sliceTo 12 (JS.stripNonDigits b)) = true).
  { intros a b.
    apply onlyDigits_append; apply onlyDigits_sliceTo, onlyDigits_strip. }
  assert (Hb : forall a b,
             buildCardNumber a b
             = JS.sliceTo 4 (JS.stripNonDigits a)
               +:+ JS.sliceTo 12 (JS.stripNonDigits b)).
  { intros a b. unfold buildCardNumber. cbv zeta.
    apply trim_noSpace, onlyDigits_noSpace, Hd. }
  split; [now rewrite Hb | split; [| split; [apply Hb |]]].
  - rewrite Hb, length_append.
    pose proof (length_sliceTo 4 (JS.stripNonDigits first4)).
    pose proof (length_sliceTo 12 (JS.stripNonDigits last12)). lia.
  - intros p r. rewrite Hb. apply cardNumber_expected.
Qed.

(** ** Header lookup *)

Lemma prop_In (r : row) (k v : string) : prop r k = Some v -> In (k, v) r.
Proof.
  induction r as [| [k' v'] r IH]; [discriminate |]. cbn [prop].
  destruct (String.eqb_spec k' k) as [-> | _].
  - intros [= ->]. now left.
  - intros E. right. now apply IH.
Qed.

Lemma firstOwn_sound (r : row) (headers : list string) (x : string) :
  firstOwn r headers = Some x ->
  x <> "" /\ exists h v, In h headers /\ prop r h = Some v /\ x = JS.trim v.
Proof.
  induction headers as [| h hs IH]; [discriminate |]. cbn [firstOwn].
  destruct (prop r h) as [v |] eqn:Eh.
  - cbv zeta. destruct (JS.truthy (JS.trim v)) eqn:Et.
    + intros [= <-]. split; [now apply truthy_true |].
      exists h, v. repeat split; [now left | assumption].
    + intros E. destruct (IH E) as (Hx & h' & v' & Hin & Hp & ->).
      split; [assumption |]. exists h', v'. repeat split; [now right | assumption].
  - intros E. destruct (IH E) as (Hx & h' & v' & Hin & Hp & ->).
    split; [assumption |]. exists h', v'. repeat split; [now right | assumption].
Qed.

Lemma firstNormalized_sound
    (m : gmap string string) (headers : list string) (x : string) :
  firstNormalized m headers = Some x ->
  x <> "" /\ exists h, In h headers /\ m !! normalizeKey h = Some x.
Proof.
  induction headers as [| h hs IH]; [discriminate |]. cbn [firstNormalized].
  destruct (m !! normalizeKey h) as [v |] eqn:Eh.
  - destruct (JS.truthy v) eqn:Et.
    + intros [= <-]. split; [now apply truthy_true |].
      exists h. split; [now left | assumption].
    + intros E. destruct (IH E) as (Hx & h' & Hin & Hm).
      split; [assumption |]. exists h'. split; [now right | assumption].
  - intros E. destruct (IH E) as (Hx & h' & Hin & Hm).
    split; [assumption |]. exists h'. split; [now right | assumption].
Qed.

(** What the [reduce] of line 361 holds under a key comes from the
    accumulator it started from or from a cell of the record. *)
Lemma normalized_fold_sound (r : row) :
  forall (acc : gmap string string) (n x : string),
    fold_left
      (fun acc kv => <[normalizeKey (fst kv) := JS.trim (snd kv)]> acc) r acc
    !! n = Some x ->
    acc !! n = Some x
    \/ exists k v, In (k, v) r /\ normalizeKey k = n /\ x = JS.trim v.
Proof.
  induction r as [| [k v] r IH]; intros acc n x; [now left |].
  cbn [fold_left fst snd]. intros E. apply IH in E as [E | (k' & v' & Hin & Hn & Hx)].
  - destruct (decide (normalizeKey k = n)) as [Hn | Hn].
    + rewrite Hn, lookup_insert_eq in E. injection E as <-.
      right. exists k, v. repeat split; [now left | assumption].
    + rewrite lookup_insert_ne in E by assumption. now left.
  - right. exists k', v'. repeat split; [now right | assumption..].
Qed.

(** Keys that normalise otherwise do not disturb what is held under a
    key. *)
Lemma normalized_fold_frame (r : row) :
  forall (acc : gmap string string) (n : string),
    (forall k v, In (k, v) r -> normalizeKey k <> n) ->
    fold_left
      (fun acc kv => <[normalizeKey (fst kv) := JS.trim (snd kv)]> acc) r acc
    !! n = acc !! n.
Proof.
  induction r as [| [k v] r IH]; intros acc n Hne; [reflexivity |].
  cbn [fold_left fst snd].
  rewrite IH by (intros k' v' Hin; apply (Hne k' v'); now right).
  apply lookup_insert_ne. apply (Hne k v). now left.
Qed.

(** [valueByHeaders] never makes a value up: it returns the empty
    string, or the trimmed, non-empty content of a cell of the record
    whose header normalises like one of the headers asked for. *)
Theorem valueByHeaders_sound (r : row) (headers : list string) :
  valueByHeaders r headers = ""
  \/ exists h k v,
      In h headers /\ In (k, v) r
      /\ normalizeKey k = normalizeKey h
      /\ valueByHeaders r headers = JS.trim v.
Proof.
  unfold valueByHeaders.
  destruct (firstOwn r headers) as [x |] eqn:Eo.
  - right. destruct (firstOwn_sound _ _ _ Eo) as (_ & h & v & Hin & Hp & ->).
    exists h, h, v. repeat split; [assumption | now apply prop_In].
  - destruct (firstNormalized (normalizedRow r) headers) as [x |] eqn:En;
      [| now left].
    right. destruct (firstNormalized_sound _ _ _ En) as (_ & h & Hin & Hm).
    unfold normalizedRow in Hm.
    apply normalized_fold_sound in Hm as [Hm | (k & v & Hk & Hn & ->)].
    + rewrite lookup_empty in Hm. discriminate.
    + exists h, k, v. auto.
Qed.

(** An exactly spelled header wins: the first header of the list that
    the record has under that very spelling with a non-blank cell
    decides, whatever the other columns hold. *)
Theorem valueByHeaders_exact_first
    (r : row) (before after_ : list string) (h v : string) :
  prop r h = Some v ->
  JS.trim v <> "" ->
  (forall h' v', In h' before -> prop r h' = Some v' -> JS.trim v' = "") ->
  valueByHeaders r (before ++ h :: after_) = JS.trim v.
Proof.
  intros Hp Hv Hblank. unfold valueByHeaders.
  assert (E : firstOwn r (before ++ h :: after_) = Some (JS.trim v)).
  { induction before as [| h' hs IH]; cbn [app firstOwn].
    - rewrite Hp. cbv zeta. apply truthy_true in Hv. now rewrite Hv.
    - assert (IH' : firstOwn r (hs ++ h :: after_) = Some (JS.trim v))
        by (apply IH; intros h0 v0 Hin; apply Hblank; now right).
      destruct (prop r h') as [v' |] eqn:Eh; [| exact IH'].
      cbv zeta. rewrite (Hblank h' v' (or_introl eq_refl) Eh). exact IH'. }
  now rewrite E.
Qed.

(** Without a non-blank cell under the exact spelling, the last column
    whose header normalises like the header asked for decides, blank or
    not: a later blank column hides an earlier filled one. *)
Theorem valueByHeaders_last_column
    (r1 r2 : row) (k v h : string) :
  normalizeKey k = normalizeKey h ->
  (forall k' v', In (k', v') r2 -> normalizeKey k' <> normalizeKey h) ->
  (forall v', prop (r1 ++ (k, v) :: r2) h = Some v' -> JS.trim v' = "") ->
  valueByHeaders (r1 ++ (k, v) :: r2) [h] = JS.trim v.
Proof.
  intros Hk Hlater Hexact.
  assert (Em : normalizedRow (r1 ++ (k, v) :: r2) !! normalizeKey h
               = Some (JS.trim v)).
  { unfold normalizedRow. rewrite fold_left_app. cbn [fold_left fst snd].
    rewrite normalized_fold_frame by assumption.
    rewrite Hk. apply lookup_insert_eq. }
  unfold valueByHeaders. cbn [firstOwn firstNormalized].
  destruct (prop (r1 ++ (k, v) :: r2) h) as [v0 |] eqn:Ep.
  - cbv zeta. rewrite (Hexact v0 eq_refl). cbn [JS.truthy]. rewrite Em.
    destruct (JS.trim v); reflexivity.
  - rewrite Em. destruct (JS.trim v); reflexivity.
Qed.

Lemma valueByHeaders_exact_first_witness :
  valueByHeaders [("cvv", "999"); ("Security Code", " 123 ")]
                 (["CVV"] ++ "Security Code" :: ["CVV2"])
  = JS.trim " 123 ".
Proof.
  apply (valueByHeaders_exact_first
           [("cvv", "999"); ("Security Code", " 123 ")]
           ["CVV"] ["CVV2"] "Security Code" " 123 ").
  - reflexivity.
  - vm_compute. discriminate.
  - intros h' v' [<- | []]. vm_compute. discriminate.
Defined.

Lemma valueByHeaders_last_column_witness :
  valueByHeaders ([("cvv ", "123")] ++ ("Cvv", " ") :: [("Amount", "10.00")])
                 ["CVV"]
  = JS.trim " ".
Proof.
  apply (valueByHeaders_last_column
           [("cvv ", "123")] [("Amount", "10.00")] "Cvv" " " "CVV").
  - reflexivity.
  - intros k' v' [[= <- <-] | []]. vm_compute. discriminate.
  - vm_compute. discriminate.
Defined.

(** ** Normalised headers *)

Lemma lowerChar_space (c : ascii) :
  JS.isSpace (JS.lowerChar c) = JS.isSpace c.
Proof.
  destruct c as [[] [] [] [] [] [] [] []]; reflexivity.
Qed.

Lemma lowerChar_idem (c : ascii) :
  JS.lowerChar (JS.lowerChar c) = JS.lowerChar c.
Proof.
  destruct c as [[] [] [] [] [] [] [] []]; reflexivity.
Qed.

Lemma toLowerCase_idem (s : string) :
  JS.toLowerCase (JS.toLowerCase s) = JS.toLowerCase s.
Proof.
  induction s as [| c s IH]; [reflexivity |]. cbn [JS.toLowerCase].
  now rewrite lowerChar_idem, IH.
Qed.

Lemma trimStart_toLowerCase (s : string) :
  JS.trimStart (JS.toLowerCase s) = JS.toLowerCase (JS.trimStart s).
Proof.
  induction s as [| c s IH]; [reflexivity |].
  cbn [JS.toLowerCase JS.trimStart]. rewrite lowerChar_space.
  now destruct (JS.isSpace c).
Qed.

Lemma trimEnd_toLowerCase (s : string) :
  JS.trimEnd (JS.toLowerCase s) = JS.toLowerCase (JS.trimEnd s).
Proof.
  induction s as [| c s IH]; [reflexivity |].
  cbn [JS.toLowerCase JS.trimEnd]. rewrite IH, lowerChar_space.
  destruct (JS.trimEnd s); cbn [JS.toLowerCase]; [| reflexivity].
  now destruct (JS.isSpace c).
Qed.

Lemma trimEnd_idem (s : string) : JS.trimEnd (JS.trimEnd s) = JS.trimEnd s.
Proof.
  induction s as [| c s IH]; [reflexivity |]. cbn [JS.trimEnd].
  destruct (JS.trimEnd s) as [| c' r] eqn:Er.
  - destruct (JS.isSpace c) eqn:Ec; [reflexivity |].
    cbn [JS.trimEnd]. now rewrite Ec.
  - change (JS.trimEnd (String c (String c' r)))
      with (match JS.trimEnd (String c' r) with
            | EmptyString =>
                if JS.isSpace c then EmptyString else String c EmptyString
            | r' => String c r'
            end).
    now rewrite IH.
Qed.

(** What [trimStart] returns does not start with white space, and
    [trimEnd] keeps that. *)
Lemma trimStart_trimEnd_trimStart (s : string) :
  JS.trimStart (JS.trimEnd (JS.trimStart s)) = JS.trimEnd (JS.trimStart s).
Proof.
  induction s as [| c s IH]; [reflexivity |]. cbn [JS.trimStart].
  destruct (JS.isSpace c) eqn:Ec; [exact IH |].
  cbn [JS.trimEnd]. destruct (JS.trimEnd s).
  - rewrite Ec. cbn [JS.trimStart]. now rewrite Ec.
  - cbn [JS.trimStart]. now rewrite Ec.
Qed.

Lemma trim_idem (s : string) : JS.trim (JS.trim s) = JS.trim s.
Proof.
  unfold JS.trim. rewrite trimStart_trimEnd_trimStart. apply trimEnd_idem.
Qed.

(** The normalised spelling of a header ignores the case of its letters
    and the white space around it: lower-casing or trimming a header
    first changes nothing. *)
Theorem normalizeKey_insensitive (s : string) :
  normalizeKey (JS.toLowerCase s) = normalizeKey s
  /\ normalizeKey (JS.trim s) = normalizeKey s.
Proof.
  unfold normalizeKey. split.
  - unfold JS.trim.
    now rewrite trimStart_toLowerCase, trimEnd_toLowerCase, toLowerCase_idem.
  - now rewrite trim_idem.
Qed.

(** ** More on the write-back *)

Lemma findStatusCol_ext (ws ws' : worksheet) (headerRow n : nat) :
  (forall c, cells ws' !! (headerRow, c) = cells ws !! (headerRow, c)) ->
  forall c,
    Sheet.findStatusCol ws' headerRow c n = Sheet.findStatusCol ws headerRow c n.
Proof.
  intros Hext. induction n as [| n IH]; intros c; [reflexivity |].
  cbn [Sheet.findStatusCol]. now rewrite Hext, IH.
Qed.

Lemma findStatusCol_app (ws : worksheet) (headerRow n m : nat) :
  forall c,
    Sheet.findStatusCol ws headerRow c (n + m)
    = match Sheet.findStatusCol ws headerRow c n with
      | Some col => Some col
      | None => Sheet.findStatusCol ws headerRow (c + n) m
      end.
Proof.
  induction n as [| n IH]; intros c.
  - cbn. now rewrite Nat.add_0_r.
  - cbn [Nat.add Sheet.findStatusCol]. cbv zeta.
    destruct (String.eqb _ "status"); [reflexivity |].
    rewrite IH. now replace (Datatypes.S c + n) with (c + Datatypes.S n) by lia.
Qed.

Lemma findStatusCol_bounds (ws : worksheet) (headerRow n : nat) :
  forall c col,
    Sheet.findStatusCol ws headerRow c n = Some col -> c <= col < c + n.
Proof.
  induction n as [| n IH]; intros c col; [discriminate |].
  cbn [Sheet.findStatusCol]. cbv zeta.
  destruct (String.eqb _ "status").
  - intros [= <-]. lia.
  - intros E. apply IH in E. lia.
Qed.

(** What the search of lines 142-147 finds: the first column of the
    stretch whose header reads [status], if there is one. *)
Lemma findStatusCol_spec (ws : worksheet) (n : nat) :
  forall c,
    match Sheet.findStatusCol ws (s_r (ref ws)) c n with
    | Some col =>
        c <= col < c + n /\ readsStatus ws col = true
        /\ forall c', c <= c' < col -> readsStatus ws c' = false
    | None => forall c', c <= c' < c + n -> readsStatus ws c' = false
    end.
Proof.
  induction n as [| n IH]; intros c; [intros c' Hc'; lia |].
  cbn [Sheet.findStatusCol]. cbv zeta.
  change (String.eqb
            match cells ws !! (s_r (ref ws), c) with
            | Some v => JS.toLowerCase (JS.trim v)
            | None => ""
            end "status")
    with (readsStatus ws c).
  destruct (readsStatus ws c) eqn:Ec.
  - split; [lia | split; [exact Ec | intros c' Hc'; lia]].
  - specialize (IH (Datatypes.S c)).
    destruct (Sheet.findStatusCol ws (s_r (ref ws)) (Datatypes.S c) n)
      as [col |].
    + destruct IH as (Hb & Hcol & Hbefore).
      split; [lia | split; [exact Hcol |]].
      intros c' Hc'. destruct (Nat.eq_dec c' c) as [-> | Hne]; [exact Ec |].
      apply Hbefore. lia.
    + intros c' Hc'. destruct (Nat.eq_dec c' c) as [-> | Hne]; [exact Ec |].
      apply IH. lia.
Qed.

(** The header row after a write-back. *)
Lemma header_written (ws : worksheet) (idx : nat) (v : string) (c : nat) :
  cells (Sheet.writeStatusToExcel ws idx v) !! (s_r (ref ws), c)
  = match Sheet.findStatusCol ws (s_r (ref ws)) (s_c (ref ws))
            (Datatypes.S (e_c (ref ws)) - s_c (ref ws)) with
    | Some _ => cells ws !! (s_r (ref ws), c)
    | None =>
        <[(s_r (ref ws), e_c (ref ws) + 1) := "STATUS"]> (cells ws)
        !! (s_r (ref ws), c)
    end.
Proof.
  unfold Sheet.writeStatusToExcel. cbv zeta. cbn [cells].
  rewrite lookup_insert_ne by (intros [= E]; lia).
  now destruct (Sheet.findStatusCol _ _ _ _).
Qed.

(** The write-back stores the status in the row it addresses by the
    record's index, in the status column of the sheet, whose header then
    reads [status].  That column is the first column of the range whose
    header, trimmed and lower-cased, reads [status], and the header row
    is then left as it was; when the range has no such column, it is the
    column right of the range, which the write-back heads [STATUS]. *)
Theorem writeStatusToExcel_stores (ws : worksheet) (idx : nat) (v : string) :
  cells (Sheet.writeStatusToExcel ws idx v)
  !! (s_r (ref ws) + 1 + idx, statusColumn ws) = Some v
  /\ readsStatus (Sheet.writeStatusToExcel ws idx v) (statusColumn ws) = true
  /\ ((s_c (ref ws) <= statusColumn ws <= e_c (ref ws)
       /\ readsStatus ws (statusColumn ws) = true
       /\ (forall c, s_c (ref ws) <= c < statusColumn ws ->
                     readsStatus ws c = false)
       /\ (forall c,
             cells (Sheet.writeStatusToExcel ws idx v) !! (s_r (ref ws), c)
             = cells ws !! (s_r (ref ws), c)))
      \/ (statusColumn ws = e_c (ref ws) + 1
          /\ (forall c, s_c (ref ws) <= c <= e_c (ref ws) ->
                        readsStatus ws c = false)
          /\ cells (Sheet.writeStatusToExcel ws idx v)
             !! (s_r (ref ws), e_c (ref ws) + 1) = Some "STATUS")).
Proof.
  split.
  { unfold Sheet.writeStatusToExcel, statusColumn. cbv zeta. cbn [cells].
    apply lookup_insert_eq. }
  assert (Hreads : forall c,
             readsStatus (Sheet.writeStatusToExcel ws idx v) c
             = String.eqb
                 match cells (Sheet.writeStatusToExcel ws idx v)
                       !! (s_r (ref ws), c) with
                 | Some h => JS.toLowerCase (JS.trim h)
                 | None => ""
                 end "status").
  { intros c. unfold readsStatus. now rewrite headerRow_written. }
  pose proof (findStatusCol_spec ws (Datatypes.S (e_c (ref ws)) - s_c (ref ws))
                (s_c (ref ws))) as Hspec.
  pose proof (header_written ws idx v) as Hhdr.
  unfold statusColumn.
  destruct (Sheet.findStatusCol ws (s_r (ref ws)) (s_c (ref ws))
              (Datatypes.S (e_c (ref ws)) - s_c (ref ws)))
    as [col |]; cbn [default]; unfold id.
  - destruct Hspec as (Hb & Hcol & Hbefore). split.
    + rewrite Hreads, Hhdr. exact Hcol.
    + left. repeat split; try assumption; lia.
  - assert (Hnew : cells (Sheet.writeStatusToExcel ws idx v)
                   !! (s_r (ref ws), e_c (ref ws) + 1) = Some "STATUS")
      by (rewrite Hhdr; apply lookup_insert_eq).
    split.
    + rewrite Hreads, Hnew. reflexivity.
    + right. split; [reflexivity | split; [| exact Hnew]].
      intros c Hc. apply Hspec. lia.
Qed.

(** What a write-back leaves in the cell it addresses and in the other
    cells of the status column. *)
Lemma writeStatusToExcel_column (ws : worksheet) (idx i : nat) (v : string) :
  cells (Sheet.writeStatusToExcel ws idx v)
  !! (s_r (ref ws) + 1 + i, statusColumn ws)
  = if Nat.eqb idx i then Some v
    else cells ws !! (s_r (ref ws) + 1 + i, statusColumn ws).
Proof.
  destruct (Nat.eqb_spec idx i) as [-> | Hne].
  - unfold Sheet.writeStatusToExcel, statusColumn. cbv zeta. cbn [cells].
    apply lookup_insert_eq.
  - apply writeStatusToExcel_frame; lia.
Qed.

(** On a sheet whose range is well formed the status column is the same
    before and after a write-back. *)
Lemma statusColumn_written (ws : worksheet) (idx : nat) (v : string) :
  s_c (ref ws) <= e_c (ref ws) ->
  statusColumn (Sheet.writeStatusToExcel ws idx v) = statusColumn ws
  /\ s_c (ref (Sheet.writeStatusToExcel ws idx v)) = s_c (ref ws)
  /\ e_c (ref ws) <= e_c (ref (Sheet.writeStatusToExcel ws idx v)).
Proof.
  intros Hrange.
  assert (Hhdr : forall c,
             cells (Sheet.writeStatusToExcel ws idx v) !! (s_r (ref ws), c)
             = match Sheet.findStatusCol ws (s_r (ref ws)) (s_c (ref ws))
                       (Datatypes.S (e_c (ref ws)) - s_c (ref ws)) with
               | Some _ => cells ws !! (s_r (ref ws), c)
               | None =>
                   <[(s_r (ref ws), e_c (ref ws) + 1) := "STATUS"]> (cells ws)
                   !! (s_r (ref ws), c)
               end).
  { intros c. unfold Sheet.writeStatusToExcel. cbv zeta. cbn [cells].
    rewrite lookup_insert_ne by (intros [= E]; lia).
    now destruct (Sheet.findStatusCol _ _ _ _). }
  unfold statusColumn at 1. rewrite headerRow_written.
  unfold statusColumn.
  destruct (Sheet.findStatusCol ws (s_r (ref ws)) (s_c (ref ws))
              (Datatypes.S (e_c (ref ws)) - s_c (ref ws)))
    as [col |] eqn:Ef.
  - assert (Hr : s_c (ref (Sheet.writeStatusToExcel ws idx v)) = s_c (ref ws)
                 /\ e_c (ref (Sheet.writeStatusToExcel ws idx v))
                    = e_c (ref ws)).
    { unfold Sheet.writeStatusToExcel. cbv zeta. rewrite Ef. cbn [ref].
      now destruct (_ <? _). }
    destruct Hr as [-> ->].
    rewrite (findStatusCol_ext ws) by (intros c; now rewrite Hhdr).
    rewrite Ef. cbn [default]. repeat split; lia.
  - assert (Hr : s_c (ref (Sheet.writeStatusToExcel ws idx v)) = s_c (ref ws)
                 /\ e_c (ref (Sheet.writeStatusToExcel ws idx v))
                    = e_c (ref ws) + 1).
    { unfold Sheet.writeStatusToExcel. cbv zeta. rewrite Ef. cbn [ref default].
      now destruct (_ <? _). }
    destruct Hr as [-> ->].
    replace (Datatypes.S (e_c (ref ws) + 1) - s_c (ref ws))
      with ((Datatypes.S (e_c (ref ws)) - s_c (ref ws)) + 1) by lia.
    rewrite findStatusCol_app.
    assert (Hgen : forall n c,
               c + n <= e_c (ref ws) + 1 ->
               Sheet.findStatusCol (Sheet.writeStatusToExcel ws idx v)
                 (s_r (ref ws)) c n
               = Sheet.findStatusCol ws (s_r (ref ws)) c n).
    { induction n as [| n IH]; intros c Hc; [reflexivity |].
      cbn [Sheet.findStatusCol]. rewrite Hhdr.
      rewrite lookup_insert_ne by (intros [= E']; lia).
      rewrite IH by lia. reflexivity. }
    rewrite Hgen by lia. rewrite Ef.
    cbn [Sheet.findStatusCol]. rewrite Hhdr.
    replace (s_c (ref ws) + (Datatypes.S (e_c (ref ws)) - s_c (ref ws)))
      with (e_c (ref ws) + 1) by lia.
    rewrite lookup_insert_eq. cbn. repeat split; lia.
Qed.

(** On a sheet whose range is well formed, after any sequence of
    write-backs the status cell of every record holds the status
    written last for it, or what it held before when none was; every
    write-back uses one and the same status column. *)
Theorem applyWrites_last_write (writes : list (nat * string)) :
  forall (ws : worksheet) (i : nat),
    s_c (ref ws) <= e_c (ref ws) ->
    cells (Sheet.applyWrites ws writes) !! (s_r (ref ws) + 1 + i, statusColumn ws)
    = match lastWrite writes i with
      | Some v => Some v
      | None => cells ws !! (s_r (ref ws) + 1 + i, statusColumn ws)
      end.
Proof.
  induction writes as [| [j v] writes IH]; intros ws i Hrange; [reflexivity |].
  destruct (statusColumn_written ws j v Hrange) as (Hcol & Hs & He).
  unfold Sheet.applyWrites in *. cbn [fold_left fst snd lastWrite].
  specialize (IH (Sheet.writeStatusToExcel ws j v) i).
  rewrite headerRow_written, Hcol in IH. rewrite IH by lia.
  destruct (lastWrite writes i); [reflexivity |].
  rewrite writeStatusToExcel_column. now destruct (Nat.eqb j i).
Qed.

(** On a sheet whose range is well formed a write-back keeps the range
    well formed and never shrinks it, adds one column at most, and
    leaves the status header and the cell written inside the range. *)
Theorem writeStatusToExcel_range (ws : worksheet) (idx : nat) (v : string) :
  s_c (ref ws) <= e_c (ref ws) ->
  s_r (ref (Sheet.writeStatusToExcel ws idx v)) = s_r (ref ws)
  /\ s_c (ref (Sheet.writeStatusToExcel ws idx v)) = s_c (ref ws)
  /\ e_r (ref ws) <= e_r (ref (Sheet.writeStatusToExcel ws idx v))
  /\ e_c (ref ws) <= e_c (ref (Sheet.writeStatusToExcel ws idx v))
     <= e_c (ref ws) + 1
  /\ s_r (ref ws) + 1 + idx <= e_r (ref (Sheet.writeStatusToExcel ws idx v))
  /\ s_c (ref ws) <= statusColumn ws
     <= e_c (ref (Sheet.writeStatusToExcel ws idx v)).
Proof.
  intros Hrange. unfold Sheet.writeStatusToExcel, statusColumn. cbv zeta.
  destruct (Sheet.findStatusCol ws (s_r (ref ws)) (s_c (ref ws))
              (Datatypes.S (e_c (ref ws)) - s_c (ref ws)))
    as [col |] eqn:Ef; cbn [ref default s_r s_c e_r e_c].
  - apply findStatusCol_bounds in Ef.
    destruct (Nat.ltb_spec (e_r (ref ws)) (s_r (ref ws) + 1 + idx));
      cbn [s_r s_c e_r e_c]; unfold id; repeat split; lia.
  - destruct (Nat.ltb_spec (e_r (ref ws)) (s_r (ref ws) + 1 + idx));
      cbn [s_r s_c e_r e_c]; unfold id; repeat split; lia.
Qed.

Lemma applyWrites_last_write_witness :
  cells (Sheet.applyWrites cvvOnlySheet
           [(0, "Declined"); (1, "Authorized"); (0, "Authorized")])
  !! (s_r (ref cvvOnlySheet) + 1 + 0, statusColumn cvvOnlySheet)
  = Some "Authorized".
Proof.
  apply (applyWrites_last_write
           [(0, "Declined"); (1, "Authorized"); (0, "Authorized")]
           cvvOnlySheet 0).
  vm_compute. lia.
Defined.

Lemma writeStatusToExcel_range_witness :
  s_r (ref (Sheet.writeStatusToExcel cvvOnlySheet 4 "Authorized"))
  = s_r (ref cvvOnlySheet)
  /\ s_c (ref (Sheet.writeStatusToExcel cvvOnlySheet 4 "Authorized"))
     = s_c (ref cvvOnlySheet)
  /\ e_r (ref cvvOnlySheet)
     <= e_r (ref (Sheet.writeStatusToExcel cvvOnlySheet 4 "Authorized"))
  /\ e_c (ref cvvOnlySheet)
     <= e_c (ref (Sheet.writeStatusToExcel cvvOnlySheet 4 "Authorized"))
     <= e_c (ref cvvOnlySheet) + 1
  /\ s_r (ref cvvOnlySheet) + 1 + 4
     <= e_r (ref (Sheet.writeStatusToExcel cvvOnlySheet 4 "Authorized"))
  /\ s_c (ref cvvOnlySheet) <= statusColumn cvvOnlySheet
     <= e_c (ref (Sheet.writeStatusToExcel cvvOnlySheet 4 "Authorized")).
Proof.
  apply (writeStatusToExcel_range cvvOnlySheet 4 "Authorized").
  vm_compute. lia.
Defined.

(** ** More on the stage race detector *)

(** The race is decided no later than any of its runners settles. *)
Lemma fate_race_earliest {A} (fs : list (fate A)) (u : N) :
  settledAt (fate_race fs) = Some u ->
  forall f t, In f fs -> settledAt f = Some t -> (u <= t)%N.
Proof.
  revert u. induction fs as [| f0 fs IH]; intros u; simpl; [discriminate |].
  destruct (settledAt f0) as [t0 |] eqn:E0.
  - destruct (settledAt (fate_race fs)) as [u' |] eqn:Er.
    + destruct (N.leb_spec t0 u') as [Hle | Hgt].
      * rewrite E0. intros [= <-] f t [<- | Hin] Et.
        -- rewrite E0 in Et. injection Et as <-. lia.
        -- specialize (IH u' eq_refl f t Hin Et). lia.
      * rewrite Er. intros [= <-] f t [<- | Hin] Et.
        -- rewrite E0 in Et. injection Et as <-. lia.
        -- exact (IH u' eq_refl f t Hin Et).
    + rewrite E0. intros [= <-] f t [<- | Hin] Et.
      * rewrite E0 in Et. injection Et as <-. lia.
      * exfalso. destruct fs as [| f1 fs1]; [destruct Hin |].
        clear IH. revert f t Hin Et Er. generalize (f1 :: fs1). clear.
        intros l. induction l as [| g l IHl]; intros f t Hin Et; [destruct Hin |].
        simpl. destruct (settledAt g) as [tg |] eqn:Eg.
        -- destruct (settledAt (fate_race l)) as [ul |] eqn:El.
           ++ destruct (tg <=? ul)%N; congruence.
           ++ congruence.
        -- destruct Hin as [<- | Hin]; [congruence |].
           intros Er. exact (IHl f t Hin Et Er).
  - intros Er f t [<- | Hin] Et; [congruence |].
    exact (IH u Er f t Hin Et).
Qed.

(** A race that never settles has no runner that does. *)
Lemma fate_race_pending {A} (fs : list (fate A)) :
  settledAt (fate_race fs) = None ->
  forall f, In f fs -> settledAt f = None.
Proof.
  induction fs as [| f0 fs IH]; simpl; [intros _ f [] |].
  destruct (settledAt f0) as [t0 |] eqn:E0.
  - destruct (settledAt (fate_race fs)) as [u' |] eqn:Er.
    + destruct (t0 <=? u')%N; congruence.
    + congruence.
  - intros Er f [<- | Hin]; [assumption | now apply IH].
Qed.

Section MoreRaceFacts.
Context {S : Type} `{Surface S}.

(** The wait of a stage that is satisfied at some instant of the window
    resolves, and not later than that. *)
Lemma stage_held_resolves (timeoutMs : N) (st : stage) (w : world S) (u : N) :
  (clock w <= u <= clock w + timeoutMs)%N ->
  stageHolds (doc w) u st = true ->
  exists u', (u' <= u)%N
             /\ snd (stagePromise timeoutMs st w) = Resolved u' (stageName st).
Proof.
  intros Hu Hst.
  assert (Hs : supported st) by (destruct st; [exact I | exact I | discriminate]).
  rewrite (stagePromise_fate timeoutMs st w Hs).
  destruct (firstTrue (fun t => stageHolds (doc w) t st) (clock w)
              (N.to_nat timeoutMs)) as [u' |] eqn:Ef.
  - exists u'. split; [| reflexivity].
    apply firstTrue_Some in Ef as (_ & _ & Hb).
    destruct (N.le_gt_cases u' u) as [Hle | Hgt]; [assumption |].
    rewrite Hb in Hst by lia. discriminate.
  - rewrite (firstTrue_None _ _ _ Ef u) in Hst by (rewrite N2Nat.id; lia).
    discriminate.
Qed.

Lemma raceStages_answer (stages : list stage) (timeoutMs : N) (w : world S) :
  match snd (raceStages stages timeoutMs w) with
  | Resolved t name =>
      (clock w <= t <= clock w + timeoutMs)%N
      /\ (exists st, In st stages /\ stageName st = name
                     /\ stageHolds (doc w) t st = true)
      /\ (forall st u, In st stages -> (clock w <= u < t)%N ->
                       stageHolds (doc w) u st = false)
  | Rejected t e =>
      (e = UnsupportedStageType /\ t = clock w
       /\ exists st, In st stages /\ ~ supported st)
      \/ (e = TimeoutError timeoutMs /\ t = (clock w + timeoutMs)%N
          /\ forall st u, In st stages -> (clock w <= u < t)%N ->
                          stageHolds (doc w) u st = false)
  | Pending => stages = []
  end.
Proof.
  rewrite raceStages_fate.
  set (fs := map (fun st => snd (stagePromise timeoutMs st w)) stages).
  assert (Hquiet : forall t,
             settledAt (fate_race fs) = Some t ->
             (t <= clock w + timeoutMs)%N ->
             forall st u, In st stages -> (clock w <= u < t)%N ->
                          stageHolds (doc w) u st = false).
  { intros t Et Ht st u Hin Hu.
    destruct (stageHolds (doc w) u st) eqn:Hst; [exfalso | reflexivity].
    destruct (stage_held_resolves timeoutMs st w u) as (u' & Hle & Eu');
      [lia | assumption |].
    assert (Hf : In (Resolved u' (stageName st)) fs).
    { rewrite <- Eu'. unfold fs.
      apply (in_map (fun st => snd (stagePromise timeoutMs st w))), Hin. }
    pose proof (fate_race_earliest fs t Et _ u' Hf eq_refl). lia. }
  destruct (fate_race fs) as [t name | t e |] eqn:E.
  - assert (Hin : In (Resolved t name) fs).
    { rewrite <- E. apply (fate_race_settled fs t). now rewrite E. }
    unfold fs in Hin. apply in_map_iff in Hin as (st & Est & Hst).
    destruct st as [n sels | n sel txt | n ty]; [| | discriminate Est].
    + rewrite stagePromise_fate in Est by exact I.
      destruct (firstTrue _ _ _) as [t' |] eqn:Ef; [| discriminate].
      injection Est as <- <-.
      apply firstTrue_Some in Ef as (Hr & Fu & _). rewrite N2Nat.id in Hr.
      split; [lia | split].
      * exists (selectorsStage n sels). auto.
      * apply Hquiet; [reflexivity | lia].
    + rewrite stagePromise_fate in Est by exact I.
      destruct (firstTrue _ _ _) as [t' |] eqn:Ef; [| discriminate].
      injection Est as <- <-.
      apply firstTrue_Some in Ef as (Hr & Fu & _). rewrite N2Nat.id in Hr.
      split; [lia | split].
      * exists (textStage n sel txt). auto.
      * apply Hquiet; [reflexivity | lia].
  - assert (Hin : In (Rejected t e) fs).
    { rewrite <- E. apply (fate_race_settled fs t). now rewrite E. }
    unfold fs in Hin. apply in_map_iff in Hin as (st & Est & Hst).
    destruct st as [n sels | n sel txt | n ty].
    + right. rewrite stagePromise_fate in Est by exact I.
      destruct (firstTrue _ _ _) as [t' |] eqn:Ef; [discriminate |].
      injection Est as <- <-.
      split; [reflexivity | split; [reflexivity |]].
      apply Hquiet; [reflexivity | lia].
    + right. rewrite stagePromise_fate in Est by exact I.
      destruct (firstTrue _ _ _) as [t' |] eqn:Ef; [discriminate |].
      injection Est as <- <-.
      split; [reflexivity | split; [reflexivity |]].
      apply Hquiet; [reflexivity | lia].
    + left. simpl in Est. injection Est as <- <-.
      split; [reflexivity | split; [reflexivity |]].
      exists (otherStage n ty). split; [assumption | intros []].
  - destruct stages as [| st stages']; [reflexivity | exfalso].
    assert (Hp : settledAt (snd (stagePromise timeoutMs st w)) = None).
    { apply (fate_race_pending fs); [now rewrite E | left; reflexivity]. }
    destruct st as [n sels | n sel txt | n ty]; simpl in Hp;
      try destruct (firstTrue _ _ _); discriminate.
Qed.

(** What the detector can answer, and when, for a positive timeout and
    stages that are all of the two supported kinds or none of which is
    satisfied at the very instant of the call.  It resolves with the
    name of a listed stage, at an instant of the window at which that
    stage is satisfied and before which no listed stage was; it rejects
    either at once, for a stage of unknown type, or at the deadline with
    the timeout error, no listed stage having been satisfied before; it
    stays pending for an empty array only.  And a stage of unknown type
    makes it reject at once, whatever the other stages are. *)
Theorem raceStages_sound (stages : list stage) (timeoutMs : N) (w : world S) :
  (0 < timeoutMs)%N ->
  Forall supported stages
  \/ (forall st, In st stages -> stageHolds (doc w) (clock w) st = false) ->
  match snd (raceStages stages timeoutMs w) with
  | Resolved t name =>
      (clock w <= t <= clock w + timeoutMs)%N
      /\ (exists st, In st stages /\ stageName st = name
                     /\ stageHolds (doc w) t st = true)
      /\ (forall st u, In st stages -> (clock w <= u < t)%N ->
                       stageHolds (doc w) u st = false)
  | Rejected t e =>
      (e = UnsupportedStageType /\ t = clock w
       /\ exists st, In st stages /\ ~ supported st)
      \/ (e = TimeoutError timeoutMs /\ t = (clock w + timeoutMs)%N
          /\ forall st u, In st stages -> (clock w <= u < t)%N ->
                          stageHolds (doc w) u st = false)
  | Pending => stages = []
  end
  /\ ((exists st, In st stages /\ ~ supported st) ->
      snd (raceStages stages timeoutMs w)
      = Rejected (clock w) UnsupportedStageType).
Proof.
  intros Hpos Hfaithful. split; [exact (raceStages_answer stages timeoutMs w) |].
  intros (st & Hin & Hst).
  assert (Hquiet : forall st', In st' stages ->
                               stageHolds (doc w) (clock w) st' = false).
  { destruct Hfaithful as [Hsup | Hq]; [| exact Hq].
    rewrite List.Forall_forall in Hsup. destruct (Hst (Hsup st Hin)). }
  assert (Hf : In (Rejected (clock w) UnsupportedStageType)
                  (map (fun st => snd (stagePromise timeoutMs st w)) stages)).
  { destruct st as [n sels | n sel txt | n ty];
      [destruct Hst; exact I | destruct Hst; exact I |].
    apply in_map_iff. exists (otherStage n ty). split; [reflexivity | exact Hin]. }
  pose proof (raceStages_answer stages timeoutMs w) as Hans.
  pose proof (fate_race_earliest
                (map (fun st => snd (stagePromise timeoutMs st w)) stages))
    as Hearly.
  rewrite <- raceStages_fate in Hearly.
  destruct (snd (raceStages stages timeoutMs w)) as [t name | t e |].
  - exfalso. destruct Hans as (Ht & (st' & Hin' & _ & Hh) & _).
    pose proof (Hearly t eq_refl _ (clock w) Hf eq_refl) as Hle.
    assert (t = clock w) by lia. subst t.
    rewrite (Hquiet st' Hin') in Hh. discriminate.
  - destruct Hans as [(-> & -> & _) | (_ & -> & _)]; [reflexivity |].
    exfalso.
    pose proof (Hearly _ eq_refl _ (clock w) Hf eq_refl) as Hle. lia.
  - subst stages. destruct Hin.
Qed.

End MoreRaceFacts.

(** The stages [A] and [B] with a stage of unknown type between them,
    none being satisfied at the instant of the call. *)
Lemma raceStages_sound_witness :
  snd (raceStages [stageA; otherStage "C" "xpath"; stageB] 10
         (World bBeforeA 0))
  = Rejected 0 UnsupportedStageType.
Proof.
  destruct (raceStages_sound [stageA; otherStage "C" "xpath"; stageB] 10
              (World bBeforeA 0)) as (_ & Hunknown).
  - reflexivity.
  - right. intros st [<- | [<- | [<- | []]]]; reflexivity.
  - apply Hunknown. exists (otherStage "C" "xpath").
    split; [right; left; reflexivity | intros []].
Defined.

(** ** How the run ends *)

Section ExitFacts.
Context {S : Type} `{Surface S}.
Variable p : process.

Lemma bind_result_returned {A B} (m : M S A) (k : A -> M S B) (w : world S)
    (b : B) :
  result (bind m k w) = Returned b ->
  exists a, result (m w) = Returned a
            /\ result (k a (after (m w))) = Returned b
            /\ after (bind m k w) = after (k a (after (m w))).
Proof.
  unfold bind. destruct (result (m w)) as [a | e |]; cbn [result after];
    [| discriminate..].
  intros E. exists a. auto.
Qed.

Lemma try_ret_result {A} (m : M S A) (a : A) (w : world S) :
  result (try_ m (fun _ => ret a) w)
  = match result (m w) with Thrown _ => Returned a | o => o end.
Proof.
  unfold try_. destruct (result (m w)) eqn:E; cbn [result ret]; now rewrite ?E.
Qed.

Lemma bind_result {A B} (m : M S A) (k : A -> M S B) (w : world S) :
  result (bind m k w)
  = match result (m w) with
    | Returned a => result (k a (after (m w)))
    | Thrown e => Thrown e
    | Suspended => Suspended
    end.
Proof. unfold bind. destruct (result (m w)); reflexivity. Qed.

Lemma try_suspended {A} (m : M S A) (h : error -> M S A) (w : world S) :
  result (m w) = Suspended -> try_ m h w = m w.
Proof. intros E. unfold try_. now rewrite E. Qed.

(** The frame of [main] around any [try] block [m] ends with code 0 or
    1, or is left suspended; nothing escapes it. *)
Lemma frame_outcome (m : M S unit) (w : world S) :
  forall r,
    r = try_ (bind (perform launch) (fun _ =>
                bind (try_ (bind m (fun _ => ret 0)) (fun _ => ret 1))
                     (fun exitCode =>
                        bind (try_ (perform close) (fun _ => ret tt))
                             (fun _ => ret exitCode))))
             (fun _ => ret 1) w ->
    result r = Returned 0 \/ result r = Returned 1 \/ result r = Suspended.
Proof.
  intros r ->. rewrite try_ret_result, bind_result.
  destruct (result (perform launch w)) as [[] | e |]; auto.
  rewrite bind_result, try_ret_result, bind_result.
  set (w1 := after (perform launch w)).
  generalize (after (try_ (bind m (fun _ => ret 0)) (fun _ => ret 1) w1)).
  intros w2. destruct (close_quietly w2) as (_ & Rc & _).
  destruct (result (m w1)) as [[] | e |]; cbn [result ret]; auto;
    rewrite bind_result; destruct Rc as [-> | ->]; cbn [result ret]; auto.
Qed.

(** Whatever the browser, the page and the sheet do, [main] lets no
    error escape: it hands code 0 or code 1 to [process.exit], or it is
    left suspended and never calls [process.exit]. *)
Theorem main_exit_code (w : world S) :
  result (main p w) = Returned 0
  \/ result (main p w) = Returned 1
  \/ result (main p w) = Suspended.
Proof. exact (frame_outcome (session p) w (main p w) eq_refl). Qed.

(** The frame of [main] around any [try] block [m] that settles: the
    browser is closed last. *)
Lemma frame_closes (m : M S unit) (w : world S) :
  result (perform launch w) = Returned tt ->
  result (m (after (perform launch w))) <> Suspended ->
  forall r,
    r = try_ (bind (perform launch) (fun _ =>
                bind (try_ (bind m (fun _ => ret 0)) (fun _ => ret 1))
                     (fun exitCode =>
                        bind (try_ (perform close) (fun _ => ret tt))
                             (fun _ => ret exitCode))))
             (fun _ => ret 1) w ->
    trace r
    = trace (perform launch w)
      ++ trace (m (after (perform launch w))) ++ [Called close].
Proof.
  intros El Hs r Hr.
  destruct (result (m (after (perform launch w)))) as [[] | e |] eqn:Em.
  - rewrite Hr. unfold try_ at 1. cbv zeta.
    rewrite (bind_returned (perform launch) _ w tt El).
    set (w1 := after (perform launch w)) in *.
    assert (Hcode : try_ (bind m (fun _ => ret 0)) (fun _ => ret 1) w1
                    = Run (trace (m w1)) (after (m w1)) (Returned 0)).
    { rewrite (try_returned _ _ w1 0)
        by (now rewrite (bind_returned _ _ w1 tt Em)).
      rewrite (bind_returned _ _ w1 tt Em). cbn [trace after result ret].
      now rewrite app_nil_r. }
    rewrite (bind_returned _ _ w1 0) by (now rewrite Hcode).
    rewrite Hcode. cbn [trace after result].
    destruct (close_quietly (after (m w1))) as (Tc & Rc & _).
    assert (Tx : trace (bind (try_ (perform close) (fun _ => ret tt))
                             (fun _ => ret 0) (after (m w1)))
                 = [Called close]).
    { unfold bind. destruct Rc as [Rc | Rc]; rewrite Rc, Tc;
        cbn [trace after result ret]; rewrite ?app_nil_r; reflexivity. }
    assert (Rx : result (bind (try_ (perform close) (fun _ => ret tt))
                              (fun _ => ret 0) (after (m w1))) = Returned 0
                 \/ result (bind (try_ (perform close) (fun _ => ret tt))
                                 (fun _ => ret 0) (after (m w1))) = Suspended).
    { rewrite bind_result. destruct Rc as [-> | ->]; cbn [result ret]; auto. }
    destruct Rx as [Rx | Rx]; rewrite Rx; cbn [trace]; now rewrite Tx.
  - now destruct (frame_aborted m w e El Em r Hr) as (Ht & _).
  - now destruct Hs.
Qed.

(** Once the browser is launched, and unless the run is suspended for
    good (review mode, or a call that never returns), the last thing
    [main] does is to close the browser, whether the records were
    processed or an error ended the run. *)
Theorem main_closes_browser (w : world S) :
  result (perform launch w) = Returned tt ->
  result (session p (after (perform launch w))) <> Suspended ->
  trace (main p w)
  = trace (perform launch w)
    ++ trace (session p (after (perform launch w))) ++ [Called close].
Proof.
  intros El Hs.
  exact (frame_closes (session p) w El Hs (main p w) eq_refl).
Qed.

(** When the browser cannot be launched the process exits with code 1,
    having done nothing else: there is no browser to close. *)
Theorem launch_failure_exits_one (w : world S) (e : error) :
  result (perform launch w) = Thrown e ->
  main p w = Run [Called launch] (after (perform launch w)) (Returned 1).
Proof.
  intros El. unfold main.
  rewrite (try_thrown _ _ w e) by (now rewrite (bind_thrown _ _ w e El)).
  rewrite (bind_thrown _ _ w e El). cbn [trace after result ret].
  rewrite app_nil_r. f_equal. apply (perform_trace launch w).
Qed.

End ExitFacts.

Lemma main_closes_browser_witness :
  trace (main bookingAuto (World guardFailsSheet 0))
  = trace (perform launch (World guardFailsSheet 0))
    ++ trace (session bookingAuto
                (after (perform launch (World guardFailsSheet 0))))
    ++ [Called close].
Proof.
  apply (main_closes_browser bookingAuto (World guardFailsSheet 0)).
  - reflexivity.
  - vm_compute. discriminate.
Defined.

Lemma launch_failure_exits_one_witness :
  main bookingAuto
       (World {| sheet := [sampleRecord];
                 shows _ _ := true;
                 cardReadBack := "";
                 statusNode := None;
                 failing c := match c with launch => true | _ => false end |}
              0)
  = Run [Called launch]
        (after (perform launch
                  (World {| sheet := [sampleRecord];
                            shows _ _ := true;
                            cardReadBack := "";
                            statusNode := None;
                            failing c :=
                              match c with launch => true | _ => false end |}
                         0)))
        (Returned 1).
Proof.
  apply (launch_failure_exits_one bookingAuto _ (Failure "scripted failure")).
  reflexivity.
Defined.

(** ** More on the result poller *)

Lemma statusWrites_app (tr1 tr2 : list event) :
  statusWrites (tr1 ++ tr2) = statusWrites tr1 ++ statusWrites tr2.
Proof.
  induction tr1 as [| e tr1 IH]; [reflexivity |].
  destruct e as [c t | c | ms]; cbn; try exact IH.
  destruct c; cbn; try exact IH. now rewrite IH.
Qed.

Lemma statusWrites_noWrite (tr : list event) :
  Forall noWrite tr -> statusWrites tr = [].
Proof.
  induction 1 as [| e tr He _ IH]; [reflexivity |].
  destruct e as [c t | c | ms]; cbn; try exact IH.
  destruct c; cbn; try exact IH. now destruct (He rowIndexZeroBased statusValue).
Qed.

Ltac quiet_side :=
  solve [ assumption | unfold noWrite; intros; discriminate ].

Ltac quiet_step :=
  lazymatch goal with
  | |- emits _ (ret _) => apply emits_ret
  | |- emits _ (throw _) => apply emits_throw
  | |- emits _ Date_now => apply emits_Date_now
  | |- emits _ forever => apply emits_forever
  | |- emits _ (bind _ _) => apply emits_bind; [| intro]
  | |- emits _ (try_ _ _) => apply emits_try; [| intro]
  | |- emits _ (await _) => apply emits_await
  | |- emits _ (perform ?c) => apply (emits_perform _ c); quiet_side
  | |- emits _ (sleep _) => apply emits_sleep; quiet_side
  | |- issues _ (waitFor _ _) => apply issues_waitFor; quiet_side
  | |- issues _ (then_ _ _) => apply issues_then
  | |- issues _ (catch_ _ _) => apply issues_catch
  | |- issues _ (Promise_reject _) => apply issues_reject
  | |- issues _ (Promise_race _) => apply issues_race
  | |- issues _ (Promise_all _) => apply issues_all
  | |- Forall _ (_ :: _) => constructor
  | |- Forall _ [] => constructor
  | |- emits _ (if ?b then _ else _) => destruct b
  | |- emits _ (match ?b with _ => _ end) => destruct b
  end.

Section MorePollerFacts.
Context {S : Type} `{Surface S}.
Variable p : process.

(** What the loop of the poller can end with, and when. *)
Lemma statusLoop_outcome (fuel : nat) (start timeoutMs : N) :
  forall (lastSeen : string) (w : world S),
    (start <= clock w)%N ->
    match result (statusLoop fuel start timeoutMs lastSeen w) with
    | Returned text => text <> "" /\ JS.trim text = text
    | Thrown _ =>
        (start + timeoutMs
         < clock (after (statusLoop fuel start timeoutMs lastSeen w)))%N
    | Suspended => True
    end.
Proof.
  induction fuel as [| fuel IH]; intros lastSeen w Hstart; [exact I |].
  rewrite statusLoop_step.
  destruct (respond evaluateStatusText (doc w) (clock w))
    as [[d el | d e' |] s']; [| | exact I].
  - destruct (polled el) as [| c text] eqn:Ep.
    + destruct (timeoutMs <? clock w + d - start)%N eqn:Hd; cbn [result after].
      * apply N.ltb_lt in Hd. cbn [clock]. lia.
      * apply IH. cbn [clock]. lia.
    + cbn [result]. split; [discriminate |].
      destruct el as [content |]; [| discriminate].
      cbn [polled] in Ep. rewrite <- Ep. apply trim_idem.
  - destruct (timeoutMs <? clock w + d - start)%N eqn:Hd; cbn [result after].
    + apply N.ltb_lt in Hd. cbn [clock]. lia.
    + apply IH. cbn [clock]. lia.
Qed.

Lemma waitForStatusText_result (timeoutMs : N) (w : world S) :
  match result (waitForStatusText timeoutMs w) with
  | Returned text => text <> "" /\ JS.trim text = text
  | Thrown e =>
      e = StatusTimedOut timeoutMs ""
      /\ (clock w + timeoutMs < clock (after (waitForStatusText timeoutMs w)))%N
  | Suspended => True
  end.
Proof.
  pose proof (waitForStatusText_thrown timeoutMs w) as Hthrown.
  unfold waitForStatusText in *.
  rewrite bind_skip with (a := clock w) in * by reflexivity.
  pose proof (statusLoop_outcome (N.to_nat (timeoutMs / 1000) + 2) (clock w)
                timeoutMs "" w (N.le_refl _)) as Hout.
  destruct (result (statusLoop _ _ _ _ w)) as [text | e |];
    [exact Hout | | exact I].
  split; [now apply Hthrown | exact Hout].
Qed.

(** The poller hands back nothing but a non-empty text without white
    space around it; it fails with its own timeout error only, whose
    [last seen] part is always empty, and only once the deadline has
    passed. *)
Theorem waitForStatusText_outcome (timeoutMs : N) (w : world S) :
  match result (waitForStatusText timeoutMs w) with
  | Returned text => text <> "" /\ JS.trim text = text
  | Thrown e =>
      e = StatusTimedOut timeoutMs ""
      /\ (clock w + timeoutMs < clock (after (waitForStatusText timeoutMs w)))%N
  | Suspended => True
  end.
Proof. exact (waitForStatusText_result timeoutMs w). Qed.

Lemma emits_captureStatus_quiet : emits noWrite (captureStatus (S := S) p).
Proof.
  unfold captureStatus.
  repeat first [ apply emits_waitForStatusText; quiet_side | quiet_step ].
Qed.

Lemma emits_backToTransactions_quiet :
  emits noWrite (backToTransactions (S := S)).
Proof.
  unfold backToTransactions, waitForAnySelector. repeat quiet_step.
Qed.

(** The capture of the status never fails: it hands back a text, or is
    suspended on a call that never returns.  The text is the empty
    string or a non-empty text without white space around it. *)
Lemma captureStatus_outcome (w : world S) :
  match result (captureStatus p w) with
  | Returned text => text = "" \/ (text <> "" /\ JS.trim text = text)
  | Thrown _ => False
  | Suspended => True
  end.
Proof.
  unfold captureStatus. set (T := STATUS_WAIT_TIMEOUT_MS p).
  pose proof (waitForStatusText_result T w) as H1.
  destruct (result (waitForStatusText T w)) as [text | e |] eqn:E1.
  - rewrite (try_returned _ _ w text E1), E1. now right.
  - rewrite (try_thrown _ _ w e E1). cbn [result].
    set (w1 := after (waitForStatusText T w)).
    rewrite (bind_returned (sleep 2000) _ w1 tt eq_refl). cbn [result].
    set (w2 := after (sleep 2000 w1)).
    pose proof (waitForStatusText_result T w2) as H2.
    destruct (result (waitForStatusText T w2)) as [text | e2 |] eqn:E2.
    + rewrite (try_returned _ _ w2 text E2), E2. now right.
    + rewrite (try_thrown _ _ w2 e2 E2). cbn [result ret]. now left.
    + now rewrite (try_suspended _ _ w2 E2), E2.
  - now rewrite (try_suspended _ _ w E1), E1.
Qed.

(** Once a status is captured, that very text is written at the
    record's row, once, and nothing else is written, whether the write
    succeeds or not; the text is empty or a non-empty text without white
    space around it. *)
Theorem persistStatus_writes_captured (idx : nat) (w : world S) (text : string) :
  result (captureStatus p w) = Returned text ->
  statusWrites (trace (persistStatus p idx w)) = [(idx, text)]
  /\ (text = "" \/ (text <> "" /\ JS.trim text = text)).
Proof.
  intros Ecap. split.
  - unfold persistStatus. rewrite (bind_returned _ _ w text Ecap).
    cbn [trace]. rewrite statusWrites_app.
    rewrite (statusWrites_noWrite _ (emits_captureStatus_quiet w)).
    set (w1 := after (captureStatus p w)).
    pose proof (perform_trace (writeStatusToExcel idx text) w1) as Ht.
    unfold bind.
    destruct (result (try_ (perform (writeStatusToExcel idx text))
                           (fun _ => ret tt) w1)) as [[] | e |] eqn:Ew;
      cbn [trace]; rewrite ?statusWrites_app, try_ret_trace, Ht;
      try reflexivity.
    cbn [statusWrites app].
    now rewrite (statusWrites_noWrite _ (emits_backToTransactions_quiet _)).
  - pose proof (captureStatus_outcome w) as Hout. now rewrite Ecap in Hout.
Qed.

End MorePollerFacts.

Lemma persistStatus_writes_captured_witness :
  statusWrites (trace (persistStatus bookingAuto 3 (World truncatingField 0)))
  = [(3, "Authorized")]
  /\ ("Authorized" = ""
      \/ ("Authorized" <> "" /\ JS.trim "Authorized" = "Authorized")).
Proof.
  apply (persistStatus_writes_captured bookingAuto 3 (World truncatingField 0)
           "Authorized").
  vm_compute. reflexivity.
Defined.

(** ** The form fill *)

Ltac step_with side :=
  lazymatch goal with
  | |- emits _ (ret _) => apply emits_ret
  | |- emits _ (throw _) => apply emits_throw
  | |- emits _ Date_now => apply emits_Date_now
  | |- emits _ forever => apply emits_forever
  | |- emits _ (bind _ _) => apply emits_bind; [| intro]
  | |- emits _ (try_ _ _) => apply emits_try; [| intro]
  | |- emits _ (await _) => apply emits_await
  | |- emits _ (perform ?c) => apply (emits_perform _ c); side
  | |- emits _ (sleep _) => apply emits_sleep; side
  | |- issues _ (waitFor _ _) => apply issues_waitFor; side
  | |- issues _ (then_ _ _) => apply issues_then
  | |- issues _ (catch_ _ _) => apply issues_catch
  | |- issues _ (Promise_reject _) => apply issues_reject
  | |- issues _ (Promise_race _) => apply issues_race
  | |- issues _ (Promise_all _) => apply issues_all
  | |- Forall _ (_ :: _) => constructor
  | |- Forall _ [] => constructor
  | |- emits _ (if ?b then _ else _) => destruct b
  | |- emits _ (match ?b with _ => _ end) => destruct b
  end.

(** The event types nothing, or into another field, or the text
    expected. *)
Ltac typed_side :=
  cbv beta; repeat split; unfold typesOnly;
  let E := fresh "E" in
  intros ? ? E;
  first [ discriminate E
        | injection E; intros; subst;
          first [ reflexivity
                | match goal with
                  | Hs : _ = _ |- _ => vm_compute in Hs; discriminate Hs
                  end ] ].

(** The event is no call on the field. *)
Ltac alone_side :=
  cbv beta; repeat split; cbn [leavesAlone touches];
  first [ exact I
        | let E := fresh "E" in
          intros E; first [ contradiction | vm_compute in E; discriminate E ] ].

Section FormFacts.
Context {S : Type} `{Surface S}.
Variable p : process.

(** Whatever the record holds, what is typed into the cardholder name,
    the billing postal code and the billing first name is the constant
    of the brand; nothing of the sheet goes there. *)
Theorem fillForm_brand_constants (r : row) :
  emits (fun e =>
           typesOnly FORM_SELECTORS.cardholderName
             (match BRAND p with
              | agoda => "Agoda Ltd." | booking => "BOOKING.COM" end) e
           /\ typesOnly FORM_SELECTORS.billingPostalCode
                (match BRAND p with agoda => "80525" | booking => "10118" end) e
           /\ typesOnly FORM_SELECTORS.billingFirstName
                (match BRAND p with
                 | agoda => "Agoda Company Pte Ltd."
                 | booking => "Booking.com" end) e)
        (fillForm (S := S) p r).
Proof.
  unfold fillForm, fillCardNumber, skipPremiumFraud, typeInto. cbv zeta.
  cbn [cardholderName billingPostalCode billingCountryName formValuesOf].
  repeat step_with typed_side.
Qed.

(** For the brand booking the street and the region of the billing
    address are left alone: no call of the form fill acts on them. *)
Theorem fillForm_booking_address (r : row) :
  BRAND p = booking ->
  emits (fun e => leavesAlone FORM_SELECTORS.billingStreet e
                  /\ leavesAlone FORM_SELECTORS.billingRegion e)
        (fillForm (S := S) p r).
Proof.
  intros Hb.
  unfold fillForm, fillCardNumber, skipPremiumFraud, typeInto. cbv zeta.
  rewrite Hb. cbv iota.
  repeat step_with alone_side.
Qed.

(** A field for which the sheet gives nothing is left alone: no call of
    the form fill acts on it, so that what the page put there stays. *)
Theorem blank_field_left_alone (r : row) (sel : string) :
  In (sel, "") (sheetFields (formValuesOf p r)) ->
  emits (leavesAlone sel) (fillForm (S := S) p r).
Proof.
  intros Hin. unfold sheetFields in Hin.
  unfold fillForm, fillCardNumber, skipPremiumFraud, typeInto. cbv zeta.
  repeat (destruct Hin as [Hin | Hin];
          [pose proof (f_equal fst Hin) as Hs; pose proof (f_equal snd Hin) as Hv;
           cbn [fst snd] in Hs, Hv; subst sel; rewrite Hv; cbn [JS.truthy];
           repeat step_with alone_side |]).
  destruct Hin.
Qed.

(** A box that reads checked is not clicked: the script reads it once
    and does nothing else. *)
Theorem skipPremiumFraud_checked (w : world S) (d : N) :
  fst (respond (evalChecked FORM_SELECTORS.skipPremiumFraudCheckbox)
               (doc w) (clock w)) = Done d true ->
  trace (skipPremiumFraud w)
  = [Called (evalChecked FORM_SELECTORS.skipPremiumFraudCheckbox)]
  /\ result (skipPremiumFraud w) = Returned tt.
Proof.
  intros Hr.
  assert (Hp : perform (evalChecked FORM_SELECTORS.skipPremiumFraudCheckbox) w
               = Run [Called (evalChecked
                                FORM_SELECTORS.skipPremiumFraudCheckbox)]
                     (World (snd (respond
                                    (evalChecked
                                       FORM_SELECTORS.skipPremiumFraudCheckbox)
                                    (doc w) (clock w)))
                            (clock w + d))
                     (Returned true)).
  { unfold perform.
    destruct (respond (evalChecked FORM_SELECTORS.skipPremiumFraudCheckbox)
                (doc w) (clock w)) as [rep s'].
    cbn [fst] in Hr. now rewrite Hr. }
  unfold skipPremiumFraud. cbv zeta.
  rewrite (bind_returned _ _ w true)
    by (rewrite (try_returned _ _ w true); now rewrite Hp).
  rewrite (try_returned _ _ w true) by (now rewrite Hp).
  rewrite Hp. cbn. split; reflexivity.
Qed.

End FormFacts.

Lemma fillForm_booking_address_witness :
  Forall (fun e => leavesAlone FORM_SELECTORS.billingStreet e
                   /\ leavesAlone FORM_SELECTORS.billingRegion e)
         (trace (fillForm bookingAuto sampleRecord (World truncatingField 0))).
Proof.
  apply (fillForm_booking_address bookingAuto sampleRecord).
  reflexivity.
Defined.

Lemma blank_field_left_alone_witness :
  Forall (leavesAlone FORM_SELECTORS.amount)
         (trace (fillForm bookingAuto [("CVV", "123")] (World truncatingField 0))).
Proof.
  apply (blank_field_left_alone bookingAuto [("CVV", "123")]
           FORM_SELECTORS.amount).
  vm_compute. right. left. reflexivity.
Defined.

Lemma skipPremiumFraud_checked_witness :
  trace (skipPremiumFraud (World allChecked 0))
  = [Called (evalChecked FORM_SELECTORS.skipPremiumFraudCheckbox)]
  /\ result (skipPremiumFraud (World allChecked 0)) = Returned tt.
Proof.
  apply (skipPremiumFraud_checked (World allChecked 0) 0).
  reflexivity.
Defined.

(** ** Reaching the form *)

Section NavigationFacts.
Context {S : Type} `{Surface S}.
Variable p : process.

(** The wait for a condition, awaited. *)
Lemma await_waitFor (c : cond) (timeoutMs : N) (w : world S) :
  await (waitFor c timeoutMs) w
  = match firstTrue (fun t => holds (doc w) t c) (clock w)
                    (N.to_nat timeoutMs) with
    | Some t => Run [Waiting c timeoutMs] (World (doc w) t) (Returned tt)
    | None =>
        Run [Waiting c timeoutMs] (World (doc w) (clock w + timeoutMs))
            (Thrown (TimeoutError timeoutMs))
    end.
Proof.
  unfold await, waitFor. now destruct (firstTrue _ _ _).
Qed.

(** An awaited wait that returns has seen its condition hold. *)
Lemma await_waitFor_returned (c : cond) (timeoutMs : N) (w : world S) :
  result (await (waitFor c timeoutMs) w) = Returned tt ->
  exists t, (clock w <= t <= clock w + timeoutMs)%N
            /\ holds (doc w) t c = true
            /\ after (await (waitFor c timeoutMs) w) = World (doc w) t.
Proof.
  rewrite await_waitFor.
  destruct (firstTrue _ _ _) as [t |] eqn:Ef; [| discriminate].
  intros _. exists t. apply firstTrue_Some in Ef as (Hr & Hh & _).
  rewrite N2Nat.id in Hr. auto.
Qed.

(** Awaiting a promise leaves the page as it is. *)
Lemma await_doc {A} (q : @promise S A) (w : world S) :
  doc (after (await q w)) = doc w.
Proof. unfold await. now destruct (q w) as [tr [t a | t e |]]. Qed.

(** A wait whose failure is caught resolves within its window. *)
Lemma caught_fate (c : cond) (timeoutMs : N) (w : world S) :
  exists t, (clock w <= t <= clock w + timeoutMs)%N
            /\ snd (catch_ (waitFor c timeoutMs) (fun _ => tt) w)
               = Resolved t tt.
Proof.
  unfold catch_, waitFor. cbn [snd fate_catch].
  destruct (firstTrue _ _ _) as [t |] eqn:Ef; cbn [fate_catch].
  - exists t. apply firstTrue_Some in Ef as (Hr & _). rewrite N2Nat.id in Hr.
    auto.
  - exists (clock w + timeoutMs)%N. split; [lia | reflexivity].
Qed.

(** The three secondary fields cost thirty seconds at most, and their
    absence is no failure. *)
Lemma secondary_inputs (w : world S) :
  result (bind (await (Promise_all
                         [ catch_ (waitFor (selectorPresent FORM_SELECTORS.amount)
                                           30000) (fun _ => tt);
                           catch_ (waitFor (selectorPresent FORM_SELECTORS.orderId)
                                           30000) (fun _ => tt);
                           catch_ (waitFor (selectorPresent
                                              FORM_SELECTORS.cardNumber) 30000)
                                  (fun _ => tt) ]))
               (fun _ => sleep 400) w) = Returned tt
  /\ (clock (after (bind (await (Promise_all
                         [ catch_ (waitFor (selectorPresent FORM_SELECTORS.amount)
                                           30000) (fun _ => tt);
                           catch_ (waitFor (selectorPresent FORM_SELECTORS.orderId)
                                           30000) (fun _ => tt);
                           catch_ (waitFor (selectorPresent
                                              FORM_SELECTORS.cardNumber) 30000)
                                  (fun _ => tt) ]))
               (fun _ => sleep 400) w))
      <= clock w + 30400)%N.
Proof.
  destruct (caught_fate (selectorPresent FORM_SELECTORS.amount) 30000 w)
    as (t1 & H1 & E1).
  destruct (caught_fate (selectorPresent FORM_SELECTORS.orderId) 30000 w)
    as (t2 & H2 & E2).
  destruct (caught_fate (selectorPresent FORM_SELECTORS.cardNumber) 30000 w)
    as (t3 & H3 & E3).
  set (q := Promise_all _).
  assert (Eq : snd (q w)
               = Resolved (N.max t1 (N.max t2 (N.max t3 (clock w)))) [tt; tt; tt]).
  { unfold q, Promise_all. cbn [snd map]. rewrite E1, E2, E3. reflexivity. }
  assert (Ea : result (await q w) = Returned [tt; tt; tt]
               /\ clock (after (await q w))
                  = N.max t1 (N.max t2 (N.max t3 (clock w)))).
  { unfold await. destruct (q w) as [tr f]. cbn [snd] in Eq. rewrite Eq.
    split; reflexivity. }
  destruct Ea as (Ra & Ca).
  rewrite (bind_returned _ _ w _ Ra). cbn [result after sleep clock].
  split; [reflexivity | rewrite Ca; lia].
Qed.

(** The readiness check of the form settles, whatever the page does.  It
    returns within 91.9 seconds, or fails with the timeout error of the
    merchant account field, which then was absent during the two
    thirty-second windows; the three secondary fields never make it
    fail. *)
Theorem ensureCriticalInputs_settles (w : world S) :
  (result (ensureCriticalInputs w) = Returned tt
   /\ (clock (after (ensureCriticalInputs w)) <= clock w + 91900)%N)
  \/ (result (ensureCriticalInputs w) = Thrown (TimeoutError 30000)
      /\ forall t,
          (clock w <= t <= clock w + 30000)%N
          \/ (clock w + 31500 <= t <= clock w + 61500)%N ->
          present (doc w) t FORM_SELECTORS.merchantAccount = false).
Proof.
  unfold ensureCriticalInputs.
  set (c := selectorPresent FORM_SELECTORS.merchantAccount).
  set (tail := bind (await (Promise_all _)) _).
  set (first_ := try_ _ _).
  assert (Hfirst :
            (result (first_ w) = Returned tt
             /\ (clock (after (first_ w)) <= clock w + 61500)%N)
            \/ (result (first_ w) = Thrown (TimeoutError 30000)
                /\ forall t,
                    (clock w <= t <= clock w + 30000)%N
                    \/ (clock w + 31500 <= t <= clock w + 61500)%N ->
                    present (doc w) t FORM_SELECTORS.merchantAccount = false)).
  { unfold first_.
    pose proof (await_waitFor c 30000 w) as E1.
    destruct (firstTrue (fun t => holds (doc w) t c) (clock w)
                (N.to_nat 30000)) as [t1 |] eqn:F1.
    - left. rewrite (try_returned _ _ w tt) by (now rewrite E1).
      rewrite E1. cbn [result after clock].
      apply firstTrue_Some in F1 as (Hr & _). rewrite N2Nat.id in Hr.
      split; [reflexivity | lia].
    - rewrite (try_thrown _ _ w (TimeoutError 30000)) by (now rewrite E1).
      rewrite E1. cbn [result after].
      set (w1 := World (doc w) (clock w + 30000)).
      rewrite (bind_returned (sleep 1500) _ w1 tt eq_refl).
      cbn [result after sleep doc clock w1].
      set (w2 := World (doc w) (clock w + 30000 + 1500)).
      pose proof (await_waitFor c 30000 w2) as E2.
      destruct (firstTrue (fun t => holds (doc w2) t c) (clock w2)
                  (N.to_nat 30000)) as [t2 |] eqn:F2.
      + left. rewrite E2. cbn [result after clock].
        apply firstTrue_Some in F2 as (Hr & _). rewrite N2Nat.id in Hr.
        cbn [clock w2] in Hr. split; [reflexivity | lia].
      + right. rewrite E2. cbn [result]. split; [reflexivity |].
        intros t [Ht | Ht].
        * apply (firstTrue_None _ _ _ F1 t). rewrite N2Nat.id. lia.
        * apply (firstTrue_None _ _ _ F2 t). rewrite N2Nat.id.
          cbn [clock w2]. lia. }
  destruct Hfirst as [(Rf & Cf) | (Rf & Habsent)].
  - left. rewrite (bind_returned _ _ w tt Rf). cbn [result after].
    destruct (secondary_inputs (after (first_ w))) as (Rt & Ct).
    fold tail in Rt, Ct. split; [exact Rt | lia].
  - right. rewrite (bind_thrown _ _ w _ Rf). cbn [result]. auto.
Qed.

(** The navigation to the form returns only once the page of a new
    transaction is recognised, by its body class or by one of its two
    headings. *)
Theorem goToNewTransaction_recognised (w : world S) :
  result (goToNewTransaction w) = Returned tt ->
  exists t,
    holds (doc (after (goToNewTransaction w))) t
          (selectorPresent "body.transactions_new") = true
    \/ holds (doc (after (goToNewTransaction w))) t newTransactionHeading = true.
Proof.
  unfold goToNewTransaction. intros Hret.
  apply bind_result_returned in Hret as (a1 & _ & Hret & ->).
  apply bind_result_returned in Hret as (a2 & _ & Hret & ->).
  apply bind_result_returned in Hret as (a3 & _ & Hret & ->).
  apply bind_result_returned in Hret as (a4 & _ & Hret & ->).
  apply bind_result_returned in Hret as (a5 & _ & Hret & ->).
  match type of Hret with
  | result (_ ?w0) = _ => set (w5 := w0) in *
  end.
  set (c := selectorPresent "body.transactions_new") in *.
  destruct (result (await (waitFor c 20000) w5)) as [[] | e |] eqn:E1.
  - rewrite (try_returned _ _ w5 tt E1).
    apply await_waitFor_returned in E1 as (t & _ & Hh & ->).
    exists t. left. exact Hh.
  - rewrite (try_thrown _ _ w5 e E1) in Hret |- *. cbn [result after] in *.
    apply bind_result_returned in Hret as (a6 & _ & Hret & ->).
    match type of Hret with
    | result (_ ?w0) = _ => set (w6 := w0) in *
    end.
    destruct a6. apply await_waitFor_returned in Hret as (t & _ & Hh & ->).
    exists t. right. exact Hh.
  - rewrite (try_suspended _ _ w5 E1), E1 in Hret. discriminate.
Qed.

(** The records are handed over only once the script has seen the login
    page and then the dashboard on the page it opened. *)
Theorem records_read_after_dashboard (w : world S) (rows : list row) :
  result (prologue p w) = Returned rows ->
  let page :=
    doc (after (bind (perform newPage)
                     (fun _ => perform
                        (goto "https://www.braintreegateway.com/login" 60000))
                     w)) in
  (exists t, holds page t (anySelector SELECTORS.login) = true)
  /\ (exists t, holds page t (anySelector SELECTORS.dashboard) = true).
Proof.
  unfold prologue. intros Hret.
  apply bind_result_returned in Hret as ([] & R1 & Hret & _).
  apply bind_result_returned in Hret as ([] & R2 & Hret & _).
  rewrite (bind_returned _ _ w tt R1). cbn [after].
  set (w2 := after (perform (goto _ _) _)) in *.
  apply bind_result_returned in Hret as ([] & R3 & Hret & _).
  unfold waitForAnySelector in R3.
  pose proof R3 as R3'.
  apply await_waitFor_returned in R3' as (t0 & _ & Hlogin & E3).
  cbv zeta. split; [now exists t0 |].
  set (w3 := after (await _ w2)) in *.
  assert (D3 : doc w3 = doc w2) by (unfold w3; apply await_doc).
  apply bind_result_returned in Hret as (firstStage & R4 & Hret & _).
  set (w4 := after (await _ w3)) in *.
  assert (D4 : doc w4 = doc w3) by (unfold w4; apply await_doc).
  apply bind_result_returned in Hret as ([] & R5 & _).
  destruct (String.eqb firstStage "otp") eqn:Eo.
  - apply bind_result_returned in R5 as (a & _ & R5 & _).
    match type of R5 with
    | result (_ ?w0) = _ => set (w5 := w0) in *
    end.
    assert (D5 : doc w5 = doc w4) by (unfold w5; apply await_doc).
    unfold waitForAnySelector in R5.
    apply await_waitFor_returned in R5 as (t & _ & Hh & _).
    exists t. now rewrite D5, D4, D3 in Hh.
  - pose proof (raceStages_answer
                  [ selectorsStage "otp" SELECTORS.otp;
                    selectorsStage "dashboard" SELECTORS.dashboard ]
                  (POST_LOGIN_WAIT_TIMEOUT_MS p) w3) as Hans.
    destruct (await_fate (raceStages
                  [ selectorsStage "otp" SELECTORS.otp;
                    selectorsStage "dashboard" SELECTORS.dashboard ]
                  (POST_LOGIN_WAIT_TIMEOUT_MS p)) w3) as (Hres & _).
    rewrite R4 in Hres.
    destruct (snd (raceStages _ _ w3)) as [t name | t e |];
      [| discriminate..].
    injection Hres as ->.
    destruct Hans as (_ & (st & Hin & Hname & Hh) & _).
    destruct Hin as [<- | [<- | []]].
    + cbn [stageName] in Hname. rewrite <- Hname in Eo. discriminate Eo.
    + exists t. cbn [stageHolds] in Hh. now rewrite D3 in Hh.
Qed.

End NavigationFacts.

Lemma goToNewTransaction_recognised_witness :
  exists t,
    holds (doc (after (goToNewTransaction (World truncatingField 0)))) t
          (selectorPresent "body.transactions_new") = true
    \/ holds (doc (after (goToNewTransaction (World truncatingField 0)))) t
             newTransactionHeading = true.
Proof.
  apply (goToNewTransaction_recognised (World truncatingField 0)).
  vm_compute. reflexivity.
Defined.

Lemma records_read_after_dashboard_witness :
  (exists t,
      holds (doc (after (bind (perform newPage)
                           (fun _ => perform
                              (goto "https://www.braintreegateway.com/login"
                                    60000))
                           (World truncatingField 0))))
            t (anySelector SELECTORS.login) = true)
  /\ (exists t,
         holds (doc (after (bind (perform newPage)
                              (fun _ => perform
                                 (goto "https://www.braintreegateway.com/login"
                                       60000))
                              (World truncatingField 0))))
               t (anySelector SELECTORS.dashboard) = true).
Proof.
  apply (records_read_after_dashboard bookingAuto (World truncatingField 0)
           [sampleRecord]).
  vm_compute. reflexivity.
Defined.

(** ** The UI runner *)

Lemma arrayIncludes_false_cons (x a : string) (arr : list string) :
  JS.arrayIncludes (a :: arr) x = false ->
  String.eqb x a = false /\ JS.arrayIncludes arr x = false.
Proof. unfold JS.arrayIncludes. cbn [existsb]. apply orb_false_elim. Qed.

(** The run the UI starts, seen from [server.js]: the brand is agoda
    exactly when the form says so, whatever the case of its letters, and
    the review mode is always given in so many words, so that agoda's
    default never applies; anything but [no-review] means review. *)
Theorem runner_starts_as_asked
    (p : process) (execPath scriptPath : string) (brand_ review : option string) :
  argv p = Runner.childArgv execPath scriptPath brand_ review ->
  JS.arrayIncludes ["--agoda"; "--review"; "--no-review"] execPath = false ->
  JS.arrayIncludes ["--agoda"; "--review"; "--no-review"] scriptPath = false ->
  BRAND p
  = (if String.eqb (Runner.field brand_ "booking") "agoda"
     then agoda else booking)
  /\ REVIEW_MODE p
     = negb (String.eqb (Runner.field review "review") "no-review").
Proof.
  intros Hargv He Hs.
  apply arrayIncludes_false_cons in He as (He1 & He).
  apply arrayIncludes_false_cons in He as (He2 & He).
  apply arrayIncludes_false_cons in He as (He3 & _).
  apply arrayIncludes_false_cons in Hs as (Hs1 & Hs).
  apply arrayIncludes_false_cons in Hs as (Hs2 & Hs).
  apply arrayIncludes_false_cons in Hs as (Hs3 & _).
  rewrite String.eqb_sym in He1, He2, He3, Hs1, Hs2, Hs3.
  unfold REVIEW_MODE, hasFlag, BRAND, JS.arrayIncludes. rewrite Hargv.
  unfold Runner.childArgv, Runner.args. cbn [app existsb].
  rewrite He1, He2, He3, Hs1, Hs2, Hs3.
  destruct (String.eqb (Runner.field brand_ "booking") "agoda");
    destruct (String.eqb (Runner.field review "review") "no-review");
    split; reflexivity.
Qed.

Lemma runner_starts_as_asked_witness :
  BRAND {| argv := Runner.childArgv "/usr/bin/node" "/app/server.js"
                     (Some "Agoda") (Some "No-Review");
           env_LOGIN_PAGE_LOAD_TIMEOUT_MS := None;
           env_POST_LOGIN_WAIT_TIMEOUT_MS := None;
           env_OTP_WAIT_TIMEOUT_MS := None;
           env_STATUS_WAIT_TIMEOUT_MS := None |}
  = (if String.eqb (Runner.field (Some "Agoda") "booking") "agoda"
     then agoda else booking)
  /\ REVIEW_MODE {| argv := Runner.childArgv "/usr/bin/node" "/app/server.js"
                              (Some "Agoda") (Some "No-Review");
                    env_LOGIN_PAGE_LOAD_TIMEOUT_MS := None;
                    env_POST_LOGIN_WAIT_TIMEOUT_MS := None;
                    env_OTP_WAIT_TIMEOUT_MS := None;
                    env_STATUS_WAIT_TIMEOUT_MS := None |}
     = negb (String.eqb (Runner.field (Some "No-Review") "review") "no-review").
Proof.
  apply (runner_starts_as_asked _ "/usr/bin/node" "/app/server.js"
           (Some "Agoda") (Some "No-Review")); reflexivity.
Defined.

Lemma append_assoc_ (a b c : string) : (a +:+ b) +:+ c = a +:+ (b +:+ c).
Proof.
  induction a as [| x a IH]; [reflexivity |].
  now rewrite !append_cons, IH.
Qed.

Lemma joinLines_app (ls ls' : list string) :
  joinLines (ls ++ ls') = joinLines ls +:+ joinLines ls'.
Proof.
  induction ls as [| l ls IH]; [reflexivity |].
  cbn [app joinLines]. now rewrite IH, append_assoc_, append_cons.
Qed.

(** Where the first line feed of a buffer is: what the loop cuts off,
    and what it keeps. *)
Lemma indexOfLF_split (buf : string) :
  forall idx,
    Runner.indexOfLF buf = Some idx ->
    buf = JS.sliceTo idx buf +:+ String Runner.LF (JS.sliceFrom (idx + 1) buf)
    /\ Runner.indexOfLF (JS.sliceTo idx buf) = None
    /\ String.length (JS.sliceFrom (idx + 1) buf) < String.length buf.
Proof.
  induction buf as [| c buf IH]; intros idx; [discriminate |].
  cbn [Runner.indexOfLF].
  destruct (Ascii.eqb c Runner.LF) eqn:Ec.
  - intros [= <-]. apply Ascii.eqb_eq in Ec as ->.
    cbn. repeat split. lia.
  - destruct (Runner.indexOfLF buf) as [i |]; [| discriminate].
    intros [= <-]. destruct (IH i eq_refl) as (Hsplit & Hnone & Hlen).
    cbn [Nat.add JS.sliceTo JS.sliceFrom Runner.indexOfLF String.length].
    rewrite Ec, Hnone, append_cons, <- Hsplit. repeat split. lia.
Qed.

Lemma cutLines_spec (fuel : nat) :
  forall buf,
    String.length buf <= fuel ->
    joinLines (fst (Runner.cutLines fuel buf)) +:+ snd (Runner.cutLines fuel buf)
    = buf
    /\ Forall (fun line => Runner.indexOfLF line = None)
              (fst (Runner.cutLines fuel buf))
    /\ Runner.indexOfLF (snd (Runner.cutLines fuel buf)) = None.
Proof.
  induction fuel as [| fuel IH]; intros buf Hlen.
  - destruct buf; [| cbn in Hlen; lia]. cbn. auto.
  - cbn [Runner.cutLines].
    destruct (Runner.indexOfLF buf) as [idx |] eqn:Ei.
    + destruct (indexOfLF_split buf idx Ei) as (Hsplit & Hnone & Hshort).
      destruct (IH (JS.sliceFrom (idx + 1) buf)) as (Hj & Hl & Hr); [lia |].
      destruct (Runner.cutLines fuel (JS.sliceFrom (idx + 1) buf))
        as [lines rest].
      cbn [fst snd joinLines] in *.
      rewrite append_assoc_, append_cons, Hj. auto.
    + cbn. auto.
Qed.

Lemma indexOfLF_append (a x : string) :
  Runner.indexOfLF a = None ->
  Runner.indexOfLF (a +:+ String Runner.LF x) = Some (String.length a).
Proof.
  induction a as [| c a IH]; [reflexivity |].
  cbn [Runner.indexOfLF]. rewrite append_cons. cbn [Runner.indexOfLF].
  destruct (Ascii.eqb c Runner.LF); [discriminate |].
  destruct (Runner.indexOfLF a); [discriminate |].
  intros _. now rewrite IH.
Qed.

Lemma split_unique (a : string) :
  forall b x y,
    Runner.indexOfLF a = None -> Runner.indexOfLF b = None ->
    a +:+ String Runner.LF x = b +:+ String Runner.LF y ->
    a = b /\ x = y.
Proof.
  induction a as [| c a IH]; intros [| d b] x y Ha Hb E.
  - now injection E.
  - rewrite append_cons in E. injection E as <- _.
    cbn in Hb. discriminate.
  - rewrite append_cons in E. injection E as -> _.
    cbn in Ha. discriminate.
  - rewrite !append_cons in E. injection E as -> E.
    cbn [Runner.indexOfLF] in Ha, Hb.
    destruct (Ascii.eqb d Runner.LF); [discriminate |].
    destruct (Runner.indexOfLF a) eqn:Ea; [discriminate |].
    destruct (Runner.indexOfLF b) eqn:Eb; [discriminate |].
    destruct (IH b x y eq_refl Eb E) as (-> & ->). auto.
Qed.

(** A text is cut into lines and a rest in one way only. *)
Lemma join_unique (ls : list string) :
  forall ls' r r',
    Forall (fun line => Runner.indexOfLF line = None) ls ->
    Forall (fun line => Runner.indexOfLF line = None) ls' ->
    Runner.indexOfLF r = None -> Runner.indexOfLF r' = None ->
    joinLines ls +:+ r = joinLines ls' +:+ r' ->
    ls = ls' /\ r = r'.
Proof.
  induction ls as [| l ls IH]; intros [| l' ls'] r r' Hls Hls' Hr Hr' E.
  - auto.
  - exfalso. cbn [joinLines] in E. change ("" +:+ r) with r in E.
    rewrite append_assoc_, append_cons in E.
    pose proof (List.Forall_inv Hls') as Hl'. cbv beta in Hl'.
    rewrite E, (indexOfLF_append _ _ Hl') in Hr. discriminate.
  - exfalso. cbn [joinLines] in E. change ("" +:+ r') with r' in E.
    rewrite append_assoc_, append_cons in E.
    pose proof (List.Forall_inv Hls) as Hl. cbv beta in Hl.
    rewrite <- E, (indexOfLF_append _ _ Hl) in Hr'. discriminate.
  - cbn [joinLines] in E. rewrite !append_assoc_, !append_cons in E.
    pose proof (List.Forall_inv Hls) as Hl. cbv beta in Hl.
    pose proof (List.Forall_inv Hls') as Hl'. cbv beta in Hl'.
    pose proof (List.Forall_inv_tail Hls) as Hrest.
    pose proof (List.Forall_inv_tail Hls') as Hrest'.
    destruct (split_unique _ _ _ _ Hl Hl' E) as (-> & E').
    destruct (IH ls' r r' Hrest Hrest' Hr Hr' E') as (-> & ->). auto.
Qed.

Section PipeFacts.
Variable Buffer : Type.
Variable toString : Buffer -> string.

Lemma onData_spec (buf : string) (chunk : Buffer) :
  joinLines (fst (Runner.onData toString buf chunk))
  +:+ snd (Runner.onData toString buf chunk)
  = buf +:+ toString chunk
  /\ Forall (fun line => Runner.indexOfLF line = None)
            (fst (Runner.onData toString buf chunk))
  /\ Runner.indexOfLF (snd (Runner.onData toString buf chunk)) = None.
Proof. unfold Runner.onData. apply cutLines_spec, Nat.le_refl. Qed.

Lemma onChunks_spec (chunks : list Buffer) :
  forall buf,
    Runner.indexOfLF buf = None ->
    joinLines (fst (Runner.onChunks toString buf chunks))
    +:+ snd (Runner.onChunks toString buf chunks)
    = buf +:+ concatChunks (map toString chunks)
    /\ Forall (fun line => Runner.indexOfLF line = None)
              (fst (Runner.onChunks toString buf chunks))
    /\ Runner.indexOfLF (snd (Runner.onChunks toString buf chunks)) = None.
Proof.
  induction chunks as [| chunk chunks IH]; intros buf Hbuf.
  - cbn [Runner.onChunks map concatChunks fst snd joinLines].
    rewrite append_empty_r. auto.
  - cbn [Runner.onChunks map concatChunks].
    destruct (onData_spec buf chunk) as (Hj & Hl & Hr).
    destruct (Runner.onData toString buf chunk) as [lines buf'].
    cbn [fst snd] in *.
    destruct (IH buf' Hr) as (Hj' & Hl' & Hr').
    destruct (Runner.onChunks toString buf' chunks) as [lines' buf''].
    cbn [fst snd] in *.
    rewrite joinLines_app, append_assoc_, Hj', <- append_assoc_, Hj,
      append_assoc_.
    split; [reflexivity | split; [| assumption]].
    apply Forall_app. auto.
Qed.

(** Of the texts that the chunks decode to, each chunk on its own, the
    log pipe loses nothing, and it cuts at line feeds only: the lines
    broadcast, each with a line feed, and the buffer kept make up those
    texts put end to end; neither a line nor the buffer holds a line
    feed; and how that text is spread over the chunks makes no
    difference, the lines and the buffer being those of the loop run on
    the whole text at once. *)
Theorem pipe_lines (chunks : list Buffer) :
  joinLines (fst (Runner.onChunks toString "" chunks))
  +:+ snd (Runner.onChunks toString "" chunks)
  = concatChunks (map toString chunks)
  /\ Forall (fun line => Runner.indexOfLF line = None)
            (fst (Runner.onChunks toString "" chunks))
  /\ Runner.indexOfLF (snd (Runner.onChunks toString "" chunks)) = None
  /\ Runner.onChunks toString "" chunks
     = Runner.cutLines (String.length (concatChunks (map toString chunks)))
                       (concatChunks (map toString chunks)).
Proof.
  destruct (onChunks_spec chunks "" eq_refl) as (Hj & Hl & Hr).
  set (text := concatChunks (map toString chunks)) in *.
  change ("" +:+ text) with text in Hj.
  repeat split; try assumption.
  destruct (cutLines_spec (String.length text) text (Nat.le_refl _))
    as (Hj' & Hl' & Hr').
  destruct (join_unique _ _ _ _ Hl Hl' Hr Hr') as (E1 & E2);
    [now rewrite Hj, Hj' |].
  destruct (Runner.onChunks toString "" chunks),
    (Runner.cutLines (String.length text) text).
  cbn [fst snd] in E1, E2. now subst.
Qed.

End PipeFacts.

Lemma escapeLF_none (line : string) :
  Runner.indexOfLF (Runner.escapeLF line) = None.
Proof.
  induction line as [| c line IH]; [reflexivity |].
  cbn [Runner.escapeLF]. destruct (Ascii.eqb c Runner.LF) eqn:Ec.
  - cbn. now rewrite IH.
  - cbn [Runner.indexOfLF]. now rewrite Ec, IH.
Qed.

(** A message makes one event of one line: the payload holds no line
    feed, so that the first line feed of the frame is the first of the
    two that end it; a line without line feed goes out as it is. *)
Theorem frame_one_event (line : string) :
  Runner.indexOfLF (Runner.escapeLF line) = None
  /\ Runner.indexOfLF (Runner.frame line)
     = Some (6 + String.length (Runner.escapeLF line))
  /\ JS.sliceFrom (6 + String.length (Runner.escapeLF line)) (Runner.frame line)
     = String Runner.LF (String Runner.LF "")
  /\ (Runner.indexOfLF line = None -> Runner.escapeLF line = line).
Proof.
  split; [apply escapeLF_none | split; [| split]].
  - unfold Runner.frame. rewrite !append_cons.
    change ("" +:+ ?x) with x.
    cbn [Runner.indexOfLF Ascii.eqb Bool.eqb Runner.LF].
    now rewrite (indexOfLF_append _ _ (escapeLF_none line)).
  - unfold Runner.frame. rewrite !append_cons.
    change ("" +:+ ?x) with x. cbn [Nat.add JS.sliceFrom].
    apply sliceFrom_append.
  - induction line as [| c line IH]; [reflexivity |].
    cbn [Runner.indexOfLF Runner.escapeLF].
    destruct (Ascii.eqb c Runner.LF); [discriminate |].
    destruct (Runner.indexOfLF line); [discriminate |].
    intros _. now rewrite IH.
Qed.
